(** * devbot: the heuristic analysis core and its two callers

    A shallow embedding of [core/analyzers.py] (framework detection,
    structure audit, the Python, Java and JavaScript/TypeScript analyzers)
    and of the parts of [cogs/analysis_cog.py] and [cogs/general_cog.py]
    that call them, followed by the properties of the design document.

    Texts are strings of 8-bit code points (U+0000 to U+00FF); the character
    classes are those of Python's [str] methods and of [re] on [str]
    patterns, restricted to that range. *)

From Stdlib Require Import Bool Arith NArith Lia List Ascii String Permutation.
Import ListNotations.
Open Scope string_scope.
Open Scope list_scope.
Open Scope nat_scope.

Set Warnings "-register-all".

Infix "+++" := String.append (right associativity, at level 60).

(** ** Python's [str] operations *)
Module Text.

Definition code (c : ascii) : nat := nat_of_ascii c.

Definition between (lo hi : nat) (c : ascii) : bool :=
  (lo <=? code c) && (code c <=? hi).

(** [str.isspace] on one character; also the class [\s]. *)
Definition is_space (c : ascii) : bool :=
  between 9 13 c || between 28 32 c || (code c =? 133) || (code c =? 160).

(** Alphanumeric or underscore: the class [\w]. *)
Definition is_word (c : ascii) : bool :=
  between 48 57 c || between 65 90 c || between 97 122 c || (code c =? 95)
  || (code c =? 170) || (code c =? 178) || (code c =? 179) || (code c =? 181)
  || (code c =? 185) || (code c =? 186) || between 188 190 c
  || between 192 214 c || between 216 246 c || between 248 255 c.

Definition lower_char (c : ascii) : ascii :=
  if between 65 90 c || between 192 214 c || between 216 222 c
  then ascii_of_nat (code c + 32) else c.

(** [s.lower()] *)
Fixpoint lower (s : string) : string :=
  match s with
  | EmptyString => EmptyString
  | String c s' => String (lower_char c) (lower s')
  end.

(** [s.startswith(p)] *)
Fixpoint startswith (s p : string) {struct p} : bool :=
  match p, s with
  | EmptyString, _ => true
  | String _ _, EmptyString => false
  | String a p', String b s' => Ascii.eqb a b && startswith s' p'
  end.

(** [sub in s] *)
Fixpoint str_in (sub s : string) : bool :=
  startswith s sub ||
  match s with
  | EmptyString => false
  | String _ s' => str_in sub s'
  end.

Fixpoint drop (n : nat) (s : string) : string :=
  match n, s with
  | S n', String _ s' => drop n' s'
  | _, _ => s
  end.

Fixpoint take (n : nat) (s : string) : string :=
  match n, s with
  | S n', String c s' => String c (take n' s')
  | _, _ => EmptyString
  end.

(** [s.endswith(p)] *)
Definition endswith (s p : string) : bool :=
  (String.length p <=? String.length s)
  && String.eqb (drop (String.length s - String.length p) s) p.

Fixpoint lstrip (s : string) : string :=
  match s with
  | String c s' => if is_space c then lstrip s' else s
  | EmptyString => EmptyString
  end.

Fixpoint rstrip (s : string) : string :=
  match s with
  | EmptyString => EmptyString
  | String c s' =>
      match rstrip s' with
      | EmptyString => if is_space c then EmptyString else String c EmptyString
      | r => String c r
      end
  end.

(** [s.strip()] *)
Definition strip (s : string) : string := rstrip (lstrip s).

(** [s.split(sep)] for a one-character separator. *)
Fixpoint split (s : string) (sep : ascii) : list string :=
  match s with
  | EmptyString => [EmptyString]
  | String c s' =>
      if Ascii.eqb c sep then EmptyString :: split s' sep
      else match split s' sep with
           | h :: t => String c h :: t
           | [] => [String c EmptyString]
           end
  end.

(** The scan of [s.replace(old, new)] for a non-empty [old]: [skip] counts
    the characters of an occurrence of [old] that are still to be dropped. *)
Fixpoint replace_scan (old new : string) (skip : nat) (s : string) : string :=
  match s with
  | EmptyString => EmptyString
  | String c s' =>
      match skip with
      | S n => replace_scan old new n s'
      | O =>
          if startswith s old
          then new +++ replace_scan old new (String.length old - 1) s'
          else String c (replace_scan old new 0 s')
      end
  end.

Fixpoint intersperse (new s : string) : string :=
  match s with
  | EmptyString => new
  | String c s' => new +++ String c (intersperse new s')
  end.

(** [s.replace(old, new)] *)
Definition replace (s old new : string) : string :=
  match old with
  | EmptyString => intersperse new s
  | _ => replace_scan old new 0 s
  end.

(** [os.path.basename(p)]: what follows the last slash. *)
Definition basename (p : string) : string :=
  last (split p "/") EmptyString.

(** [x in l] for a list or set of strings. *)
Definition mem (x : string) (l : list string) : bool :=
  existsb (String.eqb x) l.

(** The elements of [set(l)], each once.  Python leaves the order in which a
    set is iterated open; the properties below speak of membership only. *)
Fixpoint dedup (l : list string) : list string :=
  match l with
  | [] => []
  | x :: l' => if mem x l' then dedup l' else x :: dedup l'
  end.

End Text.

(** ** Repository entries, as the content provider lists them *)

Record ContentFile : Type := mkContent {
  path : string;
  type : string;
  name : string;
  decoded_content : option string  (* [None]: decoding raises *)
}.

(** ** [ProjectStructureAnalyzer] *)
Module Structure.
Import Text.

Definition framework_patterns : list (string * list string) :=
  [ ("React", ["package.json"; "src/App.js"; "src/index.js"; "public/index.html"]);
    ("Vue", ["package.json"; "src/main.js"; "src/App.vue"]);
    ("Angular", ["angular.json"; "src/main.ts"; "src/app/app.module.ts";
                 "src/index.html"; "src/app/"]);
    ("Django", ["manage.py"; "settings.py"; "urls.py"; "wsgi.py"]);
    ("Flask", ["app.py"; "requirements.txt"; "templates/"]);
    ("Spring Boot", ["pom.xml"; "src/main/java/"; "application.properties"]);
    ("Express.js", ["package.json"; "app.js"; "server.js"]);
    ("Next.js", ["next.config.js"; "pages/"; "package.json"]);
    ("Laravel", ["composer.json"; "artisan"; "app/Http/Controllers/"]);
    ("Rails", ["Gemfile"; "config/routes.rb"; "app/controllers/"]);
    ("FastAPI", ["main.py"; "requirements.txt"; "app/"]);
    ("Nest.js", ["nest-cli.json"; "src/main.ts"; "src/app.module.ts"]) ].

Record Recommendation : Type := mkRec {
  recommended : list string;
  description : string
}.

Definition structure_recommendations : list (string * Recommendation) :=
  [ ("React", mkRec ["src/components/"; "src/hooks/"; "src/utils/";
                     "src/services/"; "src/assets/"]
        "Component-based architecture with hooks and services");
    ("Django", mkRec ["apps/"; "static/"; "templates/"; "media/";
                      "requirements.txt"]
        "Django apps structure with proper separation of concerns");
    ("Spring Boot", mkRec ["src/main/java/com/company/app/";
                           "src/main/resources/"; "src/test/"]
        "Maven/Gradle structure with proper package organization");
    ("Express.js", mkRec ["routes/"; "middleware/"; "models/"; "controllers/";
                          "config/"]
        "MVC pattern with proper middleware and routing");
    ("Angular", mkRec ["src/app/components/"; "src/app/services/";
                       "src/app/models/"; "src/app/shared/";
                       "src/environments/"]
        "Modular Angular application structure with services, components, and shared modules") ].

(** The set [all_paths] of [detect_framework]: lower-cased paths, those of
    directories with a trailing slash. *)
Definition all_paths (repo_contents : list ContentFile) : list string :=
  map (fun content =>
         if String.eqb (type content) "file" then lower (path content)
         else lower (path content) +++ "/")
      repo_contents.

Definition normalized_pattern (pattern : string) : string :=
  let p := lower pattern in
  if negb (endswith p "/") && negb (str_in "." (basename p))
  then p +++ "/" else p.

Definition pattern_matches (paths : list string) (pattern : string) : bool :=
  existsb (fun p => str_in (normalized_pattern pattern) p) paths.

(** The counter [matches] after the inner loop over [patterns]. *)
Definition count_matches (paths : list string) (patterns : list string) : nat :=
  fold_left (fun matches pattern =>
               if pattern_matches paths pattern then matches + 1 else matches)
            patterns 0.

(** The outer loop of [detect_framework] over the table, in its order. *)
Fixpoint detect_loop (paths : list string)
    (table : list (string * list string)) : option string :=
  match table with
  | [] => None
  | (framework, patterns) :: rest =>
      if 2 <=? count_matches paths patterns then
        if String.eqb framework "Angular" && negb (mem "angular.json" paths)
        then detect_loop paths rest
        else Some framework
      else detect_loop paths rest
  end.

Definition detect_framework (repo_contents : list ContentFile) : option string :=
  detect_loop (all_paths repo_contents) framework_patterns.

Record StructureReport : Type := mkStructure {
  framework : option string;
  files : list string;
  directories : list string;
  issues : list string;
  recommendations : list string
}.

(** Python truthiness of an optional string. *)
Definition truthy (o : option string) : bool :=
  match o with
  | Some (String _ _) => true
  | _ => false
  end.

Fixpoint lookup {A : Type} (k : string) (d : list (string * A)) : option A :=
  match d with
  | [] => None
  | (k', v) :: d' => if String.eqb k k' then Some v else lookup k d'
  end.

Definition analyze_structure (repo_contents : list ContentFile)
    (fw : option string) : StructureReport :=
  let is_file content := String.eqb (type content) "file" in
  let file_items := filter is_file repo_contents in
  let dir_items := filter (fun content => negb (is_file content)) repo_contents in
  let all_file_paths := map (fun content => lower (path content)) file_items in
  let all_dir_paths := map (fun content => lower (path content)) dir_items in
  let issues1 :=
    if negb (mem "readme.md" all_file_paths)
    then ["Missing README.md file"] else [] in
  let issues2 :=
    if negb (mem ".gitignore" all_file_paths)
    then ["Missing .gitignore file"] else [] in
  let recs :=
    match fw with
    | Some f =>
        if truthy fw then
          match lookup f structure_recommendations with
          | Some rec =>
              flat_map
                (fun recommended_path =>
                   let normalized_rec_path := lower recommended_path in
                   if negb (existsb (str_in normalized_rec_path)
                              (all_file_paths ++ all_dir_paths))
                   then ["Consider adding " +++ recommended_path +++ " for " +++ f
                           +++ " best practices."]
                   else [])
                (recommended rec)
          | None => []
          end
        else []
    | None => []
    end in
  mkStructure fw (map path file_items) (map path dir_items)
    (issues1 ++ issues2) recs.

End Structure.

(** ** The fragment of Python's [re] that the analyzers use

    A backtracking matcher in continuation-passing style, with Python's
    priorities: alternatives left to right, greedy repetition longest first,
    lazy repetition shortest first.  Every repetition in the analyzers'
    patterns is over a one-character class, so [Star] and [LazyStar] take a
    class; [x+] is [x] followed by [x*]. *)
Module Re.
Import Text.

Inductive regex : Type :=
| Eps
| Chr (p : ascii -> bool)
| Cat (r1 r2 : regex)
| Alt (r1 r2 : regex)
| Opt (r : regex)
| Star (p : ascii -> bool)
| LazyStar (p : ascii -> bool)
| Group (n : nat) (r : regex)
| WordB
| NotAhead (r : regex).

Record mstate : Type := mkState {
  prev : option ascii;          (* the character before the position *)
  rest : string;                (* the text from the position on *)
  caps : list (nat * string)    (* the groups closed so far, latest first *)
}.

Definition word_before (st : mstate) : bool :=
  match prev st with Some c => is_word c | None => false end.

Definition word_after (st : mstate) : bool :=
  match rest st with String c _ => is_word c | EmptyString => false end.

Fixpoint star (p : ascii -> bool) (k : mstate -> option mstate)
    (cs : list (nat * string)) (pv : option ascii) (s : string)
    : option mstate :=
  match s with
  | String c s' =>
      if p c then
        match star p k cs (Some c) s' with
        | Some st => Some st
        | None => k (mkState pv s cs)
        end
      else k (mkState pv s cs)
  | EmptyString => k (mkState pv s cs)
  end.

Fixpoint lazy_star (p : ascii -> bool) (k : mstate -> option mstate)
    (cs : list (nat * string)) (pv : option ascii) (s : string)
    : option mstate :=
  match k (mkState pv s cs) with
  | Some st => Some st
  | None =>
      match s with
      | String c s' => if p c then lazy_star p k cs (Some c) s' else None
      | EmptyString => None
      end
  end.

(** [run r k st]: match [r] at [st], then continue with [k]; [None] makes
    the caller backtrack. *)
Fixpoint run (r : regex) (k : mstate -> option mstate) (st : mstate)
    : option mstate :=
  match r with
  | Eps => k st
  | Chr p =>
      match rest st with
      | String c s' => if p c then k (mkState (Some c) s' (caps st)) else None
      | EmptyString => None
      end
  | Cat r1 r2 => run r1 (run r2 k) st
  | Alt r1 r2 =>
      match run r1 k st with
      | Some st' => Some st'
      | None => run r2 k st
      end
  | Opt r1 =>
      match run r1 k st with
      | Some st' => Some st'
      | None => k st
      end
  | Star p => star p k (caps st) (prev st) (rest st)
  | LazyStar p => lazy_star p k (caps st) (prev st) (rest st)
  | Group n r1 =>
      run r1
        (fun st' =>
           let len := String.length (rest st) - String.length (rest st') in
           k (mkState (prev st') (rest st')
                ((n, take len (rest st)) :: caps st')))
        st
  | WordB => if xorb (word_before st) (word_after st) then k st else None
  | NotAhead r1 =>
      match run r1 Some st with
      | Some _ => None
      | None => k st
      end
  end.

(** A match object: [group(0)] and the numbered groups. *)
Record Match : Type := mkMatch {
  whole : string;
  groups : list (nat * string)
}.

Fixpoint assoc (n : nat) (l : list (nat * string)) : option string :=
  match l with
  | [] => None
  | (n', s) :: l' => if n =? n' then Some s else assoc n l'
  end.

(** [m.group(n)].  In each pattern below whose group is read, the group lies
    outside every optional part, so it has a value whenever the pattern
    matches. *)
Definition group (n : nat) (m : Match) : string :=
  match assoc n (groups m) with
  | Some s => s
  | None => EmptyString
  end.

Definition match_at (r : regex) (pv : option ascii) (s : string) : option Match :=
  match run r Some (mkState pv s []) with
  | Some st => Some (mkMatch (take (String.length s - String.length (rest st)) s)
                             (caps st))
  | None => None
  end.

(** The left-to-right scan of [re.finditer]: at each position either the
    scan is still inside the previous match ([skip] characters left) or the
    pattern is tried there.  The analyzers' patterns all consume at least
    one character. *)
Fixpoint scan (r : regex) (skip : nat) (pv : option ascii) (s : string)
    : list Match :=
  match skip with
  | S n =>
      match s with
      | EmptyString => []
      | String c s' => scan r n (Some c) s'
      end
  | O =>
      match match_at r pv s with
      | Some m =>
          m :: match s with
               | EmptyString => []
               | String c s' => scan r (String.length (whole m) - 1) (Some c) s'
               end
      | None =>
          match s with
          | EmptyString => []
          | String c s' => scan r 0 (Some c) s'
          end
      end
  end.

Definition finditer (r : regex) (s : string) : list Match := scan r 0 None s.

Fixpoint search_from (r : regex) (pv : option ascii) (s : string) : option Match :=
  match match_at r pv s with
  | Some m => Some m
  | None =>
      match s with
      | EmptyString => None
      | String c s' => search_from r (Some c) s'
      end
  end.

(** [re.search(r, s)] *)
Definition search (r : regex) (s : string) : option Match := search_from r None s.

Definition found (r : regex) (s : string) : bool :=
  match search r s with Some _ => true | None => false end.

(** A literal string; also what [re.escape] of it matches. *)
Fixpoint lit (s : string) : regex :=
  match s with
  | EmptyString => Eps
  | String c s' => Cat (Chr (Ascii.eqb c)) (lit s')
  end.

Definition plus (p : ascii -> bool) : regex := Cat (Chr p) (Star p).

Definition seq (rs : list regex) : regex := fold_right Cat Eps rs.

Definition alts (ss : list string) : regex :=
  match ss with
  | [] => Eps
  | s :: ss' => fold_left (fun r s' => Alt r (lit s')) ss' (lit s)
  end.

(** The least number of characters a match of [r] takes. *)
Fixpoint min_len (r : regex) : nat :=
  match r with
  | Chr _ => 1
  | Cat r1 r2 => min_len r1 + min_len r2
  | Alt r1 r2 => Nat.min (min_len r1) (min_len r2)
  | Group _ r1 => min_len r1
  | _ => 0
  end.

(** Group [n] lies on every way through [r]. *)
Fixpoint always_sets (n : nat) (r : regex) : bool :=
  match r with
  | Cat r1 r2 => always_sets n r1 || always_sets n r2
  | Alt r1 r2 => always_sets n r1 && always_sets n r2
  | Group n' r1 => (n =? n') || always_sets n r1
  | _ => false
  end.

Definition has_group (n : nat) (cs : list (nat * string)) : Prop :=
  assoc n cs <> None.

(** [st1] is where a match of [r] started at [st] can hand over to its
    continuation: further on in the same text, by at least [min_len r]
    characters, with the groups of [st] and those [r] always sets. *)
Definition reaches (r : regex) (st st1 : mstate) : Prop :=
  (exists consumed,
     rest st = consumed +++ rest st1 /\ min_len r <= String.length consumed)
  /\ (forall n, has_group n (caps st) \/ always_sets n r = true ->
                 has_group n (caps st1)).

(** Character classes of the patterns. *)
Definition ws : ascii -> bool := is_space.
Definition w : ascii -> bool := is_word.
Definition non_ws (c : ascii) : bool := negb (is_space c).
Definition nl : ascii := ascii_of_nat 10.
Definition dot (c : ascii) : bool := negb (Ascii.eqb c nl).
Definition is_char (a : ascii) : ascii -> bool := Ascii.eqb a.
Definition not_char (a c : ascii) : bool := negb (Ascii.eqb c a).
Definition letter_ (c : ascii) : bool :=
  between 97 122 c || between 65 90 c || (code c =? 95).
Definition alnum_ (c : ascii) : bool := letter_ c || between 48 57 c.

End Re.

(** ** Findings: the dictionaries the analyzers return *)

Inductive value : Type :=
| VStr (s : string)
| VList (l : list string).

Definition Analysis : Type := list (string * value).

Fixpoint dict_get (k : string) (d : Analysis) : option value :=
  match d with
  | [] => None
  | (k', v) :: d' => if String.eqb k k' then Some v else dict_get k d'
  end.

(** [k in d] *)
Definition has_key (k : string) (d : Analysis) : bool :=
  match dict_get k d with Some _ => true | None => false end.

(** The list under [k], read the way the callers read it:
    [d[k] if k in d else []]. *)
Definition field (k : string) (d : Analysis) : list string :=
  match dict_get k d with
  | Some (VList l) => l
  | _ => []
  end.

(** What a call does: return a value or raise an exception (its [str]). *)
Inductive outcome (A : Type) : Type :=
| Returns (a : A)
| Raises (e : string).
Arguments Returns {A} a.
Arguments Raises {A} e.

(** ** The syntax tree of Python's [ast], as far as the analyzer looks *)
Module Ast.

Inductive expr_context : Type := Load | Store | Del.

Record alias : Type := mkAlias {
  alias_name : string;
  asname : option string
}.

(** [FunctionDef] and [ClassDef] carry their child nodes in the order of
    [ast.iter_child_nodes]; [Other] is any node of another class (among
    them [AsyncFunctionDef], [Attribute], [Pass], [arguments]). *)
Inductive node : Type :=
| Import (names : list alias)
| ImportFrom (module : option string) (names : list alias)
| FunctionDef (name : string) (children : list node)
| ClassDef (name : string) (children : list node)
| Name (id : string) (ctx : expr_context)
| Call (func : node) (arguments : list node)
| Other (children : list node).

(** [ast.iter_child_nodes], without the [alias] and context nodes, which no
    test of the analyzer recognises. *)
Definition child_nodes (n : node) : list node :=
  match n with
  | Import _ | ImportFrom _ _ | Name _ _ => []
  | FunctionDef _ cs | ClassDef _ cs | Other cs => cs
  | Call f args => f :: args
  end.

Fixpoint size (n : node) : nat :=
  let forest := fix forest (l : list node) : nat :=
    match l with
    | [] => 0
    | x :: l' => size x + forest l'
    end in
  match n with
  | Import _ | ImportFrom _ _ | Name _ _ => 1
  | FunctionDef _ cs | ClassDef _ cs | Other cs => S (forest cs)
  | Call f args => S (size f + forest args)
  end.

Definition forest_size (l : list node) : nat :=
  fold_right (fun x acc => size x + acc) 0 l.

(** The queue loop of [ast.walk]: pop the first node, append its children,
    yield it.  Each turn yields one node, so the number of nodes is all the
    fuel the loop can use. *)
Fixpoint bfs (fuel : nat) (todo : list node) : list node :=
  match fuel with
  | O => []
  | S fuel' =>
      match todo with
      | [] => []
      | n :: todo' => n :: bfs fuel' (todo' ++ child_nodes n)
      end
  end.

(** [ast.walk(tree)] for a [Module] with the given body; the [Module] node
    itself, which is yielded first, matches none of the analyzer's tests. *)
Definition walk (body : list node) : list node :=
  bfs (forest_size body) body.

End Ast.

(** ** [CodeAnalyzer] *)
Module Analyzers.
Import Text Re Ast.

Definition supported_extensions : list (string * string) :=
  [ (".py", "python"); (".js", "javascript"); (".ts", "typescript");
    (".jsx", "javascript"); (".tsx", "typescript"); (".java", "java");
    (".cpp", "cpp"); (".c", "c"); (".cs", "csharp"); (".go", "go");
    (".rs", "rust"); (".php", "php"); (".rb", "ruby"); (".swift", "swift");
    (".kt", "kotlin"); (".scala", "scala"); (".html", "html"); (".css", "css");
    (".scss", "scss"); (".sql", "sql") ].

(** *** [analyze_python_file] *)

(** [alias.asname if alias.asname else alias.name] *)
Definition bound_name (a : alias) : string :=
  match asname a with
  | Some (String c s) => String c s
  | _ => alias_name a
  end.

Definition import_names (n : node) : list string :=
  match n with
  | Import names => map bound_name names
  | ImportFrom (Some (String _ _)) names => map bound_name names
  | _ => []
  end.

Definition function_name (n : node) : list string :=
  match n with FunctionDef name _ => [name] | _ => [] end.

Definition class_name (n : node) : list string :=
  match n with ClassDef name _ => [name] | _ => [] end.

Definition name_id (n : node) : list string :=
  match n with Name id _ => [id] | _ => [] end.

(** The second walk: callees that are plain names, and names that are read. *)
Definition referenced_name (n : node) : list string :=
  match n with
  | Call (Name id _) _ => [id]
  | Name id Load => [id]
  | _ => []
  end.

Definition parse_error_issue (e : string) : string := "Parsing error: " +++ e.

(** The dictionary [analysis] as the function returns it: its nine keys, of
    which [variables] and [unused_variables] are never filled. *)
Definition python_finding (imports functions classes unused_imports
    unused_functions potential_issues suggestions : list string) : Analysis :=
  [ ("imports", VList imports);
    ("functions", VList functions);
    ("classes", VList classes);
    ("variables", VList []);
    ("unused_imports", VList unused_imports);
    ("unused_functions", VList unused_functions);
    ("unused_variables", VList []);
    ("potential_issues", VList potential_issues);
    ("suggestions", VList suggestions) ].

(** What the [except] clause returns. *)
Definition error_finding (e : string) : Analysis :=
  [ ("error", VStr e);
    ("potential_issues", VList [parse_error_issue e]) ].

Section Python.

(** [ast.parse]: the body of the [Module] it returns, or the exception it
    raises. *)
Variable ast_parse : string -> outcome (list node).

(** The [try] block. *)
Definition analyze_python_body (content : string) : outcome Analysis :=
  match ast_parse content with
  | Raises e => Raises e
  | Returns tree_body =>
      let nodes := walk tree_body in
      let imports := flat_map import_names nodes in
      let functions := flat_map function_name nodes in
      let classes := flat_map class_name nodes in
      let used_names := flat_map name_id nodes in
      let unused_imports :=
        filter (fun name => negb (mem name used_names)) imports in
      let defined_functions := dedup (flat_map function_name tree_body) in
      let all_referenced_names := flat_map referenced_name nodes in
      let unused_functions :=
        filter (fun func_name =>
                  negb (mem func_name all_referenced_names)
                  && negb (mem func_name classes))
               defined_functions in
      let potential_issues :=
        (if str_in "print(" content
         then ["Debug print statements found"] else [])
        ++ (if str_in "TODO" content || str_in "FIXME" content
            then ["TODO/FIXME comments found"] else [])
        ++ (if str_in "except:" content
            then ["Bare except clauses found (use specific exceptions)"]
            else []) in
      let suggestions :=
        (if 50 <? List.length functions
         then ["Consider splitting this file - it has many functions"]
         else [])
        ++ (if existsb (fun line => 100 <? String.length line)
                  (split content nl)
            then ["Some lines are too long (>100 characters)"] else []) in
      Returns (python_finding imports functions classes unused_imports
                 unused_functions potential_issues suggestions)
  end.

(** The whole function: [except Exception as e] turns what the block raises
    into a finding. *)
Definition analyze_python_file (content : string) : outcome Analysis :=
  match analyze_python_body content with
  | Returns analysis => Returns analysis
  | Raises e =>
      Returns (error_finding e)
  end.

End Python.

(** *** [analyze_java_file] *)

Definition access : regex := alts ["public"; "private"; "protected"].

(** [(public|private|protected)\s+(static\s+)?(class|interface)\s+(\w+)] *)
Definition java_class_re : regex :=
  seq [ Group 1 access; plus ws; Opt (Group 2 (Cat (lit "static") (plus ws)));
        Group 3 (alts ["class"; "interface"]); plus ws; Group 4 (plus w) ].

(** [(public|private|protected)\s+(static\s+)?[\w<>]+\s+(\w+)\s*\([^)]*\)\s*\{] *)
Definition java_method_re : regex :=
  seq [ Group 1 access; plus ws; Opt (Group 2 (Cat (lit "static") (plus ws)));
        plus (fun c => w c || is_char "<" c || is_char ">" c); plus ws;
        Group 3 (plus w); Star ws; lit "("; Star (not_char ")"); lit ")";
        Star ws; lit "{" ].

(** [public\s+static\s+void\s+main\s*\(String\[\]\s+args\)] *)
Definition java_main_re : regex :=
  seq [ lit "public"; plus ws; lit "static"; plus ws; lit "void"; plus ws;
        lit "main"; Star ws; lit "(String[]"; plus ws; lit "args)" ].

(** [r'\b' + re.escape(x) + r'\b'] *)
Definition whole_word_re (x : string) : regex := seq [ WordB; lit x; WordB ].

Definition call_text (method_name : string) : string :=
  " " +++ method_name +++ "(".

(** The inner loop over the lines, for one method name. *)
Definition method_referenced (method_name : string) (lines : list string) : bool :=
  existsb
    (fun line =>
       str_in method_name line && str_in (call_text method_name) line
       && negb (str_in (call_text method_name) (hd EmptyString (split line "{"))))
    lines.

Definition unused_imports_advice : string :=
  "Some imports might be unused (manual verification recommended)".

Definition java_finding (potential_issues suggestions imports classes methods
    unused_imports unused_methods : list string) : Analysis :=
  [ ("potential_issues", VList potential_issues);
    ("suggestions", VList suggestions);
    ("imports", VList imports);
    ("classes", VList classes);
    ("methods", VList methods);
    ("unused_imports", VList unused_imports);
    ("unused_methods", VList unused_methods) ].

Definition analyze_java_file (content : string) : Analysis :=
  let lines := split content nl in
  let imports :=
    flat_map (fun line =>
                if startswith (strip line) "import "
                then [replace (replace (strip line) "import " "") ";" ""]
                else [])
             lines in
  let classes :=
    flat_map (fun line =>
                match search java_class_re line with
                | Some class_match => [group 4 class_match]
                | None => []
                end)
             lines in
  let methods :=
    flat_map (fun line =>
                match search java_method_re line with
                | Some method_match => [group 3 method_match]
                | None => []
                end)
             lines in
  let defined_methods := dedup methods in
  let unused_methods :=
    filter (fun method_name => negb (method_referenced method_name lines))
           defined_methods in
  let potential_issues :=
    (if str_in "System.out.println" content
     then ["System.out.println statements found (use logging framework like SLF4J)"]
     else [])
    ++ (if str_in "catch (Exception e)" content
           || str_in "catch (Throwable t)" content
        then ["Catching generic Exception/Throwable (use specific exceptions for better error handling)"]
        else [])
    ++ (if str_in "// TODO" content || str_in "// FIXME" content
        then ["TODO/FIXME comments found"] else [])
    ++ (if str_in "new File(" content && negb (str_in "try {" content)
        then ["File operations without try-with-resources or explicit close (resource leak risk)"]
        else []) in
  let suggestions :=
    (if found java_main_re content && (1 <? List.length classes)
     then ["Consider refactoring main method into a dedicated entry point class if project grows"]
     else [])
    ++ (if 20 <? List.length methods
        then ["Consider refactoring this class - it has many methods (High Cohesion, Low Coupling principle)"]
        else [])
    ++ (if negb (existsb (fun line => str_in "private" line
                                      || str_in "protected" line) lines)
        then ["Consider using private/protected access modifiers for better encapsulation"]
        else [])
    ++ (if str_in "java.util.Date" content
        then ["Consider using java.time (JSR 310) for modern date/time API instead of java.util.Date"]
        else []) in
  let used_imports_count :=
    List.length
      (filter (fun imp =>
                 found (whole_word_re (last (split imp ".") EmptyString)) content)
              imports) in
  let unused_imports :=
    if used_imports_count <? List.length imports
    then [unused_imports_advice] else [] in
  java_finding potential_issues suggestions imports classes methods
    unused_imports unused_methods.

(** *** [analyze_javascript_file] *)

Definition declarator : regex := alts ["const"; "let"; "var"].

(** [function\s+(\w+)\s*\(],
    [(?:const|let|var)\s+(\w+)\s*=\s*(?:function|\(.*?\)\s*=>)],
    [class\s+\w+\s*\{[^}]*?(\w+)\s*\(.*?\)\s*\{] *)
Definition function_patterns : list regex :=
  [ seq [ lit "function"; plus ws; Group 1 (plus w); Star ws; lit "(" ];
    seq [ declarator; plus ws; Group 1 (plus w); Star ws; lit "="; Star ws;
          Alt (lit "function")
              (seq [ lit "("; LazyStar dot; lit ")"; Star ws; lit "=>" ]) ];
    seq [ lit "class"; plus ws; plus w; Star ws; lit "{";
          LazyStar (not_char "}"); Group 1 (plus w); Star ws; lit "(";
          LazyStar dot; lit ")"; Star ws; lit "{" ] ].

(** [(?:const|let|var)\s+([\w,\s]+)\s*=?.*?;] and [this\.(\w+)\s*=] *)
Definition var_patterns : list regex :=
  [ seq [ declarator; plus ws;
          Group 1 (plus (fun c => w c || is_char "," c || ws c)); Star ws;
          Opt (lit "="); LazyStar dot; lit ";" ];
    seq [ lit "this."; Group 1 (plus w); Star ws; lit "=" ] ].

(** [(\w+)] *)
Definition word_re : regex := Group 1 (plus w).

(** [\b[a-zA-Z_][a-zA-Z0-9_]*\b] *)
Definition identifier_re : regex := seq [ WordB; Chr letter_; Star alnum_; WordB ].

(** [fr'\b{name}\s*\(']; the interpolated names are runs of [\w], which
    stand for themselves in a pattern. *)
Definition call_re (name : string) : regex :=
  seq [ WordB; lit name; Star ws; lit "(" ].

(** [==(?!=)] *)
Definition loose_equality_re : regex := seq [ lit "=="; NotAhead (lit "=") ].

(** [(?:private|public)\s+.*?:\s+\S+\s*=\s*new\s+\S+\(\)] *)
Definition direct_instantiation_re : regex :=
  seq [ alts ["private"; "public"]; plus ws; LazyStar dot; lit ":"; plus ws;
        plus non_ws; Star ws; lit "="; Star ws; lit "new"; plus ws;
        plus non_ws; lit "()" ].

(** [subscribe\s*\(] *)
Definition subscribe_re : regex := seq [ lit "subscribe"; Star ws; lit "(" ].

Definition any_suggestion : string :=
  "Extensive use of 'any' type in TypeScript (consider more specific types for better type safety)".

Definition javascript_finding (potential_issues suggestions functions
    variables unused_functions unused_variables : list string) : Analysis :=
  [ ("potential_issues", VList potential_issues);
    ("suggestions", VList suggestions);
    ("functions", VList functions);
    ("variables", VList variables);
    ("unused_functions", VList unused_functions);
    ("unused_variables", VList unused_variables) ].

Definition analyze_javascript_file (content : string) (language : string)
    : Analysis :=
  let functions :=
    flat_map (fun pattern => map (group 1) (finditer pattern content))
             function_patterns in
  let variables :=
    flat_map (fun pattern =>
                flat_map (fun m => map (group 1) (finditer word_re (group 1 m)))
                         (finditer pattern content))
             var_patterns in
  let used_names := map whole (finditer identifier_re content) in
  let unused_functions :=
    filter (fun name => negb (mem name used_names)
                        && negb (found (call_re name) content))
           functions in
  let unused_variables :=
    filter (fun name => negb (mem name used_names) && negb (mem name functions))
           variables in
  let potential_issues :=
    (if str_in "console.log" content || str_in "console.error" content
        || str_in "console.warn" content
     then ["Console.log/error/warn statements found (consider removing or using a proper logging library in production)"]
     else [])
    ++ (if str_in "eval(" content
        then ["`eval()` usage found (potential security risk and performance implications)"]
        else [])
    ++ (if found direct_instantiation_re content
        then ["Direct instantiation of services/dependencies in components (consider Dependency Injection framework like Angular's or decorators for others)"]
        else [])
    ++ (if found subscribe_re content && negb (str_in "unsubscribe" content)
        then ["Observable subscriptions without explicit unsubscription (potential memory leak in Angular/RxJS contexts)"]
        else []) in
  let suggestions :=
    (if str_in "var " content
     then ["Consider using 'let' or 'const' instead of 'var' for better block scoping"]
     else [])
    ++ (if found loose_equality_re content
        then ["Consider using strict equality (===) instead of (==) to avoid type coercion issues"]
        else [])
    ++ (if str_in "any" content && String.eqb language "typescript"
        then [any_suggestion] else [])
    ++ (if 30 <? List.length functions
        then ["Consider refactoring this file - it has too many functions (violates Single Responsibility Principle)"]
        else [])
    ++ (if str_in "jQuery" content || str_in "$(" content
        then ["Consider using modern JavaScript APIs or lighter alternatives instead of jQuery for new development"]
        else []) in
  javascript_finding potential_issues suggestions functions variables
    unused_functions unused_variables.

End Analyzers.

(** ** The commands of [AnalysisCog] and [GeneralCog] that call the core *)
Module Cogs.
Import Text Structure Analyzers.

(** [os.path.splitext(p)[1]]: from the last dot of the base name on, unless
    only dots precede it. *)
Definition splitext_ext (p : string) : string :=
  match rev (split (basename p) ".") with
  | ext :: before :: more =>
      if existsb (fun part => negb (String.eqb part EmptyString)) (before :: more)
      then "." +++ ext else EmptyString
  | _ => EmptyString
  end.

(** The default of the parameter [language] of [analyze_javascript_file]. *)
Definition default_language : string := "javascript".

Record AnalyzedFile : Type := mkAnalyzed {
  file_name : string;
  file_path : string;
  file_language : string;
  file_analysis : Analysis;
  file_size : nat
}.

Section Commands.

Variable ast_parse : string -> outcome (list Ast.node).

(** The [if]/[elif] chain on [file_ext], the same in [analyze_repo] and in
    [upload]. *)
Definition dispatch (file_ext language content : string) : outcome Analysis :=
  if String.eqb file_ext ".py" then analyze_python_file ast_parse content
  else if String.eqb file_ext ".java" then Returns (analyze_java_file content)
  else if mem file_ext [".js"; ".ts"; ".jsx"; ".tsx"]
  then Returns (analyze_javascript_file content default_language)
  else Returns [("info", VStr ("Basic analysis for " +++ language))].

(** *** [analyze_repo], from the flattened listing on *)

(** [file_ext in self.code_analyzer.supported_extensions] *)
Definition has_ext (file_ext : string) : bool :=
  match lookup file_ext supported_extensions with
  | Some _ => true
  | None => false
  end.

(** The first loop: the files to analyze, and [file_ext] as the loop leaves
    it ([None]: never assigned). *)
Definition select_files (all_repo_contents : list ContentFile)
    : list ContentFile * option string :=
  fold_left
    (fun (acc : list ContentFile * option string) content_file =>
       if String.eqb (type content_file) "file" then
         let file_ext := lower (splitext_ext (name content_file)) in
         if has_ext file_ext
         then (fst acc ++ [content_file], Some file_ext)
         else (fst acc, Some file_ext)
       else acc)
    all_repo_contents ([], None).

(** One turn of the second loop; whatever is raised inside is logged and the
    file is left out.  The loop reads [file_ext] as the first loop left it. *)
Definition analyze_one (file_ext : string) (content_file : ContentFile)
    : list AnalyzedFile :=
  match decoded_content content_file with
  | None => []
  | Some file_content =>
      match lookup file_ext supported_extensions with
      | None => []
      | Some language =>
          match dispatch file_ext language file_content with
          | Raises _ => []
          | Returns analysis =>
              [ mkAnalyzed (name content_file) (path content_file) language
                  analysis (String.length file_content) ]
          end
      end
  end.

Definition analyzed_files (all_repo_contents : list ContentFile)
    : list AnalyzedFile :=
  match select_files all_repo_contents with
  | (files_to_analyze_detail, Some file_ext) =>
      flat_map (analyze_one file_ext) (firstn 20 files_to_analyze_detail)
  | (_, None) => []
  end.

(** [upload]: the analysis of the attachment, when the command gets that
    far. *)
Definition upload_analysis (filename : string) (size : N)
    (decoded : option string) : option Analysis :=
  if (1024 * 1024 <? size)%N then None
  else
    let file_ext := lower (splitext_ext filename) in
    match lookup file_ext supported_extensions, decoded with
    | Some language, Some content_str =>
        match dispatch file_ext language content_str with
        | Returns analysis => Some analysis
        | Raises _ => None
        end
    | _, _ => None
    end.

End Commands.

(** The structure report of [analyze_repo]. *)
Definition repo_structure (all_repo_contents : list ContentFile)
    : StructureReport :=
  let structure := analyze_structure all_repo_contents None in
  let fw := detect_framework all_repo_contents in
  if truthy fw
  then mkStructure fw (files structure) (directories structure)
         (issues structure) (recommendations structure)
  else structure.

(** *** Long responses: [ai_review] and [chat_with_ai] *)

Definition max_length : nat := 2000.

(** [s[i:j]] for [0 <= i <= j] *)
Definition slice (s : string) (i j : nat) : string := take (j - i) (drop i s).

(** [range(0, stop, step)] *)
Definition range0 (stop step : nat) : list nat :=
  map (fun k => k * step) (seq 0 ((stop + step - 1) / step)).

Definition chunks (size : nat) (response : string) : list string :=
  map (fun i => slice response i (i + size))
      (range0 (String.length response) size).

(** The descriptions of the embeds sent for one response, in order. *)
Definition embeds (response : string) : list string :=
  if max_length <? String.length response
  then chunks max_length response
  else [response].

Definition join (l : list string) : string :=
  fold_right String.append EmptyString l.

End Cogs.

(** ** The repository as the content provider shows it *)
Module Repo.
Import Text Structure Analyzers.

(** [c in chars] *)
Definition char_in (c : ascii) (chars : string) : bool :=
  str_in (String c EmptyString) chars.

Fixpoint lstrip_chars (s chars : string) : string :=
  match s with
  | String c s' => if char_in c chars then lstrip_chars s' chars else s
  | EmptyString => EmptyString
  end.

Fixpoint rstrip_chars (s chars : string) : string :=
  match s with
  | EmptyString => EmptyString
  | String c s' =>
      match rstrip_chars s' chars with
      | EmptyString =>
          if char_in c chars then EmptyString else String c EmptyString
      | r => String c r
      end
  end.

(** [s.strip(chars)] *)
Definition strip_chars (s chars : string) : string :=
  rstrip_chars (lstrip_chars s chars) chars.

(** The first lines of [analyze_repo], [ai_review], [structure] and
    [search]: [None] when the command answers that the URL is not valid,
    else [repo_path]. *)
Definition repo_path_of (repo_url : string) : option string :=
  if negb (str_in "github.com" repo_url) then None
  else Some (strip_chars
               (replace (replace repo_url "https://github.com/" "") ".git" "")
               "/").

(** An entry of a listing together with what
    [repo.get_contents(entry.path, ref=branch)] does for it; the commands
    ask for it only when the entry is a directory. *)
Inductive RepoItem : Type :=
| Item (content : ContentFile) (listing : outcome (list RepoItem)).

Definition item_content (it : RepoItem) : ContentFile :=
  match it with Item content _ => content end.

(** A repository on one branch: its name and what
    [repo.get_contents("", ref=branch)] does. *)
Record Repository : Type := mkRepo {
  repo_name : string;
  root_contents : outcome (list RepoItem)
}.

(** The first [return] of a loop whose turns are [turn]: [None] when the
    loop runs to its end. *)
Definition first_return {A : Type} (turn : A -> option string)
    : list A -> option string :=
  fix loop (l : list A) : option string :=
    match l with
    | [] => None
    | x :: l' =>
        match turn x with
        | Some p => Some p
        | None => loop l'
        end
    end.

(** One turn of the loop of [search_recursive] in [find_file_in_repo]:
    [Some p] when the turn returns [p], [None] when the loop goes on.  A
    result from a directory is returned only when it is a non-empty path
    ([if result:]). *)
Fixpoint search_turn (filename : string) (item : RepoItem) : option string :=
  match item with
  | Item content listing =>
      if String.eqb (type content) "file" && String.eqb (name content) filename
      then Some (path content)
      else if String.eqb (type content) "dir" then
        match listing with
        | Returns sub_contents =>
            match first_return (search_turn filename) sub_contents with
            | Some (String c p) => Some (String c p)
            | _ => None
            end
        | Raises _ => None
        end
      else None
  end.

Definition search_recursive (filename : string) (contents : list RepoItem)
    : option string :=
  first_return (search_turn filename) contents.

Definition find_file_in_repo (repo : Repository) (filename : string)
    : option string :=
  match root_contents repo with
  | Returns contents => search_recursive filename contents
  | Raises _ => None
  end.

(** One turn of [flatten_contents] in [analyze_repo]: what it appends to
    [all_repo_contents]. *)
Fixpoint flatten_turn (item : RepoItem) : list ContentFile :=
  match item with
  | Item content_item listing =>
      if String.eqb (type content_item) "dir" then
        match listing with
        | Returns sub_contents => flat_map flatten_turn sub_contents
        | Raises _ => []
        end
      else [content_item]
  end.

Definition flatten_contents (contents_list : list RepoItem) : list ContentFile :=
  flat_map flatten_turn contents_list.

(** The same in [structure], which also keeps each directory it could
    list. *)
Fixpoint flatten_turn_with_dirs (item : RepoItem) : list ContentFile :=
  match item with
  | Item content_item listing =>
      if String.eqb (type content_item) "dir" then
        match listing with
        | Returns sub_contents =>
            content_item :: flat_map flatten_turn_with_dirs sub_contents
        | Raises _ => []
        end
      else [content_item]
  end.

Definition flatten_with_dirs (contents_list : list RepoItem) : list ContentFile :=
  flat_map flatten_turn_with_dirs contents_list.

(** The listing [analyze_repo] works on, or the text of the exception that
    ends the command. *)
Definition repo_listing (repo : Repository) : outcome (list ContentFile) :=
  match root_contents repo with
  | Returns contents => Returns (flatten_contents contents)
  | Raises e => Raises e
  end.

(** The report and the framework the [structure] command shows. *)
Definition structure_command (repo : Repository)
    : outcome (StructureReport * option string) :=
  match root_contents repo with
  | Returns contents =>
      let all_repo_contents := flatten_with_dirs contents in
      Returns (analyze_structure all_repo_contents None,
               detect_framework all_repo_contents)
  | Raises e => Raises e
  end.

(** *** [check_repo_access] of [core/github_client.py] *)

(** [github_client] is [None] without a token; otherwise [get_repo] answers
    for a repository path. *)
Definition check_repo_access
    (github_client : option (string -> outcome Repository))
    (repo_path : string) : option Repository * option string :=
  match github_client with
  | None => (None, Some "GitHub client is not initialized. Check GITHUB_TOKEN.")
  | Some get_repo =>
      let attempt :=
        match get_repo repo_path with
        | Returns repo =>
            match root_contents repo with
            | Returns _ => Returns repo
            | Raises e => Raises e
            end
        | Raises e => Raises e
        end in
      match attempt with
      | Returns repo => (Some repo, None)
      | Raises error_msg =>
          if str_in "404" error_msg
          then (None, Some "Repository not found or access denied.")
          else if str_in "401" error_msg
          then (None, Some "Authentication failed. Check your GitHub token.")
          else (None, Some ("Error accessing repository: " +++ error_msg))
      end
  end.

End Repo.

(** ** Notions in which further properties are stated *)
Module Notions.
Import Text Re Ast Repo.

(** Every character of [s] is in the class [p]. *)
Fixpoint all_chars (p : ascii -> bool) (s : string) : bool :=
  match s with
  | EmptyString => true
  | String c s' => p c && all_chars p s'
  end.

(** A non-empty run of [\w] characters. *)
Definition word_run (s : string) : Prop :=
  s <> EmptyString /\ all_chars is_word s = true.

(** The texts a pattern can take, whatever surrounds them. *)
Fixpoint denotes (r : regex) (s : string) : Prop :=
  match r with
  | Eps | WordB | NotAhead _ => s = EmptyString
  | Chr p => exists c, s = String c EmptyString /\ p c = true
  | Cat r1 r2 => exists s1 s2, s = s1 +++ s2 /\ denotes r1 s1 /\ denotes r2 s2
  | Alt r1 r2 => denotes r1 s \/ denotes r2 s
  | Opt r1 => s = EmptyString \/ denotes r1 s
  | Star p | LazyStar p => all_chars p s = true
  | Group _ r1 => denotes r1 s
  end.

(** The texts group [n] of a pattern can hold. *)
Fixpoint may_capture (n : nat) (r : regex) (v : string) : Prop :=
  match r with
  | Cat r1 r2 | Alt r1 r2 => may_capture n r1 v \/ may_capture n r2 v
  | Opt r1 => may_capture n r1 v
  | Group m r1 => (m = n /\ denotes r1 v) \/ may_capture n r1 v
  | _ => False
  end.

(** A node and everything below it. *)
Fixpoint subnodes (n : node) : list node :=
  n :: match n with
       | Import _ | ImportFrom _ _ | Name _ _ => []
       | FunctionDef _ cs | ClassDef _ cs | Other cs => flat_map subnodes cs
       | Call f args => subnodes f ++ flat_map subnodes args
       end.

(** All the nodes of a module body. *)
Definition tree_nodes (body : list node) : list node := flat_map subnodes body.

(** The entries a traversal can get to: those of the listing, and those of
    every directory that lets itself be listed. *)
Inductive reachable : list RepoItem -> ContentFile -> Prop :=
| reach_here (items : list RepoItem) (c : ContentFile)
    (listing : outcome (list RepoItem)) :
    In (Item c listing) items -> reachable items c
| reach_below (items sub : list RepoItem) (d c : ContentFile) :
    In (Item d (Returns sub)) items -> type d = "dir" ->
    reachable sub c -> reachable items c.

Definition is_not (a c : ascii) : bool := negb (Ascii.eqb c a).

(** A character of a name that holds no dot, slash or colon. *)
Definition plain_name_char (c : ascii) : bool :=
  negb (Ascii.eqb c ".") && negb (Ascii.eqb c "/") && negb (Ascii.eqb c ":").

(** The character before the position reached by reading [pre], when [pv]
    was the character before [pre]. *)
Fixpoint char_before (pre : string) (pv : option ascii) : option ascii :=
  match pre with
  | EmptyString => pv
  | String c pre' => char_before pre' (Some c)
  end.

(** An import statement of the usual form, [import a.b.Name;]: a dotted
    prefix without blank or semicolon, then a name, then the semicolon. *)
Definition ordinary_import (statement : string) : Prop :=
  exists prefix seg,
    statement = "import " +++ prefix +++ seg +++ ";"
    /\ word_run seg
    /\ all_chars (fun c => is_not " " c && is_not ";" c) prefix = true
    /\ (prefix = EmptyString \/ exists before, prefix = before +++ ".").

(** The extension [analyze_repo] computes for an entry. *)
Definition ext_of (content_file : ContentFile) : string :=
  lower (Cogs.splitext_ext (name content_file)).

(** The same entries as a list, in the order a traversal meets them. *)
Fixpoint entries_below (item : RepoItem) : list ContentFile :=
  match item with
  | Item d listing =>
      d :: (if String.eqb (type d) "dir" then
              match listing with
              | Returns sub => flat_map entries_below sub
              | Raises _ => []
              end
            else [])
  end.

(** An entry of type [file] with the name asked for. *)
Definition named_file (filename : string) (c : ContentFile) : bool :=
  String.eqb (type c) "file" && String.eqb (name c) filename.

(** A name of the form [[a-zA-Z_][a-zA-Z0-9_]*]. *)
Definition identifier (s : string) : Prop :=
  exists c body,
    s = String c body /\ letter_ c = true /\ all_chars alnum_ body = true.

(** [name] stands in [content] with no word character right before it and
    none right after it. *)
Definition stands_as_word (name content : string) : Prop :=
  exists pre post,
    content = pre +++ name +++ post
    /\ match char_before pre None with
       | Some c => is_word c = false
       | None => True
       end
    /\ match post with
       | String c _ => is_word c = false
       | EmptyString => True
       end.

End Notions.

(** ** Predicates in which the properties are stated *)
Module Readings.
Import Text Re Structure Analyzers.

(** What makes the loop return at an entry of the table. *)
Definition qualifies (paths : list string) (entry : string * list string) : Prop :=
  2 <= count_matches paths (snd entry)
  /\ (fst entry = "Angular" -> mem "angular.json" paths = true).

(** Some entry of type [file] has the path [angular.json], letter case
    ignored: what it takes for ['angular.json' in all_paths] to hold. *)
Definition has_angular_json (repo_contents : list ContentFile) : Prop :=
  exists content,
    In content repo_contents /\ type content = "file"
    /\ lower (path content) = "angular.json".

(** A fragment of the language's grammar, [factor: '-' factor | NUMBER]:
    the number [1] with any number of minus signs before it. *)
Inductive signed_one : string -> Prop :=
| plain_one : signed_one "1"
| minus_one (s : string) : signed_one s -> signed_one (String "-" s).

(** The nine collection keys of a finding of the Python analyzer. *)
Definition collection_keys : list string :=
  [ "imports"; "functions"; "classes"; "variables"; "unused_imports";
    "unused_functions"; "unused_variables"; "potential_issues"; "suggestions" ].



End Readings.

(** ** Sample inputs *)
Module Samples.
Import Text Re Ast.

Definition NL : string := String nl EmptyString.

(** A file entry of a listing, named by its path. *)
Definition file_at (p : string) : ContentFile :=
  mkContent p "file" (basename p) None.

(** Two Angular patterns and two Nest.js patterns match, without
    [angular.json]. *)
Definition angular_without_json : list ContentFile :=
  [ file_at "src/main.ts"; file_at "src/app/app.module.ts";
    file_at "nest-cli.json" ].

Definition angular_with_json : list ContentFile :=
  [ file_at "angular.json"; file_at "src/main.ts"; file_at "src/app.module.ts" ].

(** The listing of the design document's example. *)
Definition module_and_main : list ContentFile :=
  [ file_at "src/app.module.ts"; file_at "src/main.ts" ].

Definition react_listing : list ContentFile :=
  [ file_at "package.json"; file_at "src/App.js"; file_at "README.md" ].

(** ["def foo():\n    pass\n"] *)
Definition foo_source : string :=
  "def foo():" +++ NL +++ "    pass" +++ NL.

(** The body of the [Module] that [ast.parse] returns for it: one
    [FunctionDef] whose children are its [arguments] node and [Pass]. *)
Definition foo_tree : list node :=
  [ FunctionDef "foo" [ Other []; Other [] ] ].

(** A stand-in for the parser that knows this one text. *)
Definition sample_parse (content : string) : outcome (list node) :=
  if String.eqb content foo_source then Returns foo_tree
  else Raises "invalid syntax (<unknown>, line 1)".

(** One wildcard import. *)
Definition wildcard_import : string := "import java.util.*;".


(** [foo] is called on a line of its own inside [bar]. *)
Definition call_on_plain_line : string :=
  "public void foo() {" +++ NL +++ "}" +++ NL
  +++ "public void bar() {" +++ NL +++ "    foo();" +++ NL +++ "}".

(** [foo] is called after a brace on a line inside [bar]. *)
Definition call_after_brace : string :=
  "public void foo() {" +++ NL +++ "}" +++ NL
  +++ "public void bar() {" +++ NL +++ "    if (ready) { foo(); }" +++ NL
  +++ "}".

Definition typed_any : string := "let x: any = 1;".


(** The same two paths twice: [artisan] once as a file, once as a
    directory. *)
Definition artisan_file : list ContentFile :=
  [ file_at "composer.json"; file_at "artisan" ].

Definition artisan_directory : list ContentFile :=
  [ file_at "composer.json"; mkContent "artisan" "dir" "artisan" None ].

Fixpoint minus_signs (n : nat) (s : string) : string :=
  match n with
  | O => s
  | S n' => String "-" (minus_signs n' s)
  end.

(** ['-' * 10000 + '1']: an expression of the grammar, nested too deep for
    the parser. *)
Definition deeply_nested : string := minus_signs (100 * 100) "1".

(** A stand-in for the parser that also knows this text: on it [ast.parse]
    raises [MemoryError], whose text is empty. *)
Definition deep_parse (content : string) : outcome (list node) :=
  if String.eqb content deeply_nested then Raises EmptyString
  else sample_parse content.

Definition ts_file : ContentFile :=
  mkContent "src/app.ts" "file" "app.ts" (Some typed_any).

End Samples.

(** ** Sample repositories *)
Module RepoSamples.
Import Text Repo.

Definition file_named (p n : string) : RepoItem :=
  Item (mkContent p "file" n None) (Raises "not a directory").

Definition dir_named (p n : string) (listing : outcome (list RepoItem))
    : RepoItem :=
  Item (mkContent p "dir" n None) listing.

(** A README, a [src] directory with a file and a directory that cannot be
    listed, and a [docs] directory with a file of the same name. *)
Definition small_tree : list RepoItem :=
  [ file_named "README.md" "README.md";
    dir_named "src" "src"
      (Returns [ file_named "src/main.py" "main.py";
                 dir_named "src/private" "private" (Raises "403 Forbidden") ]);
    dir_named "docs" "docs" (Returns [ file_named "docs/main.py" "main.py" ]) ].

Definition small_repo : Repository := mkRepo "small" (Returns small_tree).

(** A listing whose last file is a TypeScript file, after a Python file. *)
Definition py_then_ts : list ContentFile :=
  [ mkContent "tool.py" "file" "tool.py" (Some Samples.foo_source);
    Samples.ts_file ].

(** The entry [analyze_repo] makes for the Python file of that listing. *)
Definition py_entry_of_py_then_ts : Cogs.AnalyzedFile :=
  Cogs.mkAnalyzed "tool.py" "tool.py" "typescript"
    (Analyzers.analyze_javascript_file Samples.foo_source "javascript")
    (String.length Samples.foo_source).

End RepoSamples.

(** ** A sample module *)
Module TreeSamples.
Import Text Ast Samples.

(** Two imports, a relative import, a function with a nested function that
    uses one import, and a class with a method. *)
Definition module_text : string :=
  "import os" +++ NL +++ "import sys as system" +++ NL
  +++ "from . import sibling" +++ NL
  +++ "def main():" +++ NL
  +++ "    def helper():" +++ NL
  +++ "        return os.getcwd()" +++ NL
  +++ "    return helper" +++ NL
  +++ "class Tool:" +++ NL
  +++ "    def run(self):" +++ NL
  +++ "        pass" +++ NL.

Definition module_tree : list node :=
  [ Import [ mkAlias "os" None ];
    Import [ mkAlias "sys" (Some "system") ];
    ImportFrom None [ mkAlias "sibling" None ];
    FunctionDef "main"
      [ Other [];
        FunctionDef "helper"
          [ Other []; Other [ Call (Other [ Name "os" Load ]) [] ] ];
        Other [ Name "helper" Load ] ];
    ClassDef "Tool" [ FunctionDef "run" [ Other [ Other [] ]; Other [] ] ] ].

Definition module_parse (content : string) : outcome (list node) :=
  if String.eqb content module_text then Returns module_tree
  else Raises "invalid syntax (<unknown>, line 1)".

End TreeSamples.

(** ** More sample texts *)
Module MoreSamples.
Import Text Re Samples.

(** A function that is declared and never called. *)
Definition lone_declaration : string := "function foo() {}".

(** The match object of its declaration. *)
Definition lone_declaration_match : Match :=
  mkMatch "function foo(" [(1, "foo")].

(** Two ordinary imports that the class does not use. *)
Definition plain_imports : string :=
  "import java.util.List;" +++ NL +++ "  import static java.lang.Math.PI;"
  +++ NL +++ "public class Empty {" +++ NL +++ "}".

(** An indented ordinary import whose name the class never uses. *)
Definition ordinary_imports : string :=
  "  import java.util.List;" +++ NL +++ "public class Empty {" +++ NL +++ "}".

(** A constant that nothing reads. *)
Definition declared_constant : string := "const total = 1;".

End MoreSamples.

(** * Properties *)

(** ** Strings, membership and sets *)
Section TextFacts.
Import Text.

Lemma append_assoc (a b c : string) : (a +++ b) +++ c = a +++ b +++ c.
Proof. induction a as [|x a IH]; simpl; [reflexivity | now rewrite IH]. Qed.

Lemma append_empty_r (a : string) : a +++ EmptyString = a.
Proof. induction a as [|x a IH]; simpl; [reflexivity | now rewrite IH]. Qed.

Lemma startswith_spec (s p : string) :
  startswith s p = true <-> exists post, s = p +++ post.
Proof.
  revert s; induction p as [|a p IH]; intros s; simpl.
  - split; [intros _; now exists s | reflexivity].
  - destruct s as [|b s].
    + split; [discriminate | intros [post H]; discriminate].
    + rewrite andb_true_iff, Ascii.eqb_eq, IH. split.
      * intros [-> [post ->]]. now exists post.
      * intros [post H]. injection H as -> ->. split; [reflexivity | now exists post].
Qed.

Lemma str_in_spec (sub s : string) :
  str_in sub s = true <-> exists pre post, s = pre +++ sub +++ post.
Proof.
  induction s as [|c s IH]; simpl.
  - rewrite orb_false_r, startswith_spec. split.
    + intros [post H]. now exists EmptyString, post.
    + intros [pre [post H]]. destruct pre; [now exists post | discriminate].
  - rewrite orb_true_iff, startswith_spec, IH. split.
    + intros [[post H] | [pre [post H]]].
      * now exists EmptyString, post.
      * exists (String c pre), post. simpl. now rewrite H.
    + intros [pre [post H]]. destruct pre as [|c' pre]; simpl in H.
      * left. now exists post.
      * right. injection H as _ H. now exists pre, post.
Qed.

(** A part of a part is a part. *)
Lemma str_in_trans (a b s : string) :
  str_in a b = true -> str_in b s = true -> str_in a s = true.
Proof.
  rewrite !str_in_spec. intros [p1 [q1 ->]] [p2 [q2 ->]].
  exists (p2 +++ p1), (q1 +++ q2). now rewrite !append_assoc.
Qed.

Lemma str_in_middle (a b c : string) : str_in b (a +++ b +++ c) = true.
Proof. apply str_in_spec. now exists a, c. Qed.

Lemma str_in_suffix (a b : string) : str_in b (a +++ b) = true.
Proof. apply str_in_spec. exists a, EmptyString. now rewrite append_empty_r. Qed.

Lemma mem_In (x : string) (l : list string) : mem x l = true <-> In x l.
Proof.
  unfold mem. rewrite existsb_exists. split.
  - intros [y [Hy E]]. apply String.eqb_eq in E. now subst.
  - intros H. exists x. split; [assumption | apply String.eqb_refl].
Qed.

Lemma mem_false (x : string) (l : list string) : mem x l = false <-> ~ In x l.
Proof.
  rewrite <- mem_In. destruct (mem x l); split; congruence.
Qed.

Lemma dedup_In (x : string) (l : list string) : In x (dedup l) <-> In x l.
Proof.
  induction l as [|y l IH]; simpl; [tauto |].
  destruct (mem y l) eqn:E.
  - rewrite IH. split; [tauto |]. intros [-> | H]; [now apply mem_In | assumption].
  - simpl. now rewrite IH.
Qed.

Lemma existsb_same_elements {A : Type} (f : A -> bool) (l l' : list A) :
  (forall x, In x l <-> In x l') -> existsb f l = existsb f l'.
Proof.
  intros H. apply eq_true_iff_eq. rewrite !existsb_exists.
  split; intros [x [Hx Hf]]; exists x; split; try assumption; now apply H.
Qed.

Lemma take_all (n : nat) (s : string) : String.length s <= n -> take n s = s.
Proof.
  revert n; induction s as [|c s IH]; intros n H.
  - now destruct n.
  - destruct n as [|n]; simpl in *; [lia |]. f_equal. apply IH. lia.
Qed.

Lemma take_add (a b : nat) (s : string) :
  take (a + b) s = take a s +++ take b (drop a s).
Proof.
  revert s; induction a as [|a IH]; intros s; simpl.
  - now destruct b, s.
  - destruct s as [|c s]; simpl.
    + now destruct b.
    + now rewrite IH.
Qed.

End TextFacts.

(** ** The matcher *)
Section MatcherFacts.
Import Text Re.

Lemma star_hands_over (p : ascii -> bool) (k : mstate -> option mstate)
    (cs : list (nat * string)) (s : string) :
  forall pv st',
    star p k cs pv s = Some st' ->
    exists pv1 s1 consumed,
      k (mkState pv1 s1 cs) = Some st' /\ s = consumed +++ s1.
Proof.
  induction s as [|c s IH]; intros pv st' H; cbn [star] in H.
  - now exists pv, EmptyString, EmptyString.
  - destruct (p c).
    + destruct (star p k cs (Some c) s) as [st2 |] eqn:E.
      * injection H as ->. destruct (IH _ _ E) as [pv1 [s1 [consumed [Hk ->]]]].
        now exists pv1, s1, (String c consumed).
      * now exists pv, (String c s), EmptyString.
    + now exists pv, (String c s), EmptyString.
Qed.

Lemma lazy_star_hands_over (p : ascii -> bool) (k : mstate -> option mstate)
    (cs : list (nat * string)) (s : string) :
  forall pv st',
    lazy_star p k cs pv s = Some st' ->
    exists pv1 s1 consumed,
      k (mkState pv1 s1 cs) = Some st' /\ s = consumed +++ s1.
Proof.
  induction s as [|c s IH]; intros pv st' H; cbn [lazy_star] in H.
  - destruct (k (mkState pv EmptyString cs)) as [st2 |] eqn:E; [| discriminate].
    injection H as ->. now exists pv, EmptyString, EmptyString.
  - destruct (k (mkState pv (String c s) cs)) as [st2 |] eqn:E.
    + injection H as ->. now exists pv, (String c s), EmptyString.
    + destruct (p c); [| discriminate].
      destruct (IH _ _ H) as [pv1 [s1 [consumed [Hk ->]]]].
      now exists pv1, s1, (String c consumed).
Qed.

Lemma reaches_refl (r : regex) (st : mstate) :
  min_len r = 0 -> (forall n, always_sets n r = false) -> reaches r st st.
Proof.
  intros Hm Ha. split.
  - exists EmptyString. split; [reflexivity | rewrite Hm; apply Nat.le_0_l].
  - intros n [H | H]; [assumption | rewrite Ha in H; discriminate].
Qed.

Lemma append_length (a b : string) :
  String.length (a +++ b) = String.length a + String.length b.
Proof. induction a as [|c a IH]; simpl; [reflexivity | now rewrite IH]. Qed.

(** Whatever a match returns, its continuation returned, from a state the
    match reaches. *)
Lemma run_hands_over (r : regex) :
  forall k st st',
    run r k st = Some st' ->
    exists st1, k st1 = Some st' /\ reaches r st st1.
Proof.
  induction r as [| p | r1 IH1 r2 IH2 | r1 IH1 r2 IH2 | r1 IH1 | p | p
                  | n r1 IH1 | | r1 IH1];
    intros k st st' H; cbn [run] in H.
  - exists st. split; [assumption | now apply reaches_refl].
  - destruct st as [pv s cs]; cbn [rest caps] in H.
    destruct s as [|c s]; [discriminate |].
    destruct (p c); [| discriminate].
    eexists. split; [exact H |]. split.
    + exists (String c EmptyString). split; [reflexivity | cbn; lia].
    + intros n [Hn | Hn]; [assumption | discriminate].
  - destruct (IH1 _ _ _ H) as [st1 [H1 [[c1 [E1 L1]] G1]]].
    destruct (IH2 _ _ _ H1) as [st2 [H2 [[c2 [E2 L2]] G2]]].
    exists st2. split; [assumption |]. split.
    + exists (c1 +++ c2). rewrite append_assoc, <- E2, <- E1.
      split; [reflexivity |]. rewrite append_length. cbn [min_len]. lia.
    + intros n [Hn | Hn].
      * apply G2. left. apply G1. now left.
      * cbn [always_sets] in Hn. apply orb_true_iff in Hn.
        destruct Hn as [Hn | Hn]; apply G2; [left; apply G1 |]; now right.
  - destruct (run r1 k st) as [st2 |] eqn:E.
    + injection H as ->. destruct (IH1 _ _ _ E) as [st1 [H1 [[c1 [E1 L1]] G1]]].
      exists st1. split; [assumption |]. split.
      * exists c1. split; [assumption | cbn [min_len]; lia].
      * intros n [Hn | Hn]; apply G1; [now left | right].
        cbn [always_sets] in Hn. now apply andb_true_iff in Hn.
    + destruct (IH2 _ _ _ H) as [st1 [H1 [[c1 [E1 L1]] G1]]].
      exists st1. split; [assumption |]. split.
      * exists c1. split; [assumption | cbn [min_len]; lia].
      * intros n [Hn | Hn]; apply G1; [now left | right].
        cbn [always_sets] in Hn. now apply andb_true_iff in Hn.
  - destruct (run r1 k st) as [st2 |] eqn:E.
    + injection H as ->. destruct (IH1 _ _ _ E) as [st1 [H1 [[c1 [E1 L1]] G1]]].
      exists st1. split; [assumption |]. split.
      * exists c1. split; [assumption | cbn [min_len]; lia].
      * intros n [Hn | Hn]; [apply G1; now left | discriminate].
    + exists st. split; [assumption | now apply reaches_refl].
  - destruct (star_hands_over _ _ _ _ _ _ H) as [pv1 [s1 [c1 [Hk E]]]].
    eexists. split; [exact Hk |]. split.
    + exists c1. split; [exact E | cbn; lia].
    + intros n [Hn | Hn]; [assumption | discriminate].
  - destruct (lazy_star_hands_over _ _ _ _ _ _ H) as [pv1 [s1 [c1 [Hk E]]]].
    eexists. split; [exact Hk |]. split.
    + exists c1. split; [exact E | cbn; lia].
    + intros n [Hn | Hn]; [assumption | discriminate].
  - destruct (IH1 _ _ _ H) as [st1 [H1 [[c1 [E1 L1]] G1]]].
    eexists. split; [exact H1 |]. split.
    + exists c1. split; [exact E1 | exact L1].
    + intros m Hm. unfold has_group. cbn [caps assoc].
      destruct (m =? n) eqn:Em; [discriminate |].
      apply G1. destruct Hm as [Hm | Hm]; [now left | right].
      cbn [always_sets] in Hm. now rewrite Em in Hm.
  - destruct (xorb (word_before st) (word_after st)); [| discriminate].
    exists st. split; [assumption | now apply reaches_refl].
  - destruct (run r1 Some st); [discriminate |].
    exists st. split; [assumption | now apply reaches_refl].
Qed.

Lemma take_prefix (a b : string) :
  take (String.length (a +++ b) - String.length b) (a +++ b) = a.
Proof.
  rewrite append_length. replace (String.length a + String.length b
                                  - String.length b) with (String.length a) by lia.
  induction a as [|c a IH]; cbn; [now destruct b | now rewrite IH].
Qed.

(** A match object holds a prefix of the text it was tried on, at least
    [min_len r] characters long, and a value for every group that [r]
    always sets. *)
Lemma match_at_spec (r : regex) (pv : option ascii) (s : string) (m : Match) :
  match_at r pv s = Some m ->
  (exists post, s = whole m +++ post)
  /\ min_len r <= String.length (whole m)
  /\ forall n, always_sets n r = true -> exists v, assoc n (groups m) = Some v.
Proof.
  unfold match_at. destruct (run r Some (mkState pv s [])) as [st |] eqn:E;
    [| discriminate].
  intros H. injection H as <-. cbn [whole groups].
  destruct (run_hands_over _ _ _ _ E) as [st1 [H1 [[c1 [E1 L1]] G1]]].
  injection H1 as ->. cbn [rest] in E1. rewrite E1, take_prefix.
  split; [now exists (rest st) |]. split; [assumption |].
  intros n Hn. specialize (G1 n (or_intror Hn)). unfold has_group in G1.
  destruct (assoc n (caps st)) as [v |]; [now exists v | contradiction].
Qed.

Lemma scan_matches (r : regex) (s : string) :
  forall skip pv m,
    In m (scan r skip pv s) -> exists pv' s', match_at r pv' s' = Some m.
Proof.
  induction s as [|c s IH]; intros skip pv m H; cbn [scan] in H.
  - destruct skip; [| contradiction].
    destruct (match_at r pv EmptyString) as [m' |] eqn:E; [| contradiction].
    destruct H as [<- | []]. now exists pv, EmptyString.
  - destruct skip as [|skip]; [| now apply IH in H].
    destruct (match_at r pv (String c s)) as [m' |] eqn:E; [| now apply IH in H].
    destruct H as [<- | H]; [now exists pv, (String c s) | now apply IH in H].
Qed.

Lemma search_matches (r : regex) (s : string) (m : Match) :
  search r s = Some m -> exists pv' s', match_at r pv' s' = Some m.
Proof.
  unfold search. generalize (@None ascii).
  induction s as [|c s IH]; intros pv H; cbn [search_from] in H.
  - destruct (match_at r pv EmptyString) as [m' |] eqn:E; [| discriminate].
    injection H as <-. now exists pv, EmptyString.
  - destruct (match_at r pv (String c s)) as [m' |] eqn:E.
    + injection H as <-. now exists pv, (String c s).
    + now apply IH in H.
Qed.

(** Where the analyzers read a group, the pattern always sets it, so
    [group] never falls back on its default. *)
Lemma read_groups_are_set :
  always_sets 4 Analyzers.java_class_re = true
  /\ always_sets 3 Analyzers.java_method_re = true
  /\ forallb (always_sets 1) Analyzers.function_patterns = true
  /\ forallb (always_sets 1) Analyzers.var_patterns = true
  /\ always_sets 1 Analyzers.word_re = true.
Proof. repeat split. Qed.

(** Every pattern handed to [finditer] takes at least one character. *)
Lemma scanned_patterns_consume :
  forallb (fun r => 1 <=? min_len r)
    (Analyzers.function_patterns ++ Analyzers.var_patterns
     ++ [Analyzers.word_re; Analyzers.identifier_re]) = true.
Proof. reflexivity. Qed.

End MatcherFacts.

(** ** Framework detection and the structure report *)
Section StructureFacts.
Import Text Structure Readings.

Lemma detect_loop_cons (paths : list string) (f : string) (pats : list string)
    (rest : list (string * list string)) :
  detect_loop paths ((f, pats) :: rest)
  = if 2 <=? count_matches paths pats then
      if String.eqb f "Angular" && negb (mem "angular.json" paths)
      then detect_loop paths rest
      else Some f
    else detect_loop paths rest.
Proof. reflexivity. Qed.

Lemma detect_loop_skip (paths : list string) (entry : string * list string)
    (rest : list (string * list string)) :
  ~ qualifies paths entry ->
  detect_loop paths (entry :: rest) = detect_loop paths rest.
Proof.
  destruct entry as [f pats]. unfold qualifies. cbn [fst snd]. intros H.
  rewrite detect_loop_cons.
  destruct (2 <=? count_matches paths pats) eqn:E; [| reflexivity].
  apply Nat.leb_le in E.
  destruct (String.eqb f "Angular") eqn:Ef; simpl.
  - destruct (mem "angular.json" paths) eqn:Em; simpl; [| reflexivity].
    exfalso. apply H. split; [assumption | reflexivity].
  - exfalso. apply H. split; [assumption |].
    intros ->. now rewrite String.eqb_refl in Ef.
Qed.

Lemma detect_loop_stop (paths : list string) (entry : string * list string)
    (rest : list (string * list string)) :
  qualifies paths entry ->
  detect_loop paths (entry :: rest) = Some (fst entry).
Proof.
  destruct entry as [f pats]. unfold qualifies. cbn [fst snd]. intros [H1 H2].
  rewrite detect_loop_cons.
  apply Nat.leb_le in H1. rewrite H1.
  destruct (String.eqb f "Angular") eqn:Ef; simpl; [| reflexivity].
  apply String.eqb_eq in Ef. now rewrite (H2 Ef).
Qed.

(** The loop returns the first entry that qualifies. *)
Lemma detect_loop_first (paths : list string)
    (before after : list (string * list string)) (entry : string * list string) :
  (forall e, In e before -> ~ qualifies paths e) ->
  qualifies paths entry ->
  detect_loop paths (before ++ entry :: after) = Some (fst entry).
Proof.
  induction before as [|e before IH]; intros Hb Hq; simpl app.
  - now apply detect_loop_stop.
  - rewrite detect_loop_skip by (apply Hb; now left).
    apply IH; [| assumption]. intros e' He'. apply Hb. now right.
Qed.

(** Whatever the loop returns qualified. *)
Lemma detect_loop_sound (paths : list string) (table : list (string * list string))
    (f : string) :
  detect_loop paths table = Some f ->
  exists pats, In (f, pats) table /\ qualifies paths (f, pats).
Proof.
  induction table as [|[g pats] table IH]; [discriminate |].
  rewrite detect_loop_cons.
  destruct (2 <=? count_matches paths pats) eqn:E.
  - destruct (String.eqb g "Angular" && negb (mem "angular.json" paths)) eqn:Eg.
    + intros H. destruct (IH H) as [q [Hin Hq]]. exists q. split; [now right | assumption].
    + intros H. injection H as ->. exists pats. split; [now left |].
      split; [now apply Nat.leb_le |]. cbn [fst]. intros ->.
      rewrite String.eqb_refl in Eg. simpl in Eg.
      now apply negb_false_iff in Eg.
  - intros H. destruct (IH H) as [q [Hin Hq]]. exists q. split; [now right | assumption].
Qed.

(** Without [angular.json] in the path set, the loop behaves as if the
    table had no Angular entry. *)
Lemma detect_loop_without_angular (paths : list string)
    (table : list (string * list string)) :
  mem "angular.json" paths = false ->
  detect_loop paths table
  = detect_loop paths
      (filter (fun entry => negb (String.eqb (fst entry) "Angular")) table).
Proof.
  intros Hm. induction table as [|[g pats] table IH]; [reflexivity |].
  cbn [filter fst]. destruct (String.eqb g "Angular") eqn:Eg; cbn [negb].
  - rewrite <- IH. apply detect_loop_skip. intros [_ H].
    cbn [fst] in H. apply String.eqb_eq in Eg. rewrite (H Eg) in Hm. discriminate.
  - rewrite !detect_loop_cons, Eg, IH. reflexivity.
Qed.

Lemma count_matches_same_paths (paths paths' : list string) (patterns : list string) :
  (forall p, In p paths <-> In p paths') ->
  count_matches paths patterns = count_matches paths' patterns.
Proof.
  intros H. unfold count_matches.
  set (step paths := fun (matches : nat) (pattern : string) =>
         if pattern_matches paths pattern then matches + 1 else matches).
  enough (G : forall n, fold_left (step paths) patterns n
                        = fold_left (step paths') patterns n) by apply G.
  induction patterns as [|pat patterns IH]; intros n; cbn [fold_left];
    [reflexivity |].
  unfold step at 2 4.
  assert (E : pattern_matches paths pat = pattern_matches paths' pat)
    by (apply existsb_same_elements, H).
  rewrite E. apply IH.
Qed.

(** The answer depends on the set of paths only. *)
Lemma detect_loop_same_paths (paths paths' : list string)
    (table : list (string * list string)) :
  (forall p, In p paths <-> In p paths') ->
  detect_loop paths table = detect_loop paths' table.
Proof.
  intros H. induction table as [|[g pats] table IH]; [reflexivity |].
  rewrite !detect_loop_cons.
  rewrite (count_matches_same_paths paths paths' pats H), IH.
  unfold mem. now rewrite (existsb_same_elements _ paths paths' H).
Qed.

Lemma detect_loop_none (paths : list string) (table : list (string * list string)) :
  detect_loop paths table = None
  <-> forall entry, In entry table -> ~ qualifies paths entry.
Proof.
  induction table as [|[g pats] table IH].
  - split; [intros _ entry [] | reflexivity].
  - split.
    + intros H entry [<- | Hin] Hq.
      * rewrite (detect_loop_stop _ _ _ Hq) in H. discriminate.
      * revert Hq. apply (proj1 IH); [| assumption].
        destruct (detect_loop paths table) eqn:E; [| reflexivity].
        exfalso. destruct (detect_loop_sound _ _ _ E) as [q [Hq1 Hq2]].
        rewrite detect_loop_cons in H.
        destruct (2 <=? count_matches paths pats);
          [destruct (String.eqb g "Angular" && negb (mem "angular.json" paths)) |];
          congruence.
    + intros H. rewrite detect_loop_skip by (apply H; now left).
      apply IH. intros entry Hin. apply H. now right.
Qed.

(** The loop returns [f] exactly when [f] is the first entry of the table
    that qualifies. *)
Lemma detect_loop_first_iff (paths : list string)
    (table : list (string * list string)) (f : string) :
  detect_loop paths table = Some f
  <-> exists i pats,
        nth_error table i = Some (f, pats)
        /\ qualifies paths (f, pats)
        /\ forall k entry, k < i -> nth_error table k = Some entry ->
                           ~ qualifies paths entry.
Proof.
  split.
  - induction table as [|[g pats] table IH]; [discriminate |].
    rewrite detect_loop_cons.
    assert (Skip : detect_loop paths table = Some f ->
                   ~ qualifies paths (g, pats) ->
                   exists i pats0,
                     nth_error ((g, pats) :: table) i = Some (f, pats0)
                     /\ qualifies paths (f, pats0)
                     /\ forall k entry, k < i ->
                          nth_error ((g, pats) :: table) k = Some entry ->
                          ~ qualifies paths entry).
    { intros H Hn. destruct (IH H) as [i [pats0 [Hi [Hq Hb]]]].
      exists (S i), pats0. split; [exact Hi |]. split; [exact Hq |].
      intros [|k] entry Hk Hnth; cbn [nth_error] in Hnth.
      - injection Hnth as <-. exact Hn.
      - apply (Hb k); [lia | exact Hnth]. }
    destruct (2 <=? count_matches paths pats) eqn:E.
    + destruct (String.eqb g "Angular" && negb (mem "angular.json" paths)) eqn:Eg.
      * intros H. apply (Skip H). intros [_ Hj]. cbn [fst] in Hj.
        apply andb_true_iff in Eg. destruct Eg as [Eg Em].
        apply String.eqb_eq in Eg. rewrite (Hj Eg) in Em. discriminate.
      * intros H. injection H as ->. exists 0, pats.
        split; [reflexivity |]. split; [| intros k entry Hk; lia].
        split; [now apply Nat.leb_le |]. cbn [fst]. intros ->.
        rewrite String.eqb_refl in Eg. cbn [andb] in Eg.
        now apply negb_false_iff in Eg.
    + intros H. apply (Skip H). intros [Hc _]. cbn [snd] in Hc.
      apply Nat.leb_gt in E. lia.
  - intros [i [pats [Hi [Hq Hb]]]].
    destruct (nth_error_split _ _ Hi) as [before [after [-> Hlen]]].
    apply (detect_loop_first _ before after (f, pats)); [| exact Hq].
    intros e Hin. destruct (In_nth_error _ _ Hin) as [k Hk].
    assert (Hkl : k < i).
    { rewrite <- Hlen. apply nth_error_Some. rewrite Hk. discriminate. }
    apply (Hb k e Hkl). now rewrite nth_error_app1 by (rewrite Hlen; exact Hkl).
Qed.

Lemma char_before_last (a : string) (c : ascii) (pv : option ascii) :
  Notions.char_before (a +++ String c EmptyString) pv = Some c.
Proof.
  revert pv. induction a as [|x a IH]; intros pv; [reflexivity | apply IH].
Qed.

(** ['angular.json' in all_paths] holds exactly when the listing has a file
    of that path, letter case ignored: the path of an entry that is not a
    file gets a slash at its end. *)
Lemma angular_json_in_paths (repo_contents : list ContentFile) :
  mem "angular.json" (all_paths repo_contents) = true
  <-> has_angular_json repo_contents.
Proof.
  rewrite mem_In. unfold all_paths, has_angular_json. rewrite in_map_iff.
  split.
  - intros [content [E Hin]]. exists content. split; [exact Hin |].
    destruct (String.eqb (type content) "file") eqn:Et.
    + apply String.eqb_eq in Et. now split.
    + exfalso.
      apply (f_equal (fun x => Notions.char_before x None)) in E.
      rewrite char_before_last in E. discriminate E.
  - intros [content [Hin [Et E]]]. exists content. split; [| exact Hin].
    rewrite Et. cbn [String.eqb Ascii.eqb Bool.eqb]. exact E.
Qed.

Lemma framework_names_distinct : NoDup (map fst framework_patterns).
Proof.
  unfold framework_patterns. cbn [map fst].
  repeat (constructor; [cbn [In]; intuition discriminate |]). constructor.
Qed.

End StructureFacts.

Section StructureProperties.
Import Text Structure Cogs Readings Samples.

(** C5, as the code has it.  Detection is a function of the set the code
    builds from the listing, each path lower-cased and the path of an entry
    that is not a file given a slash at its end: two listings that build
    the same set get the same answer.  And of two frameworks that each have
    at least two matching patterns, the one earlier in the table is
    returned, and not the later one, provided the earlier one is not
    Angular in a listing without a file [angular.json] (case ignored) and
    no framework before it in the table qualifies itself. *)
Theorem earlier_qualifying_framework_wins
    (repo_contents repo_contents' : list ContentFile) :
  ((forall p, In p (all_paths repo_contents) <-> In p (all_paths repo_contents')) ->
   detect_framework repo_contents' = detect_framework repo_contents)
  /\ forall (i j : nat) (f1 f2 : string) (p1 p2 : list string),
       nth_error framework_patterns i = Some (f1, p1) ->
       nth_error framework_patterns j = Some (f2, p2) ->
       i < j ->
       2 <= count_matches (all_paths repo_contents) p1 ->
       2 <= count_matches (all_paths repo_contents) p2 ->
       (f1 = "Angular" -> has_angular_json repo_contents) ->
       (forall k f p, k < i -> nth_error framework_patterns k = Some (f, p) ->
          count_matches (all_paths repo_contents) p < 2
          \/ (f = "Angular" /\ ~ has_angular_json repo_contents)) ->
       detect_framework repo_contents = Some f1 /\ f1 <> f2.
Proof.
  split.
  - intros Hsame. unfold detect_framework. symmetry.
    now apply detect_loop_same_paths.
  - intros i j f1 f2 p1 p2 Hi Hj Hlt H1 H2 Hjson Hbefore. split.
    + apply detect_loop_first_iff. exists i, p1.
      split; [exact Hi |]. split.
      * split; [exact H1 |]. cbn [fst]. intros E.
        apply angular_json_in_paths, Hjson, E.
      * intros k [f p] Hk Hn [Hq1 Hq2]. cbn [fst snd] in Hq1, Hq2.
        destruct (Hbefore k f p Hk Hn) as [Hc | [Hf Hm]]; [lia |].
        apply Hm, angular_json_in_paths, Hq2, Hf.
    + intros ->.
      pose proof (proj1 (NoDup_nth_error (map fst framework_patterns))
                    framework_names_distinct i j) as Hnd.
      assert (i = j); [| lia].
      apply Hnd.
      * rewrite length_map. apply nth_error_Some. rewrite Hi. discriminate.
      * rewrite (map_nth_error fst _ _ Hi), (map_nth_error fst _ _ Hj).
        reflexivity.
Qed.

Lemma earlier_qualifying_framework_wins_witness :
  detect_framework (rev angular_with_json) = detect_framework angular_with_json
  /\ detect_framework angular_with_json = Some "Angular"
  /\ "Angular" <> "Nest.js".
Proof.
  destruct (earlier_qualifying_framework_wins angular_with_json
              (rev angular_with_json)) as [Same First].
  split.
  - apply Same. intros p. vm_compute. tauto.
  - apply (First 2 11 "Angular" "Nest.js"
             ["angular.json"; "src/main.ts"; "src/app/app.module.ts";
              "src/index.html"; "src/app/"]
             ["nest-cli.json"; "src/main.ts"; "src/app.module.ts"]).
    + reflexivity.
    + reflexivity.
    + lia.
    + vm_compute. lia.
    + vm_compute. lia.
    + intros _. exists (file_at "angular.json").
      split; [now left | split; reflexivity].
    + intros k f p Hk Hn. left.
      destruct k as [|[|k]]; [| | lia]; injection Hn as <- <-; vm_compute; lia.
Defined.

(** The set is not that of the paths as given: with [artisan] a file the
    pattern [artisan/] is not found, with [artisan] a directory it is. *)
Example artisan_file_or_directory :
  map path artisan_file = map path artisan_directory
  /\ detect_framework artisan_file = None
  /\ detect_framework artisan_directory = Some "Laravel".
Proof. vm_compute. repeat split. Qed.

(** C5 as stated fails: Angular and Nest.js both have two matching patterns,
    Angular comes first in the table, and Nest.js is returned. *)
Lemma later_framework_returned_counterexample :
  nth_error framework_patterns 2
    = Some ("Angular", ["angular.json"; "src/main.ts"; "src/app/app.module.ts";
                        "src/index.html"; "src/app/"])
  /\ nth_error framework_patterns 11
     = Some ("Nest.js", ["nest-cli.json"; "src/main.ts"; "src/app.module.ts"])
  /\ count_matches (all_paths angular_without_json)
       ["angular.json"; "src/main.ts"; "src/app/app.module.ts";
        "src/index.html"; "src/app/"] = 3
  /\ count_matches (all_paths angular_without_json)
       ["nest-cli.json"; "src/main.ts"; "src/app.module.ts"] = 2
  /\ detect_framework angular_without_json = Some "Nest.js".
Proof. vm_compute. repeat split. Qed.




(** The example of C6 goes on to Nest.js; with three Angular patterns
    matching the answer is still not Angular. *)
Example module_and_main_is_nest :
  detect_framework module_and_main = Some "Nest.js"
  /\ detect_framework angular_without_json = Some "Nest.js".
Proof. vm_compute. split; reflexivity. Qed.

(** C10.  The report of the repository command has no recommendations,
    whatever the listing and whatever framework is detected: the audit runs
    without a framework, and the detected one is only stored afterwards. *)
Theorem repo_structure_has_no_recommendations (repo_contents : list ContentFile) :
  recommendations (repo_structure repo_contents) = []
  /\ recommendations (analyze_structure repo_contents None) = []
  /\ framework (repo_structure repo_contents)
     = (if truthy (detect_framework repo_contents)
        then detect_framework repo_contents else None).
Proof.
  unfold repo_structure.
  destruct (truthy (detect_framework repo_contents)); repeat split.
Qed.

(** The audit does recommend when it is given the framework that the
    command detects. *)
Example react_listing_recommendations :
  framework (repo_structure react_listing) = Some "React"
  /\ recommendations (repo_structure react_listing) = []
  /\ List.length (recommendations (analyze_structure react_listing (Some "React"))) = 5.
Proof. vm_compute. repeat split. Qed.

End StructureProperties.

(** ** Chunked responses *)
Section ChunkProperties.
Import Text Cogs.

Lemma join_app (l1 l2 : list string) : join (l1 ++ l2) = join l1 +++ join l2.
Proof.
  induction l1 as [|x l1 IH]; simpl; [reflexivity |].
  now rewrite IH, append_assoc.
Qed.

(** The first [k] chunks make up the first [k * size] characters. *)
Lemma join_first_chunks (size : nat) (s : string) (k : nat) :
  join (map (fun i => slice s i (i + size)) (map (fun n => n * size) (seq 0 k)))
  = take (k * size) s.
Proof.
  induction k as [|k IH].
  - now destruct s.
  - rewrite seq_S, !map_app, join_app, IH. cbn [map join fold_right plus].
    rewrite append_empty_r. unfold slice.
    replace (k * size + size - k * size) with size by lia.
    replace (S k * size) with (k * size + size) by lia.
    now rewrite take_add.
Qed.

Lemma chunks_cover (len size : nat) :
  0 < size -> len <= (len + size - 1) / size * size.
Proof.
  intros H.
  pose proof (Nat.div_mod_eq (len + size - 1) size) as E.
  pose proof (Nat.mod_upper_bound (len + size - 1) size) as U.
  nia.
Qed.

Lemma join_chunks (size : nat) (s : string) :
  0 < size -> join (chunks size s) = s.
Proof.
  intros H. unfold chunks, range0. rewrite join_first_chunks.
  apply take_all, chunks_cover, H.
Qed.

(** C8.  The chunks of a response, and the descriptions of the embeds
    actually sent for it, concatenate to the response. *)
Theorem chunking_is_lossless (response : string) :
  join (chunks max_length response) = response
  /\ join (embeds response) = response.
Proof.
  assert (H : join (chunks max_length response) = response).
  { apply join_chunks. unfold max_length. lia. }
  split; [exact H |].
  unfold embeds. destruct (max_length <? String.length response).
  - exact H.
  - cbn [join fold_right]. apply append_empty_r.
Qed.

(** Three chunks of sizes 2, 2 and 1 for a chunk size of 2. *)
Example chunks_of_five : chunks 2 "abcde" = ["ab"; "cd"; "e"].
Proof. reflexivity. Qed.

End ChunkProperties.

(** ** The walk over the syntax tree *)
Section WalkFacts.
Import Ast.

Lemma forest_size_step (x : node) (l : list node) :
  forest_size (x :: l) = size x + forest_size l.
Proof. reflexivity. Qed.

Lemma size_children (n : node) : size n = S (forest_size (child_nodes n)).
Proof.
  assert (F : forall l,
    (fix forest (l : list node) : nat :=
       match l with
       | [] => 0
       | x :: l' => size x + forest l'
       end) l = forest_size l).
  { induction l as [|x l IH]; [reflexivity |].
    rewrite forest_size_step, <- IH. reflexivity. }
  destruct n; cbn [size child_nodes]; rewrite ?forest_size_step, ?F; reflexivity.
Qed.

Lemma forest_size_app (l1 l2 : list node) :
  forest_size (l1 ++ l2) = forest_size l1 + forest_size l2.
Proof.
  induction l1 as [|x l1 IH]; [reflexivity |].
  rewrite <- app_comm_cons, !forest_size_step, IH. lia.
Qed.

Lemma forest_size_cons (n : node) (l : list node) :
  forest_size (n :: l) = S (forest_size (l ++ child_nodes n)).
Proof.
  rewrite forest_size_app, forest_size_step, size_children. lia.
Qed.

(** The loop never stops for lack of fuel: more fuel changes nothing. *)
Lemma bfs_fuel_enough (fuel : nat) (todo : list node) :
  forest_size todo <= fuel -> bfs fuel todo = bfs (forest_size todo) todo.
Proof.
  revert todo. induction fuel as [|fuel IH]; intros todo H.
  - destruct todo as [|n todo]; [reflexivity |].
    rewrite forest_size_cons in H. lia.
  - destruct todo as [|n todo]; [reflexivity |].
    rewrite forest_size_cons in *. cbn [bfs]. f_equal. apply IH. lia.
Qed.

(** Every node waiting in the queue is yielded. *)
Lemma bfs_yields_queue (fuel : nat) (todo : list node) (n : node) :
  forest_size todo <= fuel -> In n todo -> In n (bfs fuel todo).
Proof.
  revert todo. induction fuel as [|fuel IH]; intros todo H Hin.
  - destruct todo as [|x todo]; [contradiction |].
    rewrite forest_size_cons in H. lia.
  - destruct todo as [|x todo]; [contradiction |].
    rewrite forest_size_cons in H. cbn [bfs].
    destruct Hin as [-> | Hin]; [now left | right].
    apply IH; [lia | apply in_or_app; now left].
Qed.

(** As many nodes are yielded as the tree has. *)
Lemma walk_length (body : list node) :
  List.length (walk body) = forest_size body.
Proof.
  unfold walk. remember (forest_size body) as fuel eqn:E.
  revert body E. induction fuel as [|fuel IH]; intros body E; [reflexivity |].
  destruct body as [|n body]; [discriminate |].
  rewrite forest_size_cons in E. injection E as E.
  cbn [bfs List.length]. f_equal. now apply IH.
Qed.

Lemma walk_top_level (body : list node) (n : node) :
  In n body -> In n (walk body).
Proof. intros H. now apply bfs_yields_queue. Qed.

End WalkFacts.

(** Reading a field of a finding built by one of the analyzers. *)
Ltac read_fields :=
  unfold field, has_key;
  cbn [dict_get String.eqb Ascii.eqb Bool.eqb andb
       Analyzers.python_finding Analyzers.error_finding
       Analyzers.java_finding Analyzers.javascript_finding].

(** ** The Python analyzer *)

Section PythonProperties.
Import Text Ast Analyzers Readings Samples.

Variable ast_parse : string -> outcome (list node).

(** C3, as the code has it.  When the parse raises, the finding holds the
    exception's text under [error], be it empty or not, one
    [potential_issues] entry that contains that text, and nothing else: the
    eight other collection keys are absent, which every reader of a finding
    takes for empty. *)
Theorem parse_failure_finding (content e : string) :
  ast_parse content = Raises e ->
  exists analysis,
    analyze_python_file ast_parse content = Returns analysis
    /\ dict_get "error" analysis = Some (VStr e)
    /\ field "potential_issues" analysis = [parse_error_issue e]
    /\ str_in e (parse_error_issue e) = true
    /\ forall k,
         In k [ "imports"; "functions"; "classes"; "variables";
                "unused_imports"; "unused_functions"; "unused_variables";
                "suggestions" ] ->
         has_key k analysis = false /\ field k analysis = [].
Proof.
  intros H. exists (error_finding e).
  unfold analyze_python_file, analyze_python_body. rewrite H.
  split; [reflexivity |]. split; [reflexivity |]. split; [reflexivity |].
  split; [apply str_in_suffix |].
  intros k Hk. cbn [In] in Hk.
  repeat (destruct Hk as [<- | Hk]; [split; reflexivity |]). contradiction.
Qed.

(** C4, as the code has it.  The call always returns a finding, and when
    the parser returns a tree the finding has a list under each of the nine
    collection keys. *)
Theorem analyze_python_never_raises (content : string) :
  exists analysis,
    analyze_python_file ast_parse content = Returns analysis
    /\ forall tree_body,
         ast_parse content = Returns tree_body ->
         forall k, In k collection_keys ->
                   exists l, dict_get k analysis = Some (VList l).
Proof.
  unfold analyze_python_file, analyze_python_body.
  destruct (ast_parse content) as [tree_body | e].
  - eexists. split; [reflexivity |].
    intros _ _ k Hk. unfold collection_keys in Hk. cbn [In] in Hk.
    repeat (destruct Hk as [<- | Hk]; [eexists; reflexivity |]). contradiction.
  - eexists. split; [reflexivity |]. intros tree_body H. discriminate.
Qed.

(** C7.  On the text of a lone [foo] the finding lists [foo] as the only
    function and as unused, no unused import, and no error. *)
Theorem lone_function_finding :
  ast_parse foo_source = Returns foo_tree ->
  exists analysis,
    analyze_python_file ast_parse foo_source = Returns analysis
    /\ field "functions" analysis = ["foo"]
    /\ field "unused_functions" analysis = ["foo"]
    /\ field "unused_imports" analysis = []
    /\ has_key "error" analysis = false.
Proof.
  intros H. unfold analyze_python_file, analyze_python_body. rewrite H.
  eexists. split; [reflexivity |]. vm_compute. repeat split.
Qed.

End PythonProperties.

Lemma parse_failure_finding_witness :
  exists analysis,
    Analyzers.analyze_python_file Samples.sample_parse "def foo(:" = Returns analysis
    /\ dict_get "error" analysis = Some (VStr "invalid syntax (<unknown>, line 1)")
    /\ field "potential_issues" analysis
       = [Analyzers.parse_error_issue "invalid syntax (<unknown>, line 1)"]
    /\ Text.str_in "invalid syntax (<unknown>, line 1)"
         (Analyzers.parse_error_issue "invalid syntax (<unknown>, line 1)") = true
    /\ forall k,
         In k [ "imports"; "functions"; "classes"; "variables";
                "unused_imports"; "unused_functions"; "unused_variables";
                "suggestions" ] ->
         has_key k analysis = false /\ field k analysis = [].
Proof.
  apply (parse_failure_finding Samples.sample_parse "def foo(:"
           "invalid syntax (<unknown>, line 1)").
  vm_compute. reflexivity.
Defined.

Lemma analyze_python_never_raises_witness :
  exists analysis,
    Analyzers.analyze_python_file Samples.sample_parse Samples.foo_source
      = Returns analysis
    /\ forall k, In k Readings.collection_keys ->
                  exists l, dict_get k analysis = Some (VList l).
Proof.
  destruct (analyze_python_never_raises Samples.sample_parse Samples.foo_source)
    as [analysis [H1 H2]].
  exists analysis. split; [exact H1 |]. apply (H2 Samples.foo_tree).
  vm_compute. reflexivity.
Defined.

Lemma minus_signs_signed (n : nat) :
  Readings.signed_one (Samples.minus_signs n "1").
Proof. induction n as [|n IH]; [constructor | now constructor]. Qed.

(** C3 as stated fails: on the deeply nested expression the parser raises
    an exception without text, and the [error] field is empty. *)
Lemma empty_error_text_counterexample :
  Samples.deep_parse Samples.deeply_nested = Raises EmptyString
  /\ Analyzers.analyze_python_file Samples.deep_parse Samples.deeply_nested
     = Returns (Analyzers.error_finding EmptyString)
  /\ dict_get "error" (Analyzers.error_finding EmptyString)
     = Some (VStr EmptyString).
Proof. vm_compute. repeat split. Qed.

(** C4 as stated fails: the deeply nested expression is a text of the
    grammar, the parser raises on it, and the finding has two keys only. *)
Lemma valid_text_two_keys_counterexample :
  Readings.signed_one Samples.deeply_nested
  /\ Analyzers.analyze_python_file Samples.deep_parse Samples.deeply_nested
     = Returns (Analyzers.error_finding EmptyString)
  /\ map fst (Analyzers.error_finding EmptyString)
     = ["error"; "potential_issues"]
  /\ forallb (fun k => has_key k (Analyzers.error_finding EmptyString))
             Readings.collection_keys = false.
Proof.
  split; [apply minus_signs_signed |]. vm_compute. repeat split.
Qed.

Lemma lone_function_finding_witness :
  exists analysis,
    Analyzers.analyze_python_file Samples.sample_parse Samples.foo_source
      = Returns analysis
    /\ field "functions" analysis = ["foo"]
    /\ field "unused_functions" analysis = ["foo"]
    /\ field "unused_imports" analysis = []
    /\ has_key "error" analysis = false.
Proof.
  apply (lone_function_finding Samples.sample_parse). vm_compute. reflexivity.
Defined.

(** ** Unused names and defined names *)

Section UnusedProperties.
Import Text Re Ast Analyzers Readings Samples.

Lemma incl_filter_of {A : Type} (f : A -> bool) (l : list A) : incl (filter f l) l.
Proof. intros x H. now apply filter_In in H. Qed.

Lemma top_level_functions_walked (body : list node) :
  incl (dedup (flat_map function_name body)) (flat_map function_name (walk body)).
Proof.
  intros x H. rewrite dedup_In in H. apply in_flat_map in H.
  destruct H as [n [Hn Hx]]. apply in_flat_map. exists n.
  split; [now apply walk_top_level | assumption].
Qed.

(** C1, as the code has it.  In the Python and JavaScript/TypeScript
    findings every unused list lies within its defined list, and so does
    [unused_methods] within [methods] in the Java finding; the Java
    finding's [unused_imports] is empty or holds the one advisory sentence,
    whatever the imports are. *)
Theorem unused_names_are_defined
    (ast_parse : string -> outcome (list node)) (content language : string) :
  (exists py,
     analyze_python_file ast_parse content = Returns py
     /\ incl (field "unused_imports" py) (field "imports" py)
     /\ incl (field "unused_functions" py) (field "functions" py)
     /\ incl (field "unused_variables" py) (field "variables" py))
  /\ (let js := analyze_javascript_file content language in
      incl (field "unused_functions" js) (field "functions" js)
      /\ incl (field "unused_variables" js) (field "variables" js))
  /\ (let java := analyze_java_file content in
      incl (field "unused_methods" java) (field "methods" java)
      /\ (field "unused_imports" java = []
          \/ field "unused_imports" java = [unused_imports_advice])).
Proof.
  split; [| split].
  - unfold analyze_python_file, analyze_python_body.
    destruct (ast_parse content) as [tree_body | e].
    + eexists. split; [reflexivity |]. read_fields.
      split; [apply incl_filter_of |]. split; [| apply incl_refl].
      eapply incl_tran; [apply incl_filter_of | apply top_level_functions_walked].
    + eexists. split; [reflexivity |]. read_fields.
      repeat split; apply incl_refl.
  - unfold analyze_javascript_file. cbv zeta. read_fields.
    split; apply incl_filter_of.
  - unfold analyze_java_file. cbv zeta. read_fields. split.
    + eapply incl_tran; [apply incl_filter_of |].
      intros x H. now rewrite dedup_In in H.
    + match goal with |- context [if ?c then _ else _] => destruct c end;
        [right | left]; reflexivity.
Qed.

(** C1 as stated fails for the Java finding: the advisory sentence is in
    [unused_imports] and is not one of the imports. *)
Lemma java_unused_imports_counterexample :
  field "imports" (analyze_java_file wildcard_import) = ["java.util.*"]
  /\ field "unused_imports" (analyze_java_file wildcard_import)
     = [unused_imports_advice]
  /\ ~ incl (field "unused_imports" (analyze_java_file wildcard_import))
            (field "imports" (analyze_java_file wildcard_import)).
Proof.
  split; [vm_compute; reflexivity |]. split; [vm_compute; reflexivity |].
  intros H. specialize (H unused_imports_advice).
  assert (E : field "unused_imports" (analyze_java_file wildcard_import)
              = [unused_imports_advice]) by (vm_compute; reflexivity).
  assert (F : field "imports" (analyze_java_file wildcard_import)
              = ["java.util.*"]) by (vm_compute; reflexivity).
  rewrite E, F in H. destruct (H (or_introl eq_refl)) as [D | []].
  discriminate D.
Qed.

(** *** Used and unused Java methods *)

(** The test of the inner loop, for one method name. *)
Lemma method_referenced_spec (method_name : string) (lines : list string) :
  method_referenced method_name lines = true
  <-> exists line,
        In line lines
        /\ str_in (call_text method_name) line = true
        /\ str_in (call_text method_name) (hd EmptyString (split line "{")) = false.
Proof.
  unfold method_referenced. rewrite existsb_exists.
  split; intros [line [Hin H]]; exists line; split; try assumption.
  - apply andb_true_iff in H. destruct H as [H Hb].
    apply andb_true_iff in H. destruct H as [_ Hc].
    split; [assumption | now apply negb_true_iff].
  - destruct H as [Hc Hb]. rewrite Hc, Hb.
    rewrite (str_in_trans method_name (call_text method_name) line);
      [reflexivity | apply str_in_middle | assumption].
Qed.

Lemma unused_methods_spec (content method_name : string) :
  In method_name (field "unused_methods" (analyze_java_file content))
  <-> In method_name (field "methods" (analyze_java_file content))
      /\ method_referenced method_name (split content nl) = false.
Proof.
  unfold analyze_java_file. cbv zeta. read_fields.
  rewrite filter_In, dedup_In, negb_true_iff. reflexivity.
Qed.






(** With a brace the call counts; on a line without a brace the part before
    the first brace is the whole line, and the call does not count. *)
Example call_after_brace_counts :
  mem "foo" (field "unused_methods" (analyze_java_file call_after_brace)) = false
  /\ mem "foo" (field "unused_methods" (analyze_java_file call_on_plain_line)) = true.
Proof. vm_compute. split; reflexivity. Qed.

End UnusedProperties.

(** ** The TypeScript suggestion and the two commands *)
Section DispatchProperties.
Import Text Analyzers Cogs Samples.

Variable ast_parse : string -> outcome (list Ast.node).

Lemma in_optional {A : Type} (x y : A) (b : bool) :
  In x (if b then [y] else []) -> b = true /\ x = y.
Proof.
  destruct b; cbn [In]; [| contradiction].
  intros [H | []]. now split.
Qed.

(** Strip a suggestion list down to the one rule that could have produced
    [any_suggestion]. *)
Ltac not_among_suggestions H :=
  repeat (apply in_app_or in H; destruct H as [H | H]);
  apply in_optional in H; destruct H as [? H]; try discriminate H.

Lemma python_never_suggests_any (content : string) (analysis : Analysis) :
  analyze_python_file ast_parse content = Returns analysis ->
  ~ In any_suggestion (field "suggestions" analysis).
Proof.
  unfold analyze_python_file, analyze_python_body.
  destruct (ast_parse content) as [tree_body | e]; intros E; injection E as <-;
    read_fields; intros H; [| contradiction].
  not_among_suggestions H.
Qed.

Lemma java_never_suggests_any (content : string) :
  ~ In any_suggestion (field "suggestions" (analyze_java_file content)).
Proof.
  unfold analyze_java_file. cbv zeta. read_fields. intros H.
  not_among_suggestions H.
Qed.

(** The rule fires for the language tag [typescript] only. *)
Lemma javascript_suggests_any_iff (content language : string) :
  In any_suggestion (field "suggestions" (analyze_javascript_file content language))
  <-> str_in "any" content = true /\ language = "typescript".
Proof.
  unfold analyze_javascript_file. cbv zeta. read_fields. split.
  - intros H. not_among_suggestions H.
    match goal with B : (_ && _) = true |- _ =>
      apply andb_true_iff in B; destruct B as [B1 B2] end.
    split; [assumption | now apply String.eqb_eq].
  - intros [H1 ->]. rewrite H1, String.eqb_refl. cbn [andb].
    apply in_or_app. right. apply in_or_app. right.
    apply in_or_app. left. now left.
Qed.

Lemma dispatch_never_suggests_any (file_ext language content : string)
    (analysis : Analysis) :
  dispatch ast_parse file_ext language content = Returns analysis ->
  ~ In any_suggestion (field "suggestions" analysis).
Proof.
  unfold dispatch.
  destruct (String.eqb file_ext ".py"); [apply python_never_suggests_any |].
  destruct (String.eqb file_ext ".java");
    [intros E; injection E as <-; apply java_never_suggests_any |].
  destruct (mem file_ext [".js"; ".ts"; ".jsx"; ".tsx"]);
    intros E; injection E as <-.
  - rewrite javascript_suggests_any_iff. unfold default_language.
    intros [_ D]. discriminate D.
  - read_fields. intros [].
Qed.

(** C9.  No analysis produced by the repository command or by the upload
    command carries the TypeScript suggestion, whatever the file; for the
    extensions [.ts] and [.tsx] the chain calls the JavaScript analyzer with
    its default language tag. *)
Theorem any_suggestion_never_reported :
  (forall all_repo_contents entry,
     In entry (analyzed_files ast_parse all_repo_contents) ->
     ~ In any_suggestion (field "suggestions" (file_analysis entry)))
  /\ (forall filename size decoded analysis,
        upload_analysis ast_parse filename size decoded = Some analysis ->
        ~ In any_suggestion (field "suggestions" analysis))
  /\ (forall file_ext language content,
        In file_ext [".ts"; ".tsx"] ->
        dispatch ast_parse file_ext language content
        = Returns (analyze_javascript_file content "javascript")).
Proof.
  split; [| split].
  - intros all_repo_contents entry. unfold analyzed_files.
    destruct (select_files all_repo_contents) as [selected [file_ext |]];
      [| contradiction].
    intros H. apply in_flat_map in H. destruct H as [content_file [_ H]].
    unfold analyze_one in H.
    destruct (decoded_content content_file) as [file_content |]; [| contradiction].
    destruct (Structure.lookup file_ext supported_extensions) as [language |];
      [| contradiction].
    destruct (dispatch ast_parse file_ext language file_content)
      as [analysis | e] eqn:E; [| contradiction].
    destruct H as [<- | []]. cbn [file_analysis].
    exact (dispatch_never_suggests_any _ _ _ _ E).
  - intros filename size decoded analysis. unfold upload_analysis.
    destruct (1024 * 1024 <? size)%N; [discriminate |].
    destruct (Structure.lookup _ supported_extensions) as [language |];
      [| discriminate].
    destruct decoded as [content_str |]; [| discriminate].
    destruct (dispatch ast_parse _ language content_str) as [a | e] eqn:E;
      [| discriminate].
    intros H. injection H as <-.
    exact (dispatch_never_suggests_any _ _ _ _ E).
  - intros file_ext language content H. cbn [In] in H.
    destruct H as [<- | [<- | []]]; reflexivity.
Qed.

End DispatchProperties.

Lemma any_suggestion_never_reported_witness :
  (forall entry,
     In entry (Cogs.analyzed_files Samples.sample_parse [Samples.ts_file]) ->
     ~ In Analyzers.any_suggestion (field "suggestions" (Cogs.file_analysis entry)))
  /\ ~ In Analyzers.any_suggestion
         (field "suggestions"
            (Analyzers.analyze_javascript_file Samples.typed_any "javascript")).
Proof.
  destruct (any_suggestion_never_reported Samples.sample_parse) as [H1 [H2 _]].
  split; [exact (H1 [Samples.ts_file]) |].
  apply (H2 "app.ts" 15%N (Some Samples.typed_any)). vm_compute. reflexivity.
Defined.

(** The rule does fire when the analyzer is told the language; through the
    two commands the same text gets no such suggestion. *)
Example typed_any_suggestion :
  In Analyzers.any_suggestion
     (field "suggestions"
        (Analyzers.analyze_javascript_file Samples.typed_any "typescript"))
  /\ Cogs.upload_analysis Samples.sample_parse "app.ts" 15
       (Some Samples.typed_any)
     = Some (Analyzers.analyze_javascript_file Samples.typed_any "javascript")
  /\ map Cogs.file_analysis
       (Cogs.analyzed_files Samples.sample_parse [Samples.ts_file])
     = [Analyzers.analyze_javascript_file Samples.typed_any "javascript"]
  /\ field "suggestions"
       (Analyzers.analyze_javascript_file Samples.typed_any "javascript") = [].
Proof.
  split; [vm_compute; now left |].
  split; [vm_compute; reflexivity |].
  split; vm_compute; reflexivity.
Qed.

(** * Further properties *)

(** ** Framework detection and the structure audit *)
Section StructureMore.
Import Text Structure Readings Samples.

Lemma not_qualifies_iff (paths : list string) (f : string) (pats : list string) :
  ~ qualifies paths (f, pats)
  <-> count_matches paths pats < 2
      \/ (f = "Angular" /\ mem "angular.json" paths = false).
Proof.
  unfold qualifies. cbn [fst snd]. split.
  - intros H. destruct (le_lt_dec 2 (count_matches paths pats)) as [L | L];
      [| now left].
    right. destruct (String.eqb f "Angular") eqn:Ef.
    + apply String.eqb_eq in Ef. split; [assumption |].
      destruct (mem "angular.json" paths) eqn:Em; [| reflexivity].
      exfalso. apply H. now split.
    + exfalso. apply H. split; [assumption |]. intros ->.
      now rewrite String.eqb_refl in Ef.
  - intros [L | [-> Hm]] [H1 H2]; [lia |].
    rewrite (H2 eq_refl) in Hm. discriminate.
Qed.

(** X1.  The framework reported is one of the table, with at least two of its
    patterns found in the paths, and for Angular with [angular.json] among
    the paths. *)
Theorem detected_framework_qualifies (repo_contents : list ContentFile) (f : string) :
  detect_framework repo_contents = Some f ->
  exists patterns,
    In (f, patterns) framework_patterns
    /\ 2 <= count_matches (all_paths repo_contents) patterns
    /\ (f = "Angular" -> mem "angular.json" (all_paths repo_contents) = true).
Proof.
  intros H. destruct (detect_loop_sound _ _ _ H) as [pats [Hin [H1 H2]]].
  exists pats. repeat split; assumption.
Qed.

Lemma detected_framework_qualifies_witness :
  exists patterns,
    In ("Nest.js", patterns) framework_patterns
    /\ 2 <= count_matches (all_paths module_and_main) patterns
    /\ ("Nest.js" = "Angular" ->
        mem "angular.json" (all_paths module_and_main) = true).
Proof.
  apply (detected_framework_qualifies module_and_main "Nest.js").
  vm_compute. reflexivity.
Defined.

(** X2.  No framework is reported exactly when every framework of the table has
    fewer than two matching patterns, or is Angular without [angular.json]
    among the paths. *)
Theorem no_framework_iff (repo_contents : list ContentFile) :
  detect_framework repo_contents = None
  <-> forall f patterns,
        In (f, patterns) framework_patterns ->
        count_matches (all_paths repo_contents) patterns < 2
        \/ (f = "Angular"
            /\ mem "angular.json" (all_paths repo_contents) = false).
Proof.
  unfold detect_framework. rewrite detect_loop_none. split.
  - intros H f pats Hin. apply not_qualifies_iff. now apply H.
  - intros H [f pats] Hin. apply not_qualifies_iff. now apply H.
Qed.

Lemma filter_split_permutation {A : Type} (f : A -> bool) (l : list A) :
  Permutation (filter f l ++ filter (fun x => negb (f x)) l) l.
Proof.
  induction l as [|x l IH]; cbn [filter app]; [constructor |].
  destruct (f x); cbn [negb app].
  - now constructor.
  - apply Permutation_sym, Permutation_cons_app, Permutation_sym, IH.
Qed.

(** X3.  The report sorts every entry of the listing into [files] or
    [directories], once: files are the entries of type [file], in the
    order of the listing, and all others count as directories. *)
Theorem structure_sorts_every_entry (repo_contents : list ContentFile)
    (fw : option string) :
  Permutation (files (analyze_structure repo_contents fw)
               ++ directories (analyze_structure repo_contents fw))
              (map path repo_contents)
  /\ (forall p,
        In p (files (analyze_structure repo_contents fw))
        <-> exists content,
              In content repo_contents /\ type content = "file"
              /\ path content = p)
  /\ (forall p,
        In p (directories (analyze_structure repo_contents fw))
        <-> exists content,
              In content repo_contents /\ type content <> "file"
              /\ path content = p).
Proof.
  unfold analyze_structure. cbv zeta. cbn [files directories].
  split; [| split].
  - rewrite <- map_app. apply Permutation_map, filter_split_permutation.
  - intros p. rewrite in_map_iff. split.
    + intros [x [Hp Hx]]. apply filter_In in Hx. destruct Hx as [Hx Ht].
      exists x. apply String.eqb_eq in Ht. now repeat split.
    + intros [x [Hx [Ht Hp]]]. exists x. split; [assumption |].
      apply filter_In. split; [assumption | now apply String.eqb_eq].
  - intros p. rewrite in_map_iff. split.
    + intros [x [Hp Hx]]. apply filter_In in Hx. destruct Hx as [Hx Ht].
      exists x. apply negb_true_iff, String.eqb_neq in Ht. now repeat split.
    + intros [x [Hx [Ht Hp]]]. exists x. split; [assumption |].
      apply filter_In. split; [assumption |].
      now apply negb_true_iff, String.eqb_neq.
Qed.

(** X4.  The README issue is raised exactly when no entry of type [file] has
    the path [readme.md] up to case, so a README in a subdirectory does not
    count; likewise for [.gitignore]; and there is no other issue. *)
Theorem structure_issues_iff (repo_contents : list ContentFile)
    (fw : option string) :
  let has_file p :=
    exists content,
      In content repo_contents /\ type content = "file"
      /\ lower (path content) = p in
  (In "Missing README.md file" (issues (analyze_structure repo_contents fw))
   <-> ~ has_file "readme.md")
  /\ (In "Missing .gitignore file" (issues (analyze_structure repo_contents fw))
      <-> ~ has_file ".gitignore")
  /\ forall issue,
       In issue (issues (analyze_structure repo_contents fw)) ->
       issue = "Missing README.md file" \/ issue = "Missing .gitignore file".
Proof.
  intros has_file.
  assert (M : forall p,
    mem p (map (fun content => lower (path content))
               (filter (fun content => String.eqb (type content) "file")
                       repo_contents)) = true <-> has_file p).
  { intros p. rewrite mem_In, in_map_iff. split.
    - intros [x [Hp Hx]]. apply filter_In in Hx. destruct Hx as [Hx Ht].
      exists x. apply String.eqb_eq in Ht. now repeat split.
    - intros [x [Hx [Ht Hp]]]. exists x. split; [assumption |].
      apply filter_In. split; [assumption | now apply String.eqb_eq]. }
  assert (T : forall (b1 b2 : bool) (a b x : string),
    In x ((if b1 then [a] else []) ++ (if b2 then [b] else []))
    <-> (b1 = true /\ x = a) \/ (b2 = true /\ x = b)).
  { intros b1 b2 a b x. destruct b1, b2; cbn [app In]; split;
      intuition (try discriminate; subst; auto). }
  unfold analyze_structure. cbv zeta. cbn [issues].
  pose proof (M "readme.md") as M1. pose proof (M ".gitignore") as M2.
  split; [| split].
  - rewrite T, negb_true_iff, <- M1. split.
    + intros [[H _] | [_ H]]; [congruence | discriminate H].
    + intros H. left. split; [| reflexivity].
      now destruct (mem "readme.md" _).
  - rewrite T, !negb_true_iff, <- M2. split.
    + intros [[_ H] | [H _]]; [discriminate H | congruence].
    + intros H. right. split; [| reflexivity].
      now destruct (mem ".gitignore" _).
  - intros issue H. apply T in H. destruct H as [[_ H] | [_ H]];
      [left | right]; exact H.
Qed.

Lemma existsb_false {A : Type} (g : A -> bool) (l : list A) :
  existsb g l = false <-> forall x, In x l -> g x = false.
Proof.
  induction l as [|y l IH]; cbn [existsb In].
  - split; [intros _ x [] | reflexivity].
  - rewrite orb_false_iff, IH. split.
    + intros [H1 H2] x [<- | Hx]; [assumption | now apply H2].
    + intros H. split; [apply H; now left | intros x Hx; apply H; now right].
Qed.

Lemma no_path_contains (repo_contents : list ContentFile) (sub : string) :
  let is_file content := String.eqb (type content) "file" in
  existsb (str_in sub)
    (map (fun content => lower (path content)) (filter is_file repo_contents)
     ++ map (fun content => lower (path content))
          (filter (fun content => negb (is_file content)) repo_contents))
  = false
  <-> forall content, In content repo_contents ->
                      str_in sub (lower (path content)) = false.
Proof.
  intros is_file. rewrite existsb_false. split.
  - intros H x Hx. apply H. apply in_or_app.
    destruct (is_file x) eqn:E; [left | right]; apply in_map_iff; exists x;
      (split; [reflexivity |]); apply filter_In; split; try assumption.
    now rewrite E.
  - intros H p Hp. apply in_app_or in Hp.
    destruct Hp as [Hp | Hp]; apply in_map_iff in Hp;
      destruct Hp as [x [<- Hx]]; apply filter_In in Hx; apply H, Hx.
Qed.

(** X5.  A recommendation is made exactly for a path configured for the
    framework passed in that no entry's path contains, case ignored; a
    framework without configured paths gets none. *)
Theorem recommendation_iff (repo_contents : list ContentFile)
    (fw : option string) (r : string) :
  In r (recommendations (analyze_structure repo_contents fw))
  <-> exists f rec recommended_path,
        fw = Some f
        /\ lookup f structure_recommendations = Some rec
        /\ In recommended_path (recommended rec)
        /\ (forall content, In content repo_contents ->
               str_in (lower recommended_path) (lower (path content)) = false)
        /\ r = "Consider adding " +++ recommended_path +++ " for " +++ f
                +++ " best practices.".
Proof.
  unfold analyze_structure. cbv zeta. cbn [recommendations].
  destruct fw as [f |]; [| split; [intros [] | intros [f [rec [rp [H _]]]]; discriminate H]].
  assert (T : lookup f structure_recommendations <> None -> truthy (Some f) = true).
  { destruct f; [intros H; now contradiction H | reflexivity]. }
  destruct (lookup f structure_recommendations) as [rec |] eqn:L.
  - rewrite T by discriminate. rewrite in_flat_map. split.
    + intros [rp [Hrp Hr]].
      destruct (negb (existsb _ _)) eqn:E; [| contradiction].
      destruct Hr as [<- | []]. apply negb_true_iff in E.
      exists f, rec, rp. repeat split; try assumption.
      now apply (proj1 (no_path_contains repo_contents (lower rp))).
    + intros [f' [rec' [rp [Hf [Hl [Hrp [Hn ->]]]]]]].
      injection Hf as <-. rewrite L in Hl. injection Hl as <-.
      exists rp. split; [assumption |].
      rewrite (proj2 (no_path_contains repo_contents (lower rp)) Hn).
      now left.
  - split.
    + destruct (truthy (Some f)); intros [].
    + intros [f' [rec' [rp [Hf [Hl _]]]]]. injection Hf as <-.
      rewrite L in Hl. discriminate.
Qed.

End StructureMore.

(** ** Walking the repository *)
Section RepoInduction.
Import Repo.

Variable P : RepoItem -> Prop.
Hypothesis listed :
  forall content sub, Forall P sub -> P (Item content (Returns sub)).
Hypothesis unlisted : forall content e, P (Item content (Raises e)).

Fixpoint repo_item_ind' (item : RepoItem) : P item :=
  match item with
  | Item content (Returns sub) =>
      listed content sub
        ((fix all (l : list RepoItem) : Forall P l :=
            match l with
            | [] => Forall_nil P
            | x :: l' => Forall_cons x (repo_item_ind' x) (all l')
            end) sub)
  | Item content (Raises e) => unlisted content e
  end.

Lemma repo_items_all (items : list RepoItem) : Forall P items.
Proof. induction items; constructor; [apply repo_item_ind' | assumption]. Qed.

End RepoInduction.

Section RepoFacts.
Import Text Structure Repo Notions.

Lemma reachable_nil (c : ContentFile) : ~ reachable [] c.
Proof. intros H. inversion H; subst; contradiction. Qed.

Lemma reachable_cons (x : RepoItem) (l : list RepoItem) (c : ContentFile) :
  reachable (x :: l) c <-> reachable [x] c \/ reachable l c.
Proof.
  split.
  - intros H. inversion H as [? ? listing Hin | ? sub d ? Hin Hd Hsub]; subst.
    + destruct Hin as [E | Hin].
      * left. apply (reach_here _ _ listing). now left.
      * right. now apply (reach_here _ _ listing).
    + destruct Hin as [E | Hin].
      * left. apply (reach_below _ sub d); [now left | assumption..].
      * right. now apply (reach_below _ sub d).
  - intros [H | H].
    + inversion H as [? ? listing Hin | ? sub d ? Hin Hd Hsub]; subst.
      * destruct Hin as [E | []]. apply (reach_here _ _ listing). now left.
      * destruct Hin as [E | []].
        apply (reach_below _ sub d); [now left | assumption..].
    + inversion H as [? ? listing Hin | ? sub d ? Hin Hd Hsub]; subst.
      * apply (reach_here _ _ listing). now right.
      * apply (reach_below _ sub d); [now right | assumption..].
Qed.

Lemma reachable_item (d : ContentFile) (listing : outcome (list RepoItem))
    (c : ContentFile) :
  reachable [Item d listing] c
  <-> c = d \/ (exists sub, listing = Returns sub /\ type d = "dir"
                            /\ reachable sub c).
Proof.
  split.
  - intros H. inversion H as [? ? l Hin | ? sub d' ? Hin Hd Hsub]; subst.
    + destruct Hin as [E | []]. injection E as E1 E2. now left.
    + destruct Hin as [E | []]. injection E as E1 E2. subst.
      right. now exists sub.
  - intros [-> | [sub [-> [Hd Hsub]]]].
    + apply (reach_here _ _ listing). now left.
    + apply (reach_below _ sub d); [now left | assumption..].
Qed.

Lemma reachable_some (l : list RepoItem) (c : ContentFile) :
  reachable l c <-> exists x, In x l /\ reachable [x] c.
Proof.
  induction l as [|y l IH].
  - split; [intros H; now apply reachable_nil in H | intros [x [[] _]]].
  - rewrite reachable_cons, IH. split.
    + intros [H | [x [Hx H]]]; [exists y | exists x]; split;
        try assumption; [now left | now right].
    + intros [x [[<- | Hx] H]]; [now left | right; now exists x].
Qed.

(** What [flatten_contents] gathers: the entries that can be got to and
    are not directories. *)
Lemma flatten_turn_spec (item : RepoItem) (c : ContentFile) :
  In c (flatten_turn item) <-> reachable [item] c /\ type c <> "dir".
Proof.
  revert c. induction item as [d sub IH | d e] using repo_item_ind'; intros c;
    cbn [flatten_turn]; rewrite reachable_item;
    destruct (String.eqb (type d) "dir") eqn:Ed.
  - apply String.eqb_eq in Ed. rewrite in_flat_map. split.
    + intros [x [Hx Hc]]. rewrite Forall_forall in IH.
      apply (IH x Hx) in Hc. destruct Hc as [Hr Ht]. split; [| assumption].
      right. exists sub. repeat split; try assumption.
      apply reachable_some. now exists x.
    + intros [[-> | [sub' [E [_ Hr]]]] Ht]; [contradiction |].
      injection E as <-. apply reachable_some in Hr. destruct Hr as [x [Hx Hr]].
      exists x. split; [assumption |]. rewrite Forall_forall in IH.
      apply (IH x Hx). now split.
  - apply String.eqb_neq in Ed. cbn [In]. split.
    + intros [<- | []]. split; [now left | assumption].
    + intros [[-> | [sub' [_ [Hd _]]]] _]; [now left | contradiction].
  - apply String.eqb_eq in Ed. cbn [In]. split; [intros [] |].
    intros [[-> | [sub' [E _]]] Ht]; [contradiction | discriminate E].
  - apply String.eqb_neq in Ed. cbn [In]. split.
    + intros [<- | []]. split; [now left | assumption].
    + intros [[-> | [sub' [E _]]] _]; [now left | discriminate E].
Qed.

Lemma flatten_contents_spec (items : list RepoItem) (c : ContentFile) :
  In c (flatten_contents items) <-> reachable items c /\ type c <> "dir".
Proof.
  unfold flatten_contents. rewrite in_flat_map, reachable_some. split.
  - intros [x [Hx Hc]]. apply flatten_turn_spec in Hc. destruct Hc as [Hr Ht].
    split; [now exists x | assumption].
  - intros [[x [Hx Hr]] Ht]. exists x. split; [assumption |].
    apply flatten_turn_spec. now split.
Qed.

Lemma first_return_some {A : Type} (turn : A -> option string) (l : list A)
    (p : string) :
  first_return turn l = Some p -> exists x, In x l /\ turn x = Some p.
Proof.
  induction l as [|y l IH]; cbn [first_return]; [discriminate |].
  destruct (turn y) as [q |] eqn:E.
  - intros H. injection H as <-. exists y. split; [now left | assumption].
  - intros H. destruct (IH H) as [x [Hx Ht]]. exists x. split; [now right | assumption].
Qed.

Lemma first_return_none {A : Type} (turn : A -> option string) (l : list A) :
  first_return turn l = None <-> forall x, In x l -> turn x = None.
Proof.
  induction l as [|y l IH]; cbn [first_return].
  - split; [intros _ x [] | reflexivity].
  - destruct (turn y) as [q |] eqn:E.
    + split; [discriminate |]. intros H. rewrite (H y) in E by now left.
      discriminate.
    + rewrite IH. split.
      * intros H x [<- | Hx]; [assumption | now apply H].
      * intros H x Hx. apply H. now right.
Qed.

(** What a search returns is the path of a file of that name that the
    flattening gathers too. *)
Lemma search_turn_sound (filename : string) (item : RepoItem) (p : string) :
  search_turn filename item = Some p ->
  exists c, In c (flatten_turn item) /\ type c = "file"
            /\ name c = filename /\ path c = p.
Proof.
  revert p. induction item as [d sub IH | d e] using repo_item_ind'; intros p;
    cbn [search_turn flatten_turn];
    destruct (String.eqb (type d) "file" && String.eqb (name d) filename) eqn:Em.
  - apply andb_true_iff in Em. destruct Em as [Et En].
    apply String.eqb_eq in Et, En. intros H. injection H as <-.
    rewrite Et. cbn. exists d. repeat split; try assumption. now left.
  - destruct (String.eqb (type d) "dir"); [| discriminate].
    destruct (first_return (search_turn filename) sub) as [[|a q] |] eqn:E;
      try discriminate.
    intros H. injection H as <-.
    destruct (first_return_some _ _ _ E) as [x [Hx Hs]].
    rewrite Forall_forall in IH. destruct (IH x Hx _ Hs) as [c [Hc Hrest]].
    exists c. split; [| assumption]. apply in_flat_map. now exists x.
  - apply andb_true_iff in Em. destruct Em as [Et En].
    apply String.eqb_eq in Et, En. intros H. injection H as <-.
    rewrite Et. cbn. exists d. repeat split; try assumption. now left.
  - destruct (String.eqb (type d) "dir"); discriminate.
Qed.

Lemma search_recursive_sound (filename : string) (items : list RepoItem)
    (p : string) :
  search_recursive filename items = Some p ->
  exists c, In c (flatten_contents items) /\ type c = "file"
            /\ name c = filename /\ path c = p.
Proof.
  intros H. destruct (first_return_some _ _ _ H) as [x [Hx Hs]].
  destruct (search_turn_sound _ _ _ Hs) as [c [Hc Hrest]].
  exists c. split; [| assumption]. apply in_flat_map. now exists x.
Qed.

(** When the files of that name all have a path, a search that returns
    nothing has passed none of them. *)
Lemma search_turn_complete (filename : string) (item : RepoItem) :
  (forall c, In c (flatten_turn item) -> type c = "file" ->
             name c = filename -> path c <> EmptyString) ->
  search_turn filename item = None ->
  forall c, In c (flatten_turn item) -> type c = "file" -> name c <> filename.
Proof.
  induction item as [d sub IH | d e] using repo_item_ind'; intros Hp;
    cbn [search_turn flatten_turn] in *;
    destruct (String.eqb (type d) "file" && String.eqb (name d) filename) eqn:Em;
    try discriminate;
    (destruct (String.eqb (type d) "dir") eqn:Ed; [| intros _ c [<- | []] Ht Hn;
       apply String.eqb_eq in Ht; apply String.eqb_eq in Hn;
       now rewrite Ht, Hn in Em]).
  - destruct (first_return (search_turn filename) sub) as [[|a q] |] eqn:E;
      try discriminate.
    + exfalso. destruct (first_return_some _ _ _ E) as [x [Hx Hs]].
      destruct (search_turn_sound _ _ _ Hs) as [c [Hc [Ht [Hn Hpath]]]].
      apply (Hp c); try assumption. apply in_flat_map. now exists x.
    + intros _ c Hc. apply in_flat_map in Hc. destruct Hc as [x [Hx Hc]].
      rewrite Forall_forall in IH. apply (IH x Hx); try assumption.
      * intros c' Hc'. apply Hp. apply in_flat_map. now exists x.
      * now apply (proj1 (first_return_none _ _) E).
  - intros _ c [].
Qed.

Lemma search_recursive_complete (filename : string) (items : list RepoItem) :
  (forall c, In c (flatten_contents items) -> type c = "file" ->
             name c = filename -> path c <> EmptyString) ->
  search_recursive filename items = None ->
  forall c, In c (flatten_contents items) -> type c = "file" ->
            name c <> filename.
Proof.
  intros Hp H c Hc. apply in_flat_map in Hc. destruct Hc as [x [Hx Hc]].
  apply (search_turn_complete filename x); try assumption.
  - intros c' Hc'. apply Hp. apply in_flat_map. now exists x.
  - now apply (proj1 (first_return_none _ _) H).
Qed.

Lemma filter_flat_map {A B : Type} (f : B -> bool) (g : A -> list B) (l : list A) :
  filter f (flat_map g l) = flat_map (fun x => filter f (g x)) l.
Proof.
  induction l as [|x l IH]; cbn [flat_map filter]; [reflexivity |].
  now rewrite filter_app, IH.
Qed.

Lemma flat_map_ext_in {A B : Type} (g h : A -> list B) (l : list A) :
  Forall (fun x => g x = h x) l -> flat_map g l = flat_map h l.
Proof.
  induction 1 as [|x l E _ IH]; cbn [flat_map]; [reflexivity | now rewrite E, IH].
Qed.

Lemma flatten_turn_without_dirs (item : RepoItem) :
  filter (fun c => negb (String.eqb (type c) "dir")) (flatten_turn_with_dirs item)
  = flatten_turn item.
Proof.
  induction item as [d sub IH | d e] using repo_item_ind';
    cbn [flatten_turn_with_dirs flatten_turn];
    destruct (String.eqb (type d) "dir") eqn:Ed; cbn [filter];
    rewrite ?Ed; cbn [negb]; try reflexivity.
  rewrite filter_flat_map. now apply flat_map_ext_in.
Qed.

End RepoFacts.

Section RepoProperties.
Import Text Structure Repo Notions RepoSamples.

Lemma entries_below_spec (item : RepoItem) (c : ContentFile) :
  In c (entries_below item) <-> reachable [item] c.
Proof.
  revert c. induction item as [d sub IH | d e] using repo_item_ind'; intros c;
    cbn [entries_below In]; rewrite reachable_item.
  - split.
    + intros [<- | H]; [now left |].
      destruct (String.eqb (type d) "dir") eqn:Ed; [| contradiction].
      apply String.eqb_eq in Ed. apply in_flat_map in H.
      destruct H as [x [Hx H]]. right. exists sub. repeat split; try assumption.
      apply reachable_some. exists x. split; [assumption |].
      rewrite Forall_forall in IH. now apply (IH x Hx).
    + intros [-> | [sub' [E [Hd Hr]]]]; [now left | right].
      injection E as <-. apply String.eqb_eq in Hd. rewrite Hd.
      apply reachable_some in Hr. destruct Hr as [x [Hx Hr]].
      apply in_flat_map. exists x. split; [assumption |].
      rewrite Forall_forall in IH. now apply (IH x Hx).
  - split.
    + intros [<- | H]; [now left |].
      destruct (String.eqb (type d) "dir"); contradiction.
    + intros [-> | [sub' [E _]]]; [now left | discriminate E].
Qed.

Lemma reachable_listed (items : list RepoItem) (c : ContentFile) :
  reachable items c <-> In c (flat_map entries_below items).
Proof.
  rewrite reachable_some, in_flat_map.
  split; intros [x [Hx H]]; exists x; split; try assumption;
    now apply entries_below_spec.
Qed.

(** X6.  The path [find_file_in_repo] returns is that of an entry of type [file]
    with the name asked for, one of the entries [analyze_repo] gathers. *)
Theorem found_file_is_listed (repo : Repository) (filename p : string) :
  find_file_in_repo repo filename = Some p ->
  exists listing c,
    repo_listing repo = Returns listing
    /\ In c listing /\ type c = "file" /\ name c = filename /\ path c = p.
Proof.
  unfold find_file_in_repo, repo_listing.
  destruct (root_contents repo) as [items | e]; [| discriminate].
  intros H. destruct (search_recursive_sound _ _ _ H) as [c Hc].
  now exists (flatten_contents items), c.
Qed.

Lemma found_file_is_listed_witness :
  exists listing c,
    repo_listing small_repo = Returns listing
    /\ In c listing /\ type c = "file" /\ name c = "main.py"
    /\ path c = "src/main.py".
Proof.
  apply (found_file_is_listed small_repo "main.py" "src/main.py").
  vm_compute. reflexivity.
Defined.

(** X8.  The entries [analyze_repo] works on are exactly those a traversal can
    get to that are not directories; a directory that cannot be listed hides
    what is below it and nothing else. *)
Theorem listing_is_what_can_be_reached (repo : Repository)
    (items : list RepoItem) :
  root_contents repo = Returns items ->
  exists listing,
    repo_listing repo = Returns listing
    /\ forall c, In c listing <-> reachable items c /\ type c <> "dir".
Proof.
  intros H. unfold repo_listing. rewrite H. eexists. split; [reflexivity |].
  apply flatten_contents_spec.
Qed.

Lemma listing_is_what_can_be_reached_witness :
  exists listing,
    repo_listing small_repo = Returns listing
    /\ forall c, In c listing <-> reachable small_tree c /\ type c <> "dir".
Proof.
  apply (listing_is_what_can_be_reached small_repo small_tree). reflexivity.
Defined.

(** X9.  In a repository of files and directories only, the report that
    [analyze_repo] builds lists every gathered entry under [files] and
    nothing under [directories]. *)
Theorem repo_report_has_no_directories (repo : Repository)
    (items : list RepoItem) (fw : option string) :
  root_contents repo = Returns items ->
  (forall c, reachable items c -> type c = "file" \/ type c = "dir") ->
  exists listing,
    repo_listing repo = Returns listing
    /\ files (analyze_structure listing fw) = map path listing
    /\ directories (analyze_structure listing fw) = [].
Proof.
  intros H Ht. unfold repo_listing. rewrite H. eexists. split; [reflexivity |].
  assert (F : forall c, In c (flatten_contents items) ->
                        String.eqb (type c) "file" = true).
  { intros c Hc. apply flatten_contents_spec in Hc. destruct Hc as [Hr Hd].
    apply String.eqb_eq. destruct (Ht c Hr); [assumption | contradiction]. }
  unfold analyze_structure. cbv zeta. cbn [files directories].
  revert F. generalize (flatten_contents items) as l.
  induction l as [|x l IH]; intros F; [split; reflexivity |].
  cbn [filter map]. rewrite (F x) by now left. cbn [negb map].
  destruct IH as [IH1 IH2]; [intros c Hc; apply F; now right |].
  now rewrite IH1, IH2.
Qed.

Lemma repo_report_has_no_directories_witness :
  exists listing,
    repo_listing small_repo = Returns listing
    /\ files (analyze_structure listing None) = map path listing
    /\ directories (analyze_structure listing None) = [].
Proof.
  apply (repo_report_has_no_directories small_repo small_tree None).
  - reflexivity.
  - intros c Hc. apply reachable_listed in Hc. vm_compute in Hc.
    destruct Hc as [<- | [<- | [<- | [<- | [<- | [<- | []]]]]]];
      vm_compute; tauto.
Defined.

(** X10.  The [structure] command reports the same files as [analyze_repo], in
    the same order; it differs only in the directories it adds. *)
Theorem both_commands_report_same_files (repo : Repository)
    (items : list RepoItem) :
  root_contents repo = Returns items ->
  exists report fw listing,
    structure_command repo = Returns (report, fw)
    /\ repo_listing repo = Returns listing
    /\ files report = files (analyze_structure listing None)
    /\ filter (fun c => negb (String.eqb (type c) "dir")) (flatten_with_dirs items)
       = listing.
Proof.
  intros H. unfold structure_command, repo_listing. rewrite H. cbv zeta.
  do 3 eexists. split; [reflexivity |]. split; [reflexivity |].
  assert (E : filter (fun c => negb (String.eqb (type c) "dir"))
                (flatten_with_dirs items) = flatten_contents items).
  { unfold flatten_with_dirs, flatten_contents. rewrite filter_flat_map.
    apply flat_map_ext_in, Forall_forall. intros x _.
    apply flatten_turn_without_dirs. }
  split; [| exact E].
  unfold analyze_structure. cbv zeta. cbn [files]. rewrite <- E. f_equal.
  generalize (flatten_with_dirs items) as l.
  induction l as [|x l IH]; [reflexivity |]. cbn [filter].
  destruct (String.eqb (type x) "dir") eqn:Ed; cbn [negb filter].
  - apply String.eqb_eq in Ed. rewrite Ed. cbn. exact IH.
  - destruct (String.eqb (type x) "file"); [f_equal |]; exact IH.
Qed.

Lemma both_commands_report_same_files_witness :
  exists report fw listing,
    structure_command small_repo = Returns (report, fw)
    /\ repo_listing small_repo = Returns listing
    /\ files report = files (analyze_structure listing None)
    /\ filter (fun c => negb (String.eqb (type c) "dir"))
         (flatten_with_dirs small_tree) = listing.
Proof.
  apply (both_commands_report_same_files small_repo small_tree). reflexivity.
Defined.

End RepoProperties.

(** ** Repository URLs and access *)
Section AccessProperties.
Import Text Repo Notions RepoSamples.

Lemma replace_scan_skips (old new s1 s2 : string) :
  replace_scan old new (String.length s1) (s1 +++ s2) = replace_scan old new 0 s2.
Proof.
  induction s1 as [|c s1 IH]; [reflexivity | exact IH].
Qed.

Lemma replace_scan_absent (old new s : string) :
  str_in old s = false -> replace_scan old new 0 s = s.
Proof.
  induction s as [|c s IH]; [reflexivity |].
  cbn [str_in replace_scan]. intros H. apply orb_false_iff in H.
  destruct H as [H1 H2]. rewrite H1. f_equal. now apply IH.
Qed.

Lemma replace_prefix (old p : string) :
  old <> EmptyString -> str_in old p = false ->
  replace (old +++ p) old EmptyString = p.
Proof.
  intros Ho Hp. destruct old as [|a old]; [contradiction |].
  unfold replace. cbn [append replace_scan].
  assert (S : startswith (String a (old +++ p)) (String a old) = true)
    by (apply startswith_spec; now exists p).
  rewrite S.
  replace (String.length (String a old) - 1) with (String.length old)
    by (cbn [String.length]; lia).
  cbn [append]. rewrite replace_scan_skips. now apply replace_scan_absent.
Qed.

Lemma all_chars_app (q : ascii -> bool) (a b : string) :
  all_chars q (a +++ b) = all_chars q a && all_chars q b.
Proof.
  induction a as [|c a IH]; cbn [append all_chars]; [reflexivity |].
  now rewrite IH, andb_assoc.
Qed.

Lemma all_chars_weaken (q q' : ascii -> bool) (s : string) :
  (forall c, q c = true -> q' c = true) ->
  all_chars q s = true -> all_chars q' s = true.
Proof.
  intros W. induction s as [|c s IH]; [reflexivity |]. cbn [all_chars].
  intros H. apply andb_true_iff in H. destruct H as [H1 H2].
  now rewrite (W c H1), IH.
Qed.

(** A text whose characters are all of a class holds no text that has a
    character outside it. *)
Lemma absent_by_class (q : ascii -> bool) (old s : string) :
  all_chars q s = true -> all_chars q old = false -> str_in old s = false.
Proof.
  intros Hs Ho. destruct (str_in old s) eqn:E; [| reflexivity].
  apply str_in_spec in E. destruct E as [pre [post ->]].
  rewrite !all_chars_app in Hs. apply andb_true_iff in Hs.
  destruct Hs as [_ Hs]. apply andb_true_iff in Hs. destruct Hs as [Hs _].
  congruence.
Qed.

Lemma strip_git_suffix (p : string) :
  all_chars (is_not ".") p = true ->
  replace_scan ".git" EmptyString 0 (p +++ ".git") = p.
Proof.
  induction p as [|c p IH]; [reflexivity |].
  cbn [all_chars]. intros H. apply andb_true_iff in H. destruct H as [Hc Hp].
  cbn [append replace_scan startswith].
  unfold is_not in Hc. apply negb_true_iff in Hc.
  rewrite Ascii.eqb_sym, Hc. cbn [andb]. f_equal. now apply IH.
Qed.

Lemma string_snoc (s : string) :
  s <> EmptyString -> exists s' c, s = s' +++ String c EmptyString.
Proof.
  induction s as [|a s IH]; [contradiction |]. intros _.
  destruct s as [|b s].
  - now exists EmptyString, a.
  - destruct IH as [s' [c E]]; [discriminate |].
    exists (String a s'), c. cbn [append]. now rewrite <- E.
Qed.

Lemma rstrip_chars_keeps (s chars : string) (c : ascii) :
  char_in c chars = false ->
  rstrip_chars (s +++ String c EmptyString) chars = s +++ String c EmptyString.
Proof.
  intros Hc. induction s as [|a s IH]; cbn [append rstrip_chars].
  - now rewrite Hc.
  - rewrite IH. now destruct s.
Qed.

Lemma rstrip_chars_drops (s chars : string) (c d : ascii) :
  char_in c chars = false -> char_in d chars = true ->
  rstrip_chars (s +++ String c (String d EmptyString)) chars
  = s +++ String c EmptyString.
Proof.
  intros Hc Hd. induction s as [|a s IH]; cbn [append rstrip_chars].
  - now rewrite Hd, Hc.
  - rewrite IH. now destruct s.
Qed.

Lemma not_slash (c : ascii) : is_not "/" c = true -> char_in c "/" = false.
Proof.
  unfold is_not, char_in. intros H. apply negb_true_iff in H.
  cbn [str_in startswith]. rewrite H. reflexivity.
Qed.

(** X11.  The repository path is read back from the usual forms of a GitHub URL,
    with a [.git] suffix or a closing slash or neither, for owner and
    repository names without dot, slash or colon. *)
Theorem repo_path_of_url (owner repo : string) :
  owner <> EmptyString -> repo <> EmptyString ->
  all_chars plain_name_char owner = true ->
  all_chars plain_name_char repo = true ->
  repo_path_of ("https://github.com/" +++ owner +++ "/" +++ repo)
  = Some (owner +++ "/" +++ repo)
  /\ repo_path_of ("https://github.com/" +++ (owner +++ "/" +++ repo) +++ ".git")
     = Some (owner +++ "/" +++ repo)
  /\ repo_path_of ("https://github.com/" +++ (owner +++ "/" +++ repo) +++ "/")
     = Some (owner +++ "/" +++ repo).
Proof.
  intros Ho Hr Ao Ar. set (p := owner +++ "/" +++ repo).
  assert (W : forall a, In a ["."; "/"; ":"]%char ->
              forall s, all_chars plain_name_char s = true ->
                        all_chars (is_not a) s = true).
  { intros a Ha s. apply all_chars_weaken. intros c. unfold plain_name_char, is_not.
    intros H. apply andb_true_iff in H. destruct H as [H H3].
    apply andb_true_iff in H. destruct H as [H1 H2].
    cbn [In] in Ha. destruct Ha as [<- | [<- | [<- | []]]]; assumption. }
  assert (Wdot := W "."%char (or_introl eq_refl)).
  assert (Wslash := W "/"%char (or_intror (or_introl eq_refl))).
  assert (Wcolon := W ":"%char (or_intror (or_intror (or_introl eq_refl)))).
  assert (Dp : all_chars (is_not ".") p = true).
  { unfold p. rewrite !all_chars_app, (Wdot _ Ao), (Wdot _ Ar). reflexivity. }
  assert (Cp : all_chars (is_not ":") p = true).
  { unfold p. rewrite !all_chars_app, (Wcolon _ Ao), (Wcolon _ Ar). reflexivity. }
  assert (G : forall tail, str_in "github.com" ("https://github.com/" +++ tail) = true).
  { intros tail. apply str_in_spec. now exists "https://", ("/" +++ tail). }
  assert (Pre : forall tail, all_chars (is_not ":") tail = true ->
                replace ("https://github.com/" +++ tail) "https://github.com/"
                  EmptyString = tail).
  { intros tail Ht. apply replace_prefix; [discriminate |].
    now apply (absent_by_class (is_not ":")). }
  assert (Git : forall tail, all_chars (is_not ".") tail = true ->
                replace tail ".git" EmptyString = tail).
  { intros tail Ht. unfold replace. apply replace_scan_absent.
    now apply (absent_by_class (is_not ".")). }
  destruct owner as [|o owner']; [contradiction |].
  destruct (string_snoc repo Hr) as [repo' [z Ez]].
  assert (Hz : char_in z "/" = false).
  { apply not_slash. pose proof (Wslash _ Ar) as A.
    rewrite Ez, all_chars_app in A. apply andb_true_iff in A.
    destruct A as [_ A]. cbn [all_chars] in A. now rewrite andb_true_r in A. }
  assert (Hfirst : char_in o "/" = false).
  { apply not_slash. pose proof (Wslash _ Ao) as A.
    cbn [all_chars] in A. now apply andb_true_iff in A. }
  assert (Ep : p = (String o owner' +++ "/" +++ repo') +++ String z EmptyString).
  { unfold p. rewrite Ez. now rewrite !append_assoc. }
  assert (L : forall tail, lstrip_chars (p +++ tail) "/" = p +++ tail).
  { intros tail. unfold p. cbn [append lstrip_chars]. now rewrite Hfirst. }
  assert (Strip : strip_chars p "/" = p).
  { unfold strip_chars. rewrite <- (append_empty_r p) at 1. rewrite L, append_empty_r.
    rewrite Ep. now apply rstrip_chars_keeps. }
  assert (Strip2 : strip_chars (p +++ "/") "/" = p).
  { unfold strip_chars. rewrite L, Ep, append_assoc.
    exact (rstrip_chars_drops _ "/" z "/"%char Hz eq_refl). }
  unfold repo_path_of. rewrite !G. cbn [negb]. split; [| split].
  - rewrite (Pre p Cp), (Git p Dp), Strip. reflexivity.
  - rewrite (Pre (p +++ ".git")) by (rewrite all_chars_app, Cp; reflexivity).
    unfold replace. rewrite (strip_git_suffix p Dp), Strip. reflexivity.
  - rewrite (Pre (p +++ "/")) by (rewrite all_chars_app, Cp; reflexivity).
    rewrite (Git (p +++ "/")) by (rewrite all_chars_app, Dp; reflexivity).
    rewrite Strip2. reflexivity.
Qed.

Lemma repo_path_of_url_witness :
  repo_path_of ("https://github.com/" +++ "jeeems" +++ "/" +++ "devbot")
  = Some ("jeeems" +++ "/" +++ "devbot")
  /\ repo_path_of ("https://github.com/" +++ ("jeeems" +++ "/" +++ "devbot") +++ ".git")
     = Some ("jeeems" +++ "/" +++ "devbot")
  /\ repo_path_of ("https://github.com/" +++ ("jeeems" +++ "/" +++ "devbot") +++ "/")
     = Some ("jeeems" +++ "/" +++ "devbot").
Proof.
  apply (repo_path_of_url "jeeems" "devbot"); [discriminate | discriminate | |];
    vm_compute; reflexivity.
Defined.

(** X12.  [check_repo_access] hands back either a repository and no error, or no
    repository and an error text that is not empty, so that the callers'
    test [if error:] tells the two apart; it succeeds exactly when there is
    a client, the repository is found and its root can be listed. *)
Theorem access_gives_repo_or_error
    (github_client : option (string -> outcome Repository)) (repo_path : string) :
  (exists get_repo repo listing,
     github_client = Some get_repo
     /\ get_repo repo_path = Returns repo
     /\ root_contents repo = Returns listing
     /\ check_repo_access github_client repo_path = (Some repo, None))
  \/ (exists error c rest,
        check_repo_access github_client repo_path = (None, Some error)
        /\ error = String c rest
        /\ forall get_repo repo listing,
             github_client = Some get_repo ->
             get_repo repo_path = Returns repo ->
             root_contents repo <> Returns listing).
Proof.
  unfold check_repo_access. destruct github_client as [get_repo |].
  - destruct (get_repo repo_path) as [repo | e] eqn:Eg.
    + destruct (root_contents repo) as [listing | e] eqn:Er.
      * left. now exists get_repo, repo, listing.
      * right.
        assert (N : forall g r l, Some get_repo = Some g ->
                      g repo_path = Returns r -> root_contents r <> Returns l).
        { intros g r l Hg Hr. injection Hg as <-. rewrite Eg in Hr.
          injection Hr as <-. rewrite Er. discriminate. }
        destruct (str_in "404" e); [| destruct (str_in "401" e)];
          eexists _, _, _; (split; [reflexivity |]); (split; [reflexivity |]);
          exact N.
    + right.
      assert (N : forall g r l, Some get_repo = Some g ->
                    g repo_path = Returns r -> root_contents r <> Returns l).
      { intros g r l Hg Hr. injection Hg as <-. rewrite Eg in Hr. discriminate. }
      destruct (str_in "404" e); [| destruct (str_in "401" e)];
        eexists _, _, _; (split; [reflexivity |]); (split; [reflexivity |]);
        exact N.
  - right. eexists _, _, _. split; [reflexivity |]. split; [reflexivity |].
    intros g r l H. discriminate H.
Qed.

End AccessProperties.

(** ** The files the commands analyze *)
Section PipelineProperties.
Import Text Structure Analyzers Cogs Notions Samples RepoSamples.

Variable ast_parse : string -> outcome (list Ast.node).

(** [file_ext] after the first loop is the extension of the last entry of
    type [file]. *)
Lemma select_files_ext (all_repo_contents : list ContentFile) :
  (snd (select_files all_repo_contents) = None
   /\ forall x, In x all_repo_contents -> type x <> "file")
  \/ exists before last_file after,
       all_repo_contents = before ++ last_file :: after
       /\ type last_file = "file"
       /\ (forall x, In x after -> type x <> "file")
       /\ snd (select_files all_repo_contents) = Some (ext_of last_file).
Proof.
  induction all_repo_contents as [|x l IH] using rev_ind.
  - left. split; [reflexivity | intros x []].
  - unfold select_files in *. rewrite fold_left_app. cbn [fold_left].
    destruct (String.eqb (type x) "file") eqn:Ex.
    + right. exists l, x, []. apply String.eqb_eq in Ex.
      repeat split; try assumption; [intros y [] |].
      fold (ext_of x). now destruct (has_ext (ext_of x)).
    + apply String.eqb_neq in Ex. destruct IH as [[E H] | [b [f [a [-> [Hf [Ha E]]]]]]].
      * left. split; [assumption |]. intros y Hy. apply in_app_or in Hy.
        destruct Hy as [Hy | [<- | []]]; [now apply H | assumption].
      * right. exists b, f, (a ++ [x]). rewrite <- app_assoc. cbn [app].
        repeat split; try assumption.
        intros y Hy. apply in_app_or in Hy.
        destruct Hy as [Hy | [<- | []]]; [now apply Ha | assumption].
Qed.

(** X13.  Every file [analyze_repo] analyzes is labelled with the language of
    the extension of the last file of the listing, whatever its own name:
    the second loop reads [file_ext] as the first loop left it. *)
Theorem analyzed_files_share_last_extension
    (all_repo_contents : list ContentFile) (entry : AnalyzedFile) :
  In entry (analyzed_files ast_parse all_repo_contents) ->
  exists before last_file after,
    all_repo_contents = before ++ last_file :: after
    /\ type last_file = "file"
    /\ (forall x, In x after -> type x <> "file")
    /\ lookup (lower (splitext_ext (name last_file))) supported_extensions
       = Some (file_language entry).
Proof.
  unfold analyzed_files.
  destruct (select_files_ext all_repo_contents)
    as [[E _] | [b [f [a [Hc [Hf [Ha E]]]]]]];
    destruct (select_files all_repo_contents) as [selected ext];
    cbn [snd] in E; subst ext; [contradiction |].
  intros H. apply in_flat_map in H. destruct H as [content_file [_ H]].
  unfold analyze_one in H.
  destruct (decoded_content content_file); [| contradiction].
  destruct (lookup (ext_of f) supported_extensions) as [language |] eqn:L;
    [| contradiction].
  destruct (dispatch ast_parse (ext_of f) language s); [| contradiction].
  destruct H as [<- | []]. exists b, f, a. now repeat split.
Qed.

(** X14.  When the last file of the listing has no supported extension, no file
    at all is analyzed. *)
Theorem unsupported_last_file_stops_analysis
    (before after : list ContentFile) (last_file : ContentFile) :
  type last_file = "file" ->
  (forall x, In x after -> type x <> "file") ->
  lookup (lower (splitext_ext (name last_file))) supported_extensions = None ->
  analyzed_files ast_parse (before ++ last_file :: after) = [].
Proof.
  intros Hf Ha Hn. unfold analyzed_files.
  destruct (select_files_ext (before ++ last_file :: after))
    as [[_ H] | [b [f [a [Hc [Hf' [Ha' E]]]]]]].
  - exfalso. apply (H last_file); [| assumption].
    apply in_or_app. right. now left.
  - assert (f = last_file) as ->.
    { clear E. revert b Hc. induction before as [|y before IH]; intros b Hc.
      - destruct b as [|z b]; cbn [app] in Hc.
        + now injection Hc.
        + injection Hc as <- Hc. exfalso. apply (Ha f); [| assumption].
          rewrite Hc. apply in_or_app. right. now left.
      - destruct b as [|z b]; cbn [app] in Hc.
        + injection Hc as <- Hc. exfalso. apply (Ha' last_file); [| assumption].
          rewrite <- Hc. apply in_or_app. right. now left.
        + injection Hc as _ Hc. now apply (IH b). }
    destruct (select_files (before ++ last_file :: after)) as [selected ext].
    cbn [snd] in E. subst ext.
    induction (firstn 20 selected) as [|x l IH]; [reflexivity |].
    cbn [flat_map]. rewrite IH, app_nil_r. unfold analyze_one.
    destruct (decoded_content x); [| reflexivity].
    unfold ext_of. now rewrite Hn.
Qed.

(** X15.  At most twenty files are analyzed. *)
Theorem at_most_twenty_analyzed (all_repo_contents : list ContentFile) :
  List.length (analyzed_files ast_parse all_repo_contents) <= 20.
Proof.
  unfold analyzed_files.
  destruct (select_files all_repo_contents) as [selected [ext |]];
    [| cbn; lia].
  assert (B : forall l, List.length (flat_map (analyze_one ast_parse ext) l)
                        <= List.length l).
  { induction l as [|x l IH]; [reflexivity |].
    cbn [flat_map]. rewrite length_app. cbn [List.length].
    assert (List.length (analyze_one ast_parse ext x) <= 1); [| lia].
    unfold analyze_one. destruct (decoded_content x); [| cbn; lia].
    destruct (lookup ext supported_extensions); [| cbn; lia].
    destruct (dispatch ast_parse ext s0 s); cbn; lia. }
  etransitivity; [apply B |]. rewrite length_firstn. lia.
Qed.

End PipelineProperties.

Lemma analyzed_files_share_last_extension_witness :
  exists before last_file after,
    RepoSamples.py_then_ts = before ++ last_file :: after
    /\ type last_file = "file"
    /\ (forall x, In x after -> type x <> "file")
    /\ Structure.lookup (Text.lower (Cogs.splitext_ext (name last_file)))
         Analyzers.supported_extensions
       = Some (Cogs.file_language RepoSamples.py_entry_of_py_then_ts).
Proof.
  apply (analyzed_files_share_last_extension Samples.sample_parse
           RepoSamples.py_then_ts RepoSamples.py_entry_of_py_then_ts).
  vm_compute. left. reflexivity.
Defined.

Lemma unsupported_last_file_stops_analysis_witness :
  Cogs.analyzed_files Samples.sample_parse
    ([mkContent "tool.py" "file" "tool.py" (Some Samples.foo_source)]
     ++ mkContent "LICENSE" "file" "LICENSE" (Some "MIT") :: []) = [].
Proof.
  apply (unsupported_last_file_stops_analysis Samples.sample_parse).
  - reflexivity.
  - intros x [].
  - vm_compute. reflexivity.
Defined.

(** ** The sizes of the chunks *)
Section ChunkSizes.
Import Text Cogs.

Lemma take_length (n : nat) (s : string) :
  String.length (take n s) = Nat.min n (String.length s).
Proof.
  revert s. induction n as [|n IH]; intros s; [reflexivity |].
  destruct s as [|c s]; [reflexivity |]. cbn [take String.length Nat.min].
  now rewrite IH.
Qed.

Lemma drop_length (n : nat) (s : string) :
  String.length (drop n s) = String.length s - n.
Proof.
  revert s. induction n as [|n IH]; intros s; [cbn; lia |].
  destruct s as [|c s]; [reflexivity |]. cbn [drop String.length Nat.sub].
  apply IH.
Qed.

Lemma chunk_starts_inside (len size k : nat) :
  0 < size -> k < (len + size - 1) / size -> k * size < len.
Proof.
  intros Hs Hk.
  pose proof (Nat.Div0.mul_div_le (len + size - 1) size) as M.
  nia.
Qed.

(** X16.  A response is cut into as many chunks as it has started stretches of
    2000 characters; each chunk is a stretch of the response that is not
    empty and not longer than 2000, and only one that reaches the end of
    the response is shorter. *)
Theorem chunk_sizes (response : string) :
  List.length (chunks max_length response)
  = (String.length response + max_length - 1) / max_length
  /\ forall chunk,
       In chunk (chunks max_length response) ->
       exists k,
         chunk = slice response (k * max_length) (k * max_length + max_length)
         /\ 0 < String.length chunk <= max_length
         /\ String.length chunk
            = Nat.min max_length (String.length response - k * max_length).
Proof.
  assert (P : 0 < max_length) by (unfold max_length; lia).
  unfold chunks, range0. split; [now rewrite !length_map, length_seq |].
  intros chunk H. apply in_map_iff in H. destruct H as [i [<- H]].
  apply in_map_iff in H. destruct H as [k [<- H]]. apply in_seq in H.
  exists k. split; [reflexivity |].
  pose proof (chunk_starts_inside (String.length response) max_length k P
                ltac:(lia)) as I.
  unfold slice. rewrite take_length, drop_length.
  replace (k * max_length + max_length - k * max_length) with max_length by lia.
  lia.
Qed.

End ChunkSizes.

(** ** What the Python analyzer reads off the tree *)
Section TreeFacts.
Import Text Ast Analyzers Notions.

Lemma subnodes_unfold (n : node) :
  subnodes n = n :: flat_map subnodes (child_nodes n).
Proof. destruct n; reflexivity. Qed.

(** The walk yields every node of the tree, once. *)
Lemma bfs_permutation (fuel : nat) (todo : list node) :
  forest_size todo <= fuel ->
  Permutation (bfs fuel todo) (flat_map subnodes todo).
Proof.
  revert todo. induction fuel as [|fuel IH]; intros todo H.
  - destruct todo as [|n todo]; [constructor |].
    rewrite forest_size_cons in H. lia.
  - destruct todo as [|n todo]; [constructor |].
    rewrite forest_size_cons in H. cbn [bfs flat_map].
    rewrite subnodes_unfold. cbn [app]. constructor.
    etransitivity; [apply IH; lia |].
    rewrite flat_map_app. apply Permutation_app_comm.
Qed.

Lemma walk_nodes (body : list node) (n : node) :
  In n (walk body) <-> In n (tree_nodes body).
Proof.
  pose proof (bfs_permutation (forest_size body) body (le_n _)) as P.
  split; apply Permutation_in; [exact P | now apply Permutation_sym].
Qed.

Lemma in_function_names (nodes : list node) (f : string) :
  In f (flat_map function_name nodes)
  <-> exists cs, In (FunctionDef f cs) nodes.
Proof.
  rewrite in_flat_map. split.
  - intros [n [Hn H]]. destruct n; try contradiction.
    destruct H as [<- | []]. now exists children.
  - intros [cs H]. exists (FunctionDef f cs). split; [assumption | now left].
Qed.

Lemma in_class_names (nodes : list node) (f : string) :
  In f (flat_map class_name nodes) <-> exists cs, In (ClassDef f cs) nodes.
Proof.
  rewrite in_flat_map. split.
  - intros [n [Hn H]]. destruct n; try contradiction.
    destruct H as [<- | []]. now exists children.
  - intros [cs H]. exists (ClassDef f cs). split; [assumption | now left].
Qed.

Lemma in_name_ids (nodes : list node) (x : string) :
  In x (flat_map name_id nodes) <-> exists c, In (Name x c) nodes.
Proof.
  rewrite in_flat_map. split.
  - intros [n [Hn H]]. destruct n; try contradiction.
    destruct H as [<- | []]. now exists ctx.
  - intros [c H]. exists (Name x c). split; [assumption | now left].
Qed.

Lemma in_referenced_names (nodes : list node) (x : string) :
  In x (flat_map referenced_name nodes)
  <-> (exists c args, In (Call (Name x c) args) nodes) \/ In (Name x Load) nodes.
Proof.
  rewrite in_flat_map. split.
  - intros [n [Hn H]]. destruct n as [| | | | id c | f args |]; try contradiction.
    + destruct c; try contradiction. destruct H as [<- | []]. now right.
    + destruct f; try contradiction. destruct H as [<- | []].
      left. now exists ctx, args.
  - intros [[c [args H]] | H].
    + exists (Call (Name x c) args). split; [assumption | now left].
    + exists (Name x Load). split; [assumption | now left].
Qed.

Lemma in_import_names (nodes : list node) (x : string) :
  In x (flat_map import_names nodes)
  <-> exists names a,
        In a names /\ bound_name a = x
        /\ (In (Import names) nodes
            \/ exists c m, In (ImportFrom (Some (String c m)) names) nodes).
Proof.
  rewrite in_flat_map. split.
  - intros [n [Hn H]]. destruct n as [names | m names | | | | |];
      try contradiction.
    + apply in_map_iff in H. destruct H as [a [Ha Hin]].
      exists names, a. repeat split; try assumption. now left.
    + destruct m as [[|c m] |]; try contradiction.
      apply in_map_iff in H. destruct H as [a [Ha Hin]].
      exists names, a. repeat split; try assumption. right. now exists c, m.
  - intros [names [a [Ha [Hb [H | [c [m H]]]]]]].
    + exists (Import names). split; [assumption |].
      apply in_map_iff. now exists a.
    + exists (ImportFrom (Some (String c m)) names). split; [assumption |].
      apply in_map_iff. now exists a.
Qed.

Lemma dedup_NoDup (l : list string) : NoDup (dedup l).
Proof.
  induction l as [|x l IH]; cbn [dedup]; [constructor |].
  destruct (mem x l) eqn:E; [assumption |].
  constructor; [| assumption]. rewrite dedup_In. now apply mem_false.
Qed.

End TreeFacts.

Section TreeProperties.
Import Text Ast Analyzers Notions Samples.

Variable ast_parse : string -> outcome (list node).

(** X17.  [functions] and [classes] hold the names of the function and class
    definitions found anywhere in the tree, nested ones included. *)
Theorem definitions_anywhere_are_listed (content : string) (body : list node) :
  ast_parse content = Returns body ->
  exists py,
    analyze_python_file ast_parse content = Returns py
    /\ (forall f, In f (field "functions" py)
                  <-> exists cs, In (FunctionDef f cs) (tree_nodes body))
    /\ (forall c, In c (field "classes" py)
                  <-> exists cs, In (ClassDef c cs) (tree_nodes body)).
Proof.
  intros H. unfold analyze_python_file, analyze_python_body. rewrite H.
  eexists. split; [reflexivity |]. read_fields. split.
  - intros f. rewrite in_function_names.
    split; intros [cs Hc]; exists cs; now apply walk_nodes.
  - intros c. rewrite in_class_names.
    split; intros [cs Hc]; exists cs; now apply walk_nodes.
Qed.

(** X18.  A function is reported unused exactly when it is defined at the top
    level of the module, no call anywhere in the tree has its bare name as
    callee, its name is read nowhere, and no class has its name.  A call of
    the function from its own body counts as a use, and a nested function or
    a method is never reported. *)
Theorem unused_function_iff (content : string) (body : list node) :
  ast_parse content = Returns body ->
  exists py,
    analyze_python_file ast_parse content = Returns py
    /\ forall f,
         In f (field "unused_functions" py)
         <-> (exists cs, In (FunctionDef f cs) body)
             /\ (forall c args, ~ In (Call (Name f c) args) (tree_nodes body))
             /\ ~ In (Name f Load) (tree_nodes body)
             /\ (forall cs, ~ In (ClassDef f cs) (tree_nodes body)).
Proof.
  intros H. unfold analyze_python_file, analyze_python_body. rewrite H.
  eexists. split; [reflexivity |]. read_fields. intros f.
  rewrite filter_In, dedup_In, in_function_names, andb_true_iff,
    !negb_true_iff, !mem_false, in_referenced_names, in_class_names.
  split.
  - intros [Hd [Hr Hc]]. split; [assumption |]. repeat split.
    + intros c args Hin. apply Hr. left. exists c, args. now apply walk_nodes.
    + intros Hin. apply Hr. right. now apply walk_nodes.
    + intros cs Hin. apply Hc. exists cs. now apply walk_nodes.
  - intros [Hd [Hcall [Hread Hc]]]. split; [assumption |]. split.
    + intros [[c [args Hin]] | Hin].
      * apply (Hcall c args). now apply walk_nodes.
      * apply Hread. now apply walk_nodes.
    + intros [cs Hin]. apply (Hc cs). now apply walk_nodes.
Qed.

(** X19.  [imports] holds the bound name (the alias when there is one) of every
    import anywhere in the tree, except those of a [from . import] without
    module; an import is reported unused exactly when no [Name] node of the
    tree has its bound name, whatever the scope. *)
Theorem imports_and_unused_imports (content : string) (body : list node) :
  ast_parse content = Returns body ->
  exists py,
    analyze_python_file ast_parse content = Returns py
    /\ (forall x,
          In x (field "imports" py)
          <-> exists names a,
                In a names /\ bound_name a = x
                /\ (In (Import names) (tree_nodes body)
                    \/ exists c m,
                         In (ImportFrom (Some (String c m)) names)
                            (tree_nodes body)))
    /\ (forall x,
          In x (field "unused_imports" py)
          <-> In x (field "imports" py)
              /\ forall c, ~ In (Name x c) (tree_nodes body)).
Proof.
  intros H. unfold analyze_python_file, analyze_python_body. rewrite H.
  eexists. split; [reflexivity |]. read_fields. split.
  - intros x. rewrite in_import_names.
    split; intros [names [a [Ha [Hb Hn]]]]; exists names, a;
      (repeat split; try assumption);
      (destruct Hn as [Hn | [c [m Hn]]];
       [left | right; exists c, m]; now apply walk_nodes).
  - intros x. rewrite filter_In, negb_true_iff, mem_false, in_name_ids.
    split; intros [Hi Hn]; (split; [assumption |]).
    + intros c Hin. apply Hn. exists c. now apply walk_nodes.
    + intros [c Hin]. apply (Hn c). now apply walk_nodes.
Qed.

(** X20.  A finding has the key [error] exactly when the parse raised, and then
    it has no [functions] key; and no function is reported unused twice. *)
Theorem error_key_iff_parse_raises (content : string) :
  exists py,
    analyze_python_file ast_parse content = Returns py
    /\ (has_key "error" py = true <-> exists e, ast_parse content = Raises e)
    /\ (has_key "error" py = true -> has_key "functions" py = false)
    /\ NoDup (field "unused_functions" py).
Proof.
  unfold analyze_python_file, analyze_python_body.
  destruct (ast_parse content) as [body | e].
  - eexists. split; [reflexivity |]. read_fields. split; [| split].
    + split; [discriminate | intros [e E]; discriminate E].
    + discriminate.
    + apply NoDup_filter, dedup_NoDup.
  - eexists. split; [reflexivity |]. read_fields. split; [| split].
    + split; [intros _; now exists e | reflexivity].
    + reflexivity.
    + constructor.
Qed.

End TreeProperties.

Lemma definitions_anywhere_are_listed_witness :
  exists py,
    Analyzers.analyze_python_file TreeSamples.module_parse TreeSamples.module_text
      = Returns py
    /\ (forall f, In f (field "functions" py)
                  <-> exists cs, In (Ast.FunctionDef f cs)
                                    (Notions.tree_nodes TreeSamples.module_tree))
    /\ (forall c, In c (field "classes" py)
                  <-> exists cs, In (Ast.ClassDef c cs)
                                    (Notions.tree_nodes TreeSamples.module_tree)).
Proof.
  apply (definitions_anywhere_are_listed TreeSamples.module_parse
           TreeSamples.module_text TreeSamples.module_tree).
  vm_compute. reflexivity.
Defined.

Lemma unused_function_iff_witness :
  exists py,
    Analyzers.analyze_python_file TreeSamples.module_parse TreeSamples.module_text
      = Returns py
    /\ forall f,
         In f (field "unused_functions" py)
         <-> (exists cs, In (Ast.FunctionDef f cs) TreeSamples.module_tree)
             /\ (forall c args,
                   ~ In (Ast.Call (Ast.Name f c) args)
                        (Notions.tree_nodes TreeSamples.module_tree))
             /\ ~ In (Ast.Name f Ast.Load) (Notions.tree_nodes TreeSamples.module_tree)
             /\ (forall cs, ~ In (Ast.ClassDef f cs)
                                 (Notions.tree_nodes TreeSamples.module_tree)).
Proof.
  apply (unused_function_iff TreeSamples.module_parse TreeSamples.module_text
           TreeSamples.module_tree).
  vm_compute. reflexivity.
Defined.

Lemma imports_and_unused_imports_witness :
  exists py,
    Analyzers.analyze_python_file TreeSamples.module_parse TreeSamples.module_text
      = Returns py
    /\ (forall x,
          In x (field "imports" py)
          <-> exists names a,
                In a names /\ Analyzers.bound_name a = x
                /\ (In (Ast.Import names) (Notions.tree_nodes TreeSamples.module_tree)
                    \/ exists c m,
                         In (Ast.ImportFrom (Some (String c m)) names)
                            (Notions.tree_nodes TreeSamples.module_tree)))
    /\ (forall x,
          In x (field "unused_imports" py)
          <-> In x (field "imports" py)
              /\ forall c, ~ In (Ast.Name x c)
                                (Notions.tree_nodes TreeSamples.module_tree)).
Proof.
  apply (imports_and_unused_imports TreeSamples.module_parse TreeSamples.module_text
           TreeSamples.module_tree).
  vm_compute. reflexivity.
Defined.

(** ** What the patterns take and capture *)
Section CaptureFacts.
Import Text Re Analyzers Notions.

Lemma star_denotes (p : ascii -> bool) (k : mstate -> option mstate)
    (cs : list (nat * string)) (s : string) :
  forall pv st',
    star p k cs pv s = Some st' ->
    exists pv1 s1 consumed,
      k (mkState pv1 s1 cs) = Some st' /\ s = consumed +++ s1
      /\ all_chars p consumed = true.
Proof.
  induction s as [|c s IH]; intros pv st' H; cbn [star] in H.
  - now exists pv, EmptyString, EmptyString.
  - destruct (p c) eqn:Ep.
    + destruct (star p k cs (Some c) s) as [st2 |] eqn:E.
      * injection H as ->. destruct (IH _ _ E) as [pv1 [s1 [consumed [Hk [-> Ha]]]]].
        exists pv1, s1, (String c consumed). cbn [all_chars]. now rewrite Ep, Ha.
      * now exists pv, (String c s), EmptyString.
    + now exists pv, (String c s), EmptyString.
Qed.

Lemma lazy_star_denotes (p : ascii -> bool) (k : mstate -> option mstate)
    (cs : list (nat * string)) (s : string) :
  forall pv st',
    lazy_star p k cs pv s = Some st' ->
    exists pv1 s1 consumed,
      k (mkState pv1 s1 cs) = Some st' /\ s = consumed +++ s1
      /\ all_chars p consumed = true.
Proof.
  induction s as [|c s IH]; intros pv st' H; cbn [lazy_star] in H.
  - destruct (k (mkState pv EmptyString cs)) as [st2 |] eqn:E; [| discriminate].
    injection H as ->. now exists pv, EmptyString, EmptyString.
  - destruct (k (mkState pv (String c s) cs)) as [st2 |] eqn:E.
    + injection H as ->. now exists pv, (String c s), EmptyString.
    + destruct (p c) eqn:Ep; [| discriminate].
      destruct (IH _ _ H) as [pv1 [s1 [consumed [Hk [-> Ha]]]]].
      exists pv1, s1, (String c consumed). cbn [all_chars]. now rewrite Ep, Ha.
Qed.

(** What a match hands to its continuation: the text it took is one the
    pattern denotes, and a group holds either what it held before or a text
    the pattern can capture for it. *)
Lemma run_denotes (r : regex) :
  forall k st st',
    run r k st = Some st' ->
    exists st1 consumed,
      k st1 = Some st'
      /\ rest st = consumed +++ rest st1
      /\ denotes r consumed
      /\ forall n v, assoc n (caps st1) = Some v ->
                     assoc n (caps st) = Some v \/ may_capture n r v.
Proof.
  induction r as [| p | r1 IH1 r2 IH2 | r1 IH1 r2 IH2 | r1 IH1 | p | p
                  | m r1 IH1 | | r1 IH1];
    intros k st st' H; cbn [run] in H.
  - exists st, EmptyString. cbn [denotes]. repeat split; auto.
  - destruct st as [pv s cs]; cbn [rest caps] in *.
    destruct s as [|c s]; [discriminate |].
    destruct (p c) eqn:Ep; [| discriminate].
    eexists _, (String c EmptyString). split; [exact H |].
    cbn [rest caps denotes]. repeat split; auto. now exists c.
  - destruct (IH1 _ _ _ H) as [st1 [c1 [H1 [E1 [D1 G1]]]]].
    destruct (IH2 _ _ _ H1) as [st2 [c2 [H2 [E2 [D2 G2]]]]].
    exists st2, (c1 +++ c2). split; [assumption |].
    split; [now rewrite append_assoc, <- E2 |].
    split; [cbn [denotes]; now exists c1, c2 |].
    intros n v Hv. cbn [may_capture].
    destruct (G2 n v Hv) as [Hv1 | Hc]; [| tauto].
    destruct (G1 n v Hv1); tauto.
  - destruct (run r1 k st) as [st2 |] eqn:E.
    + injection H as ->. destruct (IH1 _ _ _ E) as [st1 [c1 [H1 [E1 [D1 G1]]]]].
      exists st1, c1. cbn [denotes may_capture]. repeat split; auto.
      intros n v Hv. destruct (G1 n v Hv); tauto.
    + destruct (IH2 _ _ _ H) as [st1 [c1 [H1 [E1 [D1 G1]]]]].
      exists st1, c1. cbn [denotes may_capture]. repeat split; auto.
      intros n v Hv. destruct (G1 n v Hv); tauto.
  - destruct (run r1 k st) as [st2 |] eqn:E.
    + injection H as ->. destruct (IH1 _ _ _ E) as [st1 [c1 [H1 [E1 [D1 G1]]]]].
      exists st1, c1. cbn [denotes may_capture]. repeat split; auto.
    + exists st, EmptyString. cbn [denotes]. repeat split; auto.
  - destruct (star_denotes _ _ _ _ _ _ H) as [pv1 [s1 [c1 [Hk [E A]]]]].
    eexists _, c1. split; [exact Hk |]. cbn [rest caps denotes]. repeat split; auto.
  - destruct (lazy_star_denotes _ _ _ _ _ _ H) as [pv1 [s1 [c1 [Hk [E A]]]]].
    eexists _, c1. split; [exact Hk |]. cbn [rest caps denotes]. repeat split; auto.
  - destruct (IH1 _ _ _ H) as [st1 [c1 [H1 [E1 [D1 G1]]]]].
    eexists _, c1. split; [exact H1 |]. cbn [rest caps denotes may_capture].
    split; [assumption |]. split; [assumption |].
    intros n v Hv. cbn [assoc] in Hv. destruct (n =? m) eqn:En.
    + injection Hv as <-. right. left. apply Nat.eqb_eq in En.
      split; [now symmetry |]. rewrite E1, take_prefix. exact D1.
    + destruct (G1 n v Hv); tauto.
  - destruct (xorb (word_before st) (word_after st)); [| discriminate].
    exists st, EmptyString. cbn [denotes]. repeat split; auto.
  - destruct (run r1 Some st); [discriminate |].
    exists st, EmptyString. cbn [denotes]. repeat split; auto.
Qed.

Lemma match_at_captures (r : regex) (pv : option ascii) (s : string) (m : Match) :
  match_at r pv s = Some m ->
  denotes r (whole m)
  /\ forall n v, assoc n (groups m) = Some v -> may_capture n r v.
Proof.
  unfold match_at. destruct (run r Some (mkState pv s [])) as [st |] eqn:E;
    [| discriminate].
  intros H. injection H as <-. cbn [whole groups].
  destruct (run_denotes _ _ _ _ E) as [st1 [c1 [H1 [E1 [D1 G1]]]]].
  injection H1 as ->. cbn [rest caps] in *. rewrite E1, take_prefix.
  split; [assumption |]. intros n v Hv.
  destruct (G1 n v Hv) as [Hn | Hc]; [discriminate Hn | exact Hc].
Qed.

(** The value read from a group that the pattern always sets is a text the
    pattern can capture for it. *)
Lemma group_value (r : regex) (pv : option ascii) (s : string) (m : Match)
    (n : nat) :
  match_at r pv s = Some m -> always_sets n r = true ->
  may_capture n r (group n m).
Proof.
  intros H Ha. destruct (match_at_spec _ _ _ _ H) as [_ [_ Hs]].
  destruct (Hs n Ha) as [v Hv]. unfold group. rewrite Hv.
  now apply (match_at_captures _ _ _ _ H).
Qed.

Lemma denotes_plus (p : ascii -> bool) (v : string) :
  denotes (plus p) v -> v <> EmptyString /\ all_chars p v = true.
Proof.
  cbn [plus denotes]. intros [s1 [s2 [-> [[c [-> Hc]] Hs]]]].
  cbn [append all_chars]. rewrite Hc, Hs. split; [discriminate | reflexivity].
Qed.

Ltac captured_word H :=
  cbv -[denotes is_word is_space] in H;
  repeat match type of H with
         | _ \/ _ => destruct H as [H | H]
         | _ /\ _ => let E := fresh in destruct H as [E H]; try discriminate E
         | False => contradiction
         end;
  try (apply (denotes_plus is_word) in H; exact H).

Lemma java_method_capture (v : string) :
  may_capture 3 java_method_re v -> word_run v.
Proof. intros H. captured_word H. Qed.

Lemma java_class_capture (v : string) :
  may_capture 4 java_class_re v -> word_run v.
Proof. intros H. captured_word H. Qed.

Lemma function_capture (r : regex) (v : string) :
  In r function_patterns -> may_capture 1 r v -> word_run v.
Proof.
  intros Hr H. unfold function_patterns in Hr. cbn [In] in Hr.
  destruct Hr as [<- | [<- | [<- | []]]]; captured_word H.
Qed.

Lemma word_capture (v : string) : may_capture 1 word_re v -> word_run v.
Proof. intros H. captured_word H. Qed.

End CaptureFacts.

(** ** The names the Java and JavaScript analyzers extract *)
Section NameProperties.
Import Text Re Analyzers Notions Samples.

Lemma searched_group (r : regex) (s : string) (m : Match) (n : nat) :
  search r s = Some m -> always_sets n r = true -> may_capture n r (group n m).
Proof.
  intros H Ha. destruct (search_matches _ _ _ H) as [pv [s' Hm]].
  now apply (group_value _ _ _ _ _ Hm).
Qed.

Lemma found_group (r : regex) (s : string) (m : Match) (n : nat) :
  In m (finditer r s) -> always_sets n r = true -> may_capture n r (group n m).
Proof.
  intros H Ha. destruct (scan_matches _ _ _ _ _ H) as [pv [s' Hm]].
  now apply (group_value _ _ _ _ _ Hm).
Qed.

(** X21.  Every method name and class name in a Java finding is a non-empty run
    of word characters. *)
Theorem java_names_are_words (content name : string) :
  In name (field "methods" (analyze_java_file content))
  \/ In name (field "classes" (analyze_java_file content)) ->
  word_run name.
Proof.
  unfold analyze_java_file. cbv zeta. read_fields.
  intros [H | H]; apply in_flat_map in H; destruct H as [line [_ H]].
  - destruct (search java_method_re line) as [m |] eqn:E; [| contradiction].
    destruct H as [<- | []]. apply java_method_capture.
    now apply (searched_group _ _ _ _ E).
  - destruct (search java_class_re line) as [m |] eqn:E; [| contradiction].
    destruct H as [<- | []]. apply java_class_capture.
    now apply (searched_group _ _ _ _ E).
Qed.

Lemma java_names_are_words_witness : word_run "foo".
Proof.
  apply (java_names_are_words call_after_brace "foo").
  left. vm_compute. tauto.
Defined.

(** X22.  Every function name and variable name in a JavaScript or TypeScript
    finding is a non-empty run of word characters, so it stands for itself
    in the pattern built from it to look for calls. *)
Theorem javascript_names_are_words (content language name : string) :
  In name (field "functions" (analyze_javascript_file content language))
  \/ In name (field "variables" (analyze_javascript_file content language)) ->
  word_run name.
Proof.
  unfold analyze_javascript_file. cbv zeta. read_fields.
  intros [H | H]; apply in_flat_map in H; destruct H as [pattern [Hp H]].
  - apply in_map_iff in H. destruct H as [m [<- Hm]].
    apply (function_capture pattern); [assumption |].
    apply (found_group _ _ _ _ Hm).
    unfold function_patterns in Hp. cbn [In] in Hp.
    destruct Hp as [<- | [<- | [<- | []]]]; reflexivity.
  - apply in_flat_map in H. destruct H as [m [_ H]].
    apply in_map_iff in H. destruct H as [m' [<- Hm']].
    apply word_capture. now apply (found_group _ _ _ _ Hm').
Qed.

Lemma javascript_names_are_words_witness : word_run "x".
Proof.
  apply (javascript_names_are_words typed_any "javascript" "x").
  right. vm_compute. tauto.
Defined.

Lemma replace_removes_char (a : ascii) (s : string) :
  all_chars (is_not a) (replace s (String a EmptyString) EmptyString) = true.
Proof.
  unfold replace. induction s as [|c s IH]; [reflexivity |].
  cbn [replace_scan startswith String.length Nat.sub].
  destruct (Ascii.eqb a c) eqn:E; cbn [andb append all_chars]; [exact IH |].
  unfold is_not at 1. now rewrite Ascii.eqb_sym, E, IH.
Qed.

(** X23.  No import in a Java finding holds a semicolon, and each comes from a
    line that starts with [import ] once the blanks around it are
    stripped. *)
Theorem java_imports_have_no_semicolon (content imp : string) :
  In imp (field "imports" (analyze_java_file content)) ->
  str_in ";" imp = false
  /\ exists line,
       In line (split content nl)
       /\ startswith (strip line) "import " = true
       /\ imp = replace (replace (strip line) "import " "") ";" "".
Proof.
  unfold analyze_java_file. cbv zeta. read_fields.
  intros H. apply in_flat_map in H. destruct H as [line [Hl H]].
  destruct (startswith (strip line) "import ") eqn:E; [| contradiction].
  destruct H as [<- | []]. split.
  - apply (absent_by_class (is_not ";")); [apply replace_removes_char | reflexivity].
  - now exists line.
Qed.

Lemma java_imports_have_no_semicolon_witness :
  str_in ";" "java.util.*" = false
  /\ exists line,
       In line (split wildcard_import nl)
       /\ startswith (strip line) "import " = true
       /\ "java.util.*" = replace (replace (strip line) "import " "") ";" "".
Proof.
  apply (java_imports_have_no_semicolon wildcard_import "java.util.*").
  vm_compute. tauto.
Defined.

Lemma split_without_separator (line : string) (sep : ascii) :
  str_in (String sep EmptyString) line = false -> split line sep = [line].
Proof.
  induction line as [|c line IH]; [reflexivity |].
  cbn [str_in startswith split]. intros H. apply orb_false_iff in H.
  destruct H as [H1 H2]. rewrite andb_true_r in H1.
  rewrite Ascii.eqb_sym, H1, (IH H2). reflexivity.
Qed.

(** X24.  An extracted method is reported unused exactly when every line that
    has its name between a space and an opening parenthesis has it already
    before the line's first brace. *)
Theorem java_method_unused_iff (content method_name : string) :
  In method_name (field "methods" (analyze_java_file content)) ->
  (In method_name (field "unused_methods" (analyze_java_file content))
   <-> forall line,
         In line (split content nl) ->
         str_in (" " +++ method_name +++ "(") line = true ->
         str_in (" " +++ method_name +++ "(")
                (hd EmptyString (split line "{")) = true).
Proof.
  intros Hm. rewrite unused_methods_spec. fold (call_text method_name). split.
  - intros [_ Hr] line Hl Hc.
    destruct (str_in (call_text method_name) (hd EmptyString (split line "{")))
      eqn:E; [reflexivity |].
    assert (R : method_referenced method_name (split content nl) = true)
      by (apply method_referenced_spec; now exists line).
    congruence.
  - intros H. split; [assumption |].
    destruct (method_referenced method_name (split content nl)) eqn:E;
      [| reflexivity].
    apply method_referenced_spec in E. destruct E as [line [Hl [Hc Hb]]].
    rewrite (H line Hl Hc) in Hb. discriminate.
Qed.

Lemma java_method_unused_iff_witness :
  In "foo" (field "unused_methods" (analyze_java_file call_on_plain_line))
  <-> forall line,
        In line (split call_on_plain_line nl) ->
        str_in (" " +++ "foo" +++ "(") line = true ->
        str_in (" " +++ "foo" +++ "(") (hd EmptyString (split line "{")) = true.
Proof.
  apply (java_method_unused_iff call_on_plain_line "foo").
  vm_compute. tauto.
Defined.

(** X25.  A call on a line without a brace never makes a method used: when each
    line that has the method's name between a space and an opening
    parenthesis either holds no brace or has that text before its first
    brace, the method is reported unused. *)
Theorem calls_on_lines_without_brace_do_not_count (content method_name : string) :
  In method_name (field "methods" (analyze_java_file content)) ->
  (forall line,
     In line (split content nl) ->
     str_in (" " +++ method_name +++ "(") line = true ->
     str_in "{" line = false
     \/ str_in (" " +++ method_name +++ "(")
               (hd EmptyString (split line "{")) = true) ->
  In method_name (field "unused_methods" (analyze_java_file content)).
Proof.
  intros Hm Hb. apply unused_methods_spec. split; [assumption |].
  destruct (method_referenced method_name (split content nl)) eqn:E;
    [| reflexivity].
  apply method_referenced_spec in E. destruct E as [line [Hl [Hc Hf]]].
  fold (call_text method_name) in Hb.
  destruct (Hb line Hl Hc) as [Eb | Eb]; [| congruence].
  rewrite (split_without_separator line "{" Eb) in Hf. cbn [hd] in Hf.
  congruence.
Qed.

Lemma calls_on_lines_without_brace_do_not_count_witness :
  In "foo" (field "unused_methods" (analyze_java_file call_on_plain_line)).
Proof.
  apply (calls_on_lines_without_brace_do_not_count call_on_plain_line "foo").
  - vm_compute. tauto.
  - intros line Hl Hc. vm_compute in Hl.
    destruct Hl as [<- | [<- | [<- | [<- | [<- | []]]]]];
      try (vm_compute in Hc; discriminate Hc);
      vm_compute; tauto.
Defined.

End NameProperties.

(** ** Declarations that look like calls *)
Section ForwardFacts.
Import Text Re Analyzers Notions.

Lemma scan_positions (r : regex) (s : string) :
  forall skip pv m,
    In m (scan r skip pv s) ->
    exists pre s', s = pre +++ s' /\ match_at r (char_before pre pv) s' = Some m.
Proof.
  induction s as [|c s IH]; intros skip pv m H; cbn [scan] in H.
  - destruct skip; [| contradiction].
    destruct (match_at r pv EmptyString) as [m' |] eqn:E; [| contradiction].
    destruct H as [<- | []]. now exists EmptyString, EmptyString.
  - assert (Next : forall skip',
      In m (scan r skip' (Some c) s) ->
      exists pre s',
        String c s = pre +++ s' /\ match_at r (char_before pre pv) s' = Some m).
    { intros skip' H'. destruct (IH _ _ _ H') as [pre [s' [-> Hm]]].
      now exists (String c pre), s'. }
    destruct skip as [|skip]; [| now apply (Next skip)].
    destruct (match_at r pv (String c s)) as [m' |] eqn:E;
      [| now apply (Next 0)].
    destruct H as [<- | H]; [now exists EmptyString, (String c s) |].
    now apply (Next (String.length (whole m') - 1)).
Qed.

(** A pattern that matches at some position is found by a search. *)
Lemma search_from_finds (r : regex) (pre s' : string) (m : Match) :
  forall pv,
    match_at r (char_before pre pv) s' = Some m ->
    exists m', search_from r pv (pre +++ s') = Some m'.
Proof.
  induction pre as [|c pre IH]; intros pv H.
  - cbn [char_before append] in *. destruct s'; cbn [search_from];
      rewrite H; now exists m.
  - cbn [append search_from].
    destruct (match_at r pv (String c (pre +++ s'))) as [m0 |];
      [now exists m0 |].
    now apply IH.
Qed.

Lemma run_lit_forward (x : string) (k : mstate -> option mstate) :
  forall pv t cs,
    run (lit x) k (mkState pv (x +++ t) cs)
    = k (mkState (char_before x pv) t cs).
Proof.
  induction x as [|c x IH]; intros pv t cs; [reflexivity |].
  cbn [lit run rest caps append char_before]. rewrite Ascii.eqb_refl.
  apply IH.
Qed.

(** A greedy repetition that can take all of [a] and no more hands over
    right after [a] when the rest matches there. *)
Lemma star_forward (p : ascii -> bool) (k : mstate -> option mstate)
    (cs : list (nat * string)) (a t : string) (result : mstate) :
  all_chars p a = true ->
  match t with String c _ => p c = false | EmptyString => True end ->
  forall pv,
    k (mkState (char_before a pv) t cs) = Some result ->
    star p k cs pv (a +++ t) = Some result.
Proof.
  intros Ha Ht. induction a as [|c a IH]; intros pv Hk.
  - cbn [append char_before] in *. destruct t as [|c t]; cbn [star];
      [assumption |]. now rewrite Ht.
  - cbn [all_chars] in Ha. apply andb_true_iff in Ha. destruct Ha as [Hc Ha].
    cbn [append star]. rewrite Hc. now rewrite (IH Ha (Some c) Hk).
Qed.

Lemma space_is_not_word (c : ascii) : is_space c = true -> is_word c = false.
Proof.
  destruct c as [[] [] [] [] [] [] [] []]; vm_compute; congruence.
Qed.

Lemma char_before_app (a b : string) (pv : option ascii) :
  char_before (a +++ b) pv = char_before b (char_before a pv).
Proof.
  revert pv. induction a as [|x a IH]; intros pv; [reflexivity | apply IH].
Qed.

(** After a non-empty run of blanks the character before is a blank. *)
Lemma char_before_blanks (a : string) (pv : option ascii) :
  a <> EmptyString -> all_chars is_space a = true ->
  exists c, char_before a pv = Some c /\ is_space c = true.
Proof.
  intros Hn Ha. destruct (string_snoc a Hn) as [a' [c ->]].
  exists c. split; [apply char_before_last |].
  rewrite all_chars_app in Ha. apply andb_true_iff in Ha.
  destruct Ha as [_ Ha]. cbn [all_chars] in Ha. now rewrite andb_true_r in Ha.
Qed.

(** The pattern built to look for calls of [name] matches where [name]
    stands after a blank and before blanks and an opening parenthesis. *)
Lemma call_re_matches (name blanks post : string) (pv : ascii) :
  word_run name -> is_space pv = true -> all_chars is_space blanks = true ->
  exists m,
    match_at (call_re name) (Some pv) (name +++ blanks +++ "(" +++ post) = Some m.
Proof.
  intros [Hn Hw] Hp Hb. unfold match_at.
  assert (R : exists st,
    run (call_re name) Some (mkState (Some pv) (name +++ blanks +++ "(" +++ post) [])
    = Some st).
  { unfold call_re, seq. cbn [fold_right run].
    destruct name as [|c name]; [contradiction |].
    cbn [all_chars] in Hw. apply andb_true_iff in Hw. destruct Hw as [Hc Hw].
    unfold word_before, word_after. cbn [prev rest append].
    rewrite (space_is_not_word pv Hp), Hc. cbn [xorb].
    change (String c (name +++ blanks +++ "(" +++ post))
      with (String c name +++ blanks +++ "(" +++ post).
    match goal with
    | |- context [run (lit (String c name)) ?K _] =>
        pose proof (run_lit_forward (String c name) K (Some pv)
                      (blanks +++ "(" +++ post) []) as E
    end.
    cbn [append] in E. rewrite E. cbn beta. cbn [caps rest prev].
    eexists.
    apply (star_forward ws _ [] blanks (String "(" post)); [exact Hb | reflexivity |].
    cbn [lit run rest caps]. rewrite Ascii.eqb_refl. reflexivity. }
  destruct R as [st R]. rewrite R. eexists. reflexivity.
Qed.

End ForwardFacts.

Section DeclarationProperties.
Import Text Re Analyzers Notions Samples.

Lemma run_group (n : nat) (g : regex) (k : mstate -> option mstate)
    (st st' : mstate) :
  run (Group n g) k st = Some st' ->
  exists st1 consumed,
    k (mkState (prev st1) (rest st1) ((n, consumed) :: caps st1)) = Some st'
    /\ rest st = consumed +++ rest st1
    /\ denotes g consumed.
Proof.
  cbn [run]. intros H. apply run_denotes in H.
  destruct H as [st1 [c1 [H1 [E1 [D1 _]]]]].
  exists st1, c1. rewrite E1, take_prefix in H1. now repeat split.
Qed.

Lemma denotes_lit (x c : string) : denotes (lit x) c -> c = x.
Proof.
  revert c. induction x as [|a x IH]; intros c; cbn [lit denotes]; [easy |].
  intros [s1 [s2 [-> [[c0 [-> Hc]] H2]]]]. apply Ascii.eqb_eq in Hc.
  subst c0. cbn [append]. f_equal. now apply IH.
Qed.

(** Where the pattern for [function] declarations matches, the text reads
    [function], blanks, the captured name, blanks or none, and an opening
    parenthesis. *)
Lemma function_keyword_match (r : regex) (others : list regex)
    (pv : option ascii) (s : string) (m : Match) :
  function_patterns = r :: others ->
  match_at r pv s = Some m ->
  exists blanks1 blanks2 post,
    s = "function" +++ blanks1 +++ group 1 m +++ blanks2 +++ "(" +++ post
    /\ blanks1 <> EmptyString
    /\ all_chars is_space blanks1 = true
    /\ all_chars is_space blanks2 = true
    /\ word_run (group 1 m).
Proof.
  intros Hr. unfold function_patterns in Hr. injection Hr as <- _.
  unfold match_at.
  destruct (run _ Some (mkState pv s [])) as [st |] eqn:H; [| discriminate].
  intros Hm. injection Hm as <-.
  unfold seq in H. cbn [fold_right] in H.
  change (run (lit "function")
            (run (Cat (plus ws) (Cat (Group 1 (plus w))
                   (Cat (Star ws) (Cat (lit "(") Eps)))) Some)
            (mkState pv s []) = Some st) in H.
  apply run_denotes in H. destruct H as [st1 [c1 [H [E1 [D1 _]]]]].
  apply denotes_lit in D1. subst c1. cbn [rest] in E1.
  change (run (plus ws)
            (run (Cat (Group 1 (plus w)) (Cat (Star ws) (Cat (lit "(") Eps))) Some)
            st1 = Some st) in H.
  apply run_denotes in H. destruct H as [st2 [c2 [H [E2 [D2 _]]]]].
  apply denotes_plus in D2. destruct D2 as [N2 A2].
  change (run (Group 1 (plus w))
            (run (Cat (Star ws) (Cat (lit "(") Eps)) Some) st2 = Some st) in H.
  apply run_group in H. destruct H as [st3 [c3 [H [E3 D3]]]].
  apply denotes_plus in D3.
  pose proof (run_hands_over _ _ _ _ H) as [st4 [K4 [_ G4]]].
  injection K4 as ->.
  apply run_denotes in H. destruct H as [st4 [c4 [K4 [E4 [D4 C4]]]]].
  injection K4 as ->. cbn [rest caps] in *.
  assert (V : assoc 1 (caps st) = Some c3).
  { assert (has_group 1 (caps st)) as Hg
      by (apply G4; left; unfold has_group; cbn; discriminate).
    unfold has_group in Hg. destruct (assoc 1 (caps st)) as [v |] eqn:Ev;
      [| contradiction].
    destruct (C4 1 v Ev) as [Hv | Hv]; [now cbn in Hv |].
    cbn in Hv. tauto. }
  cbn [denotes] in D4. destruct D4 as [b2 [t2 [-> [A4 [p1 [p2 [-> [Dp ->]]]]]]]].
  apply (denotes_lit "(") in Dp. subst p1.
  exists c2, b2, (rest st). unfold group. cbn [groups]. rewrite V.
  split; [| now repeat split].
  rewrite E1, E2, E3, E4, !append_assoc. cbn [append]. reflexivity.
Qed.

(** X27.  A function declared with the keyword [function] is never reported
    unused: its own declaration is taken for a call of it. *)
Theorem declared_functions_are_never_unused (content language : string)
    (r : regex) (others : list regex) (m : Match) :
  function_patterns = r :: others ->
  In m (finditer r content) ->
  In (group 1 m) (field "functions" (analyze_javascript_file content language))
  /\ ~ In (group 1 m)
         (field "unused_functions" (analyze_javascript_file content language)).
Proof.
  intros Hr Hm. split.
  - unfold analyze_javascript_file. cbv zeta. read_fields. rewrite Hr.
    cbn [flat_map]. apply in_or_app. left. now apply in_map.
  - destruct (scan_positions _ _ _ _ _ Hm) as [pre [s' [Hc Hat]]].
    destruct (function_keyword_match _ _ _ _ _ Hr Hat)
      as [b1 [b2 [post [Hs [Hn [A1 [A2 Hw]]]]]]].
    destruct (char_before_blanks b1 (char_before (pre +++ "function") None) Hn A1)
      as [c [Hcb Hsp]].
    destruct (call_re_matches (group 1 m) b2 post c Hw Hsp A2) as [m1 Hm1].
    assert (F : found (call_re (group 1 m)) content = true).
    { unfold found, search.
      destruct (search_from_finds (call_re (group 1 m))
                  ((pre +++ "function") +++ b1)
                  (group 1 m +++ b2 +++ "(" +++ post) m1 None) as [m2 Hm2].
      - now rewrite char_before_app, Hcb.
      - replace content
          with (((pre +++ "function") +++ b1)
                +++ group 1 m +++ b2 +++ "(" +++ post).
        + now rewrite Hm2.
        + rewrite Hc, Hs, !append_assoc. reflexivity. }
    unfold analyze_javascript_file. cbv zeta. read_fields.
    intros H. apply filter_In in H. destruct H as [_ H].
    apply andb_true_iff in H. destruct H as [_ H].
    rewrite F in H. discriminate.
Qed.

Lemma declared_functions_are_never_unused_witness :
  In (group 1 MoreSamples.lone_declaration_match)
     (field "functions"
        (analyze_javascript_file MoreSamples.lone_declaration "javascript"))
  /\ ~ In (group 1 MoreSamples.lone_declaration_match)
         (field "unused_functions"
            (analyze_javascript_file MoreSamples.lone_declaration "javascript")).
Proof.
  apply (declared_functions_are_never_unused MoreSamples.lone_declaration
           "javascript" (hd Eps function_patterns) (tl function_patterns)).
  - reflexivity.
  - vm_compute. left. reflexivity.
Defined.

End DeclarationProperties.

(** ** Ordinary imports *)
Section ImportProperties.
Import Text Re Analyzers Notions Samples.

Lemma split_nonempty (s : string) (sep : ascii) : split s sep <> [].
Proof.
  destruct s as [|c s]; cbn [split]; [discriminate |].
  destruct (Ascii.eqb c sep); [discriminate |].
  destruct (split s sep); discriminate.
Qed.

Lemma split_head_is_prefix (s : string) (sep : ascii) :
  exists b, s = hd EmptyString (split s sep) +++ b.
Proof.
  induction s as [|c s [b IH]]; [now exists EmptyString |].
  cbn [split]. destruct (Ascii.eqb c sep).
  - now exists (String c s).
  - destruct (split s sep) as [|h t] eqn:E.
    + now destruct (split_nonempty s sep).
    + cbn [hd] in *. exists b. cbn [append]. now rewrite <- IH.
Qed.

(** A line of a text is a stretch of it. *)
Lemma line_in_text (s line : string) (sep : ascii) :
  In line (split s sep) -> exists a b, s = a +++ line +++ b.
Proof.
  induction s as [|c s IH]; cbn [split].
  - intros [<- | []]. now exists EmptyString, EmptyString.
  - destruct (Ascii.eqb c sep).
    + intros [<- | H].
      * now exists EmptyString, (String c s).
      * destruct (IH H) as [a [b ->]]. now exists (String c a), b.
    + destruct (split_head_is_prefix s sep) as [b0 Hb].
      destruct (split s sep) as [|h t] eqn:E.
      * now destruct (split_nonempty s sep).
      * cbn [hd] in Hb. intros [<- | H].
        -- exists EmptyString, b0. cbn [append]. now rewrite <- Hb.
        -- destruct (IH (or_intror H)) as [a [b ->]]. now exists (String c a), b.
Qed.

Lemma lstrip_is_suffix (s : string) : exists l, s = l +++ lstrip s.
Proof.
  induction s as [|c s [l IH]]; [now exists EmptyString |].
  cbn [lstrip]. destruct (is_space c).
  - exists (String c l). cbn [append]. now rewrite <- IH.
  - now exists EmptyString.
Qed.

Lemma rstrip_is_prefix (s : string) : exists r, s = rstrip s +++ r.
Proof.
  induction s as [|c s [r IH]]; [now exists EmptyString |].
  cbn [rstrip]. destruct (rstrip s) as [|d u] eqn:E.
  - destruct (is_space c); [now exists (String c s) |].
    exists r. cbn [append] in *. now rewrite <- IH.
  - exists r. cbn [append] in *. now rewrite <- IH.
Qed.

Lemma strip_is_stretch (s : string) : exists l r, s = l +++ strip s +++ r.
Proof.
  destruct (lstrip_is_suffix s) as [l Hl].
  destruct (rstrip_is_prefix (lstrip s)) as [r Hr].
  exists l, r. unfold strip. now rewrite <- Hr.
Qed.

Lemma split_at_separator (a b : string) (sep : ascii) :
  split (a +++ String sep b) sep = split a sep ++ split b sep.
Proof.
  induction a as [|c a IH]; cbn [append split].
  - now rewrite Ascii.eqb_refl.
  - rewrite IH. destruct (Ascii.eqb c sep); [reflexivity |].
    destruct (split a sep) as [|h t] eqn:E;
      [now destruct (split_nonempty a sep) | reflexivity].
Qed.

Lemma last_of_app (l l' : list string) (d : string) :
  l' <> [] -> last (l ++ l') d = last l' d.
Proof.
  intros H. induction l as [|x l IH]; [reflexivity |].
  cbn [app last]. rewrite IH. destruct (l ++ l') eqn:E; [| reflexivity].
  apply app_eq_nil in E. now destruct E.
Qed.

Lemma replace_trailing_char (x : string) (a : ascii) :
  all_chars (is_not a) x = true ->
  replace (x +++ String a EmptyString) (String a EmptyString) EmptyString = x.
Proof.
  unfold replace. induction x as [|c x IH]; cbn [append all_chars].
  - intros _. cbn [replace_scan startswith]. now rewrite Ascii.eqb_refl.
  - intros H. apply andb_true_iff in H. destruct H as [Hc Hx].
    cbn [replace_scan startswith]. unfold is_not in Hc.
    apply negb_true_iff in Hc. rewrite Ascii.eqb_sym, Hc. cbn [andb].
    f_equal. now apply IH.
Qed.

Lemma char_before_class (p : ascii -> bool) (a : string) (pv : option ascii) :
  a <> EmptyString -> all_chars p a = true ->
  exists c, char_before a pv = Some c /\ p c = true.
Proof.
  intros Hn Ha. destruct (string_snoc a Hn) as [a' [c ->]].
  exists c. split; [apply char_before_last |].
  rewrite all_chars_app in Ha. apply andb_true_iff in Ha.
  destruct Ha as [_ Ha]. cbn [all_chars] in Ha. now rewrite andb_true_r in Ha.
Qed.

(** A word between two characters that are not word characters is found
    as a whole word. *)
Lemma whole_word_matches (seg post : string) (pv next : ascii) :
  word_run seg -> is_word pv = false -> is_word next = false ->
  exists m,
    match_at (whole_word_re seg) (Some pv) (seg +++ String next post) = Some m.
Proof.
  intros [Hn Hw] Hp Hx. unfold match_at.
  assert (R : exists st,
    run (whole_word_re seg) Some (mkState (Some pv) (seg +++ String next post) [])
    = Some st).
  { unfold whole_word_re, seq. cbn [fold_right run].
    destruct (char_before_class is_word seg (Some pv) Hn Hw) as [z [Hz Wz]].
    destruct seg as [|c seg]; [contradiction |].
    pose proof Hw as Hw'. cbn [all_chars] in Hw'.
    apply andb_true_iff in Hw'. destruct Hw' as [Hc _].
    unfold word_before at 1. unfold word_after at 1. cbn [prev rest append].
    rewrite Hp, Hc. cbn [xorb].
    match goal with
    | |- context [run (lit (String c seg)) ?K _] =>
        pose proof (run_lit_forward (String c seg) K (Some pv)
                      (String next post) []) as E
    end.
    cbn [append] in E. rewrite E. cbn beta.
    unfold word_before, word_after. cbn [prev rest]. rewrite Hz, Wz, Hx.
    cbn [xorb]. eexists. reflexivity. }
  destruct R as [st R]. rewrite R. eexists. reflexivity.
Qed.

Lemma word_has_no (a : ascii) (seg : string) :
  is_word a = false -> all_chars is_word seg = true ->
  all_chars (is_not a) seg = true.
Proof.
  intros Ha. apply all_chars_weaken. intros c Hc. unfold is_not.
  apply negb_true_iff, Ascii.eqb_neq. intros ->. congruence.
Qed.

(** The last dotted part of an ordinary import stands in the text as a
    whole word, in the import statement itself. *)
Lemma ordinary_import_is_found (content line : string) :
  In line (split content nl) ->
  ordinary_import (strip line) ->
  found (whole_word_re
           (last (split (replace (replace (strip line) "import " "") ";" "") ".")
                 EmptyString))
        content = true.
Proof.
  intros Hl [prefix [seg [Hs [Hw [Hp Hq]]]]].
  assert (Wd : all_chars (is_not ".") seg = true)
    by (apply word_has_no; [reflexivity | apply Hw]).
  assert (Wb : all_chars (is_not " ") seg = true)
    by (apply word_has_no; [reflexivity | apply Hw]).
  assert (Wsc : all_chars (is_not ";") seg = true)
    by (apply word_has_no; [reflexivity | apply Hw]).
  assert (Pb : all_chars (is_not " ") prefix = true).
  { revert Hp. apply all_chars_weaken. intros c H.
    now apply andb_true_iff in H. }
  assert (Psc : all_chars (is_not ";") prefix = true).
  { revert Hp. apply all_chars_weaken. intros c H.
    now apply andb_true_iff in H. }
  assert (I : replace (replace (strip line) "import " "") ";" "" = prefix +++ seg).
  { rewrite Hs, replace_prefix; [| discriminate |].
    - rewrite <- append_assoc. apply replace_trailing_char.
      now rewrite all_chars_app, Psc, Wsc.
    - apply (absent_by_class (is_not " ")); [| reflexivity].
      now rewrite !all_chars_app, Pb, Wb. }
  assert (L : last (split (prefix +++ seg) ".") EmptyString = seg).
  { assert (S : split seg "." = [seg]).
    { apply split_without_separator.
      now apply (absent_by_class (is_not ".")). }
    destruct Hq as [-> | [before ->]].
    - cbn [append]. now rewrite S.
    - rewrite append_assoc. cbn [append]. rewrite split_at_separator.
      rewrite last_of_app by apply split_nonempty. now rewrite S. }
  rewrite I, L.
  destruct (line_in_text _ _ _ Hl) as [a [b Hc]].
  destruct (strip_is_stretch line) as [l [r Hr]].
  assert (B : exists pv, char_before (((a +++ l) +++ "import ") +++ prefix) None
                         = Some pv /\ is_word pv = false).
  { rewrite char_before_app. destruct Hq as [-> | [before ->]].
    - exists " "%char. split; [| reflexivity].
      cbn [char_before]. rewrite char_before_app. reflexivity.
    - exists "."%char. split; [| reflexivity]. apply char_before_last. }
  destruct B as [pv [Hpv Wpv]].
  destruct (whole_word_matches seg (r +++ b) pv ";" Hw Wpv eq_refl) as [m Hm].
  unfold found, search.
  destruct (search_from_finds (whole_word_re seg)
              (((a +++ l) +++ "import ") +++ prefix)
              (seg +++ String ";" (r +++ b)) m None) as [m' Hm'].
  - now rewrite Hpv.
  - replace content
      with ((((a +++ l) +++ "import ") +++ prefix) +++ seg +++ String ";" (r +++ b)).
    + now rewrite Hm'.
    + rewrite Hc, Hr, Hs, !append_assoc. reflexivity.
Qed.

Lemma filter_keeps_all {A : Type} (f : A -> bool) (l : list A) :
  (forall x, In x l -> f x = true) -> filter f l = l.
Proof.
  induction l as [|x l IH]; intros H; [reflexivity |].
  cbn [filter]. rewrite (H x) by now left. f_equal. apply IH.
  intros y Hy. apply H. now right.
Qed.

(** X26.  When every import statement of a text has the usual form, no import is
    reported as possibly unused, whether the rest of the text uses the
    imported names or not: each name is found in its own statement. *)
Theorem ordinary_imports_are_never_reported (content : string) :
  (forall line,
     In line (split content nl) ->
     startswith (strip line) "import " = true ->
     ordinary_import (strip line)) ->
  field "unused_imports" (analyze_java_file content) = [].
Proof.
  intros H. unfold analyze_java_file. cbv zeta. read_fields.
  rewrite filter_keeps_all; [now rewrite Nat.ltb_irrefl |].
  intros imp Hi. apply in_flat_map in Hi. destruct Hi as [line [Hl Hi]].
  destruct (startswith (strip line) "import ") eqn:E; [| contradiction].
  destruct Hi as [<- | []].
  apply ordinary_import_is_found; [assumption | now apply H].
Qed.

Lemma ordinary_imports_are_never_reported_witness :
  field "unused_imports" (analyze_java_file MoreSamples.ordinary_imports) = [].
Proof.
  apply (ordinary_imports_are_never_reported MoreSamples.ordinary_imports).
  intros line Hl Hs. vm_compute in Hl.
  destruct Hl as [<- | [<- | [<- | []]]]; try discriminate Hs.
  exists "java.util.", "List". repeat split.
  - discriminate.
  - right. now exists "java.util".
Defined.

End ImportProperties.

(** ** Names that are used *)
Section UsedNameProperties.
Import Text Re Analyzers Notions Samples.

Lemma alnum_is_word (c : ascii) : alnum_ c = true -> is_word c = true.
Proof.
  destruct c as [[] [] [] [] [] [] [] []]; vm_compute; congruence.
Qed.

Lemma letter_is_alnum (c : ascii) : letter_ c = true -> alnum_ c = true.
Proof. unfold alnum_. now intros ->. Qed.

(** An identifier with no word character around it is matched as a whole
    by the pattern for identifiers. *)
Lemma identifier_matches (name post : string) (pv : option ascii) :
  identifier name ->
  match pv with Some c => is_word c = false | None => True end ->
  match post with String c _ => is_word c = false | EmptyString => True end ->
  match_at identifier_re pv (name +++ post) = Some (mkMatch name []).
Proof.
  intros [c [body [-> [Hc Hb]]]] Hp Hx. unfold match_at.
  assert (R : run identifier_re Some (mkState pv (String c body +++ post) [])
              = Some (mkState (char_before body (Some c)) post [])).
  { unfold identifier_re, seq. cbn [fold_right run append rest prev caps].
    unfold word_before at 1. unfold word_after at 1. cbn [prev rest].
    rewrite (alnum_is_word c (letter_is_alnum c Hc)).
    replace (match pv with Some c0 => is_word c0 | None => false end)
      with false by (destruct pv as [p |]; [now rewrite Hp | reflexivity]).
    cbn [xorb]. rewrite Hc.
    apply star_forward; [assumption | |].
    - destruct post as [|x post]; [trivial |].
      destruct (alnum_ x) eqn:E; [| reflexivity].
      apply alnum_is_word in E. congruence.
    - cbn [run]. unfold word_before, word_after. cbn [prev rest].
      assert (W : exists z, char_before body (Some c) = Some z
                            /\ is_word z = true).
      { destruct body as [|b body].
        - exists c. split; [reflexivity |].
          apply alnum_is_word, letter_is_alnum, Hc.
        - destruct (char_before_class alnum_ (String b body) (Some c))
            as [z [Hz Wz]]; [discriminate | assumption |].
          exists z. split; [assumption | now apply alnum_is_word]. }
      destruct W as [z [Hz Wz]]. rewrite Hz, Wz.
      replace (match post with String c0 _ => is_word c0 | EmptyString => false end)
        with false by (destruct post; [reflexivity | now rewrite Hx]).
      reflexivity. }
  rewrite R. cbn [rest caps]. now rewrite take_prefix.
Qed.

(** What the pattern for identifiers matches is made of word characters. *)
Lemma identifier_match_is_word (pv : option ascii) (s : string) (m : Match) :
  match_at identifier_re pv s = Some m ->
  all_chars is_word (whole m) = true /\ exists post, s = whole m +++ post.
Proof.
  intros H. split; [| apply (match_at_spec _ _ _ _ H)].
  apply match_at_captures in H. destruct H as [H _].
  unfold identifier_re, seq in H. cbn [fold_right denotes] in H.
  destruct H as [s1 [s2 [-> [-> [s3 [s4 [-> [[c [-> Hc]] H]]]]]]]].
  destruct H as [s5 [s6 [-> [Hs [s7 [s8 [-> [-> ->]]]]]]]].
  cbn [append all_chars].
  rewrite (alnum_is_word c (letter_is_alnum c Hc)). cbn [andb].
  rewrite all_chars_app. cbn [all_chars]. rewrite andb_true_r.
  revert Hs. apply all_chars_weaken. exact alnum_is_word.
Qed.

(** A run of characters of a class does not reach over a character
    outside the class. *)
Lemma run_stops_before (p : ascii -> bool) (z : ascii) :
  p z = false ->
  forall pre0 a t s',
    all_chars p a = true ->
    a +++ t = (pre0 +++ String z EmptyString) +++ s' ->
    String.length a <= String.length pre0.
Proof.
  intros Hz. induction pre0 as [|c pre0 IH]; intros a t s' Ha E.
  - destruct a as [|x a]; [cbn; lia |].
    cbn [append] in E. injection E as -> _. cbn [all_chars] in Ha.
    rewrite Hz in Ha. discriminate.
  - destruct a as [|x a]; [cbn; lia |].
    cbn [append] in E. injection E as -> E. cbn [all_chars] in Ha.
    apply andb_true_iff in Ha. destruct Ha as [_ Ha].
    cbn [String.length]. apply le_n_S. exact (IH a t s' Ha E).
Qed.

(** The scan does not miss an identifier that stands as a whole word:
    no earlier match reaches over the character before it. *)
Lemma scan_meets_word (s' : string) (m : Match) :
  forall pre skip pv,
    (skip = 0 \/ skip < String.length pre) ->
    (pre = EmptyString
     \/ exists pre0 z, pre = pre0 +++ String z EmptyString /\ is_word z = false) ->
    match_at identifier_re (char_before pre pv) s' = Some m ->
    In m (scan identifier_re skip pv (pre +++ s')).
Proof.
  induction pre as [|c pre IH]; intros skip pv Hs Hb Hm.
  - destruct Hs as [-> | Hs]; [| cbn in Hs; lia].
    cbn [append char_before] in *. destruct s'; cbn [scan]; rewrite Hm; now left.
  - assert (Hb' : pre = EmptyString
                  \/ exists pre0 z, pre = pre0 +++ String z EmptyString
                                    /\ is_word z = false).
    { destruct Hb as [Hb | [pre0 [z [E Hz]]]]; [discriminate |].
      destruct pre0 as [|x pre0]; cbn [append] in E; injection E as -> ->.
      - now left.
      - right. now exists pre0, z. }
    cbn [append scan char_before] in *.
    destruct skip as [|skip].
    + destruct (match_at identifier_re pv (String c (pre +++ s')))
        as [m' |] eqn:E.
      * right. apply IH; [| assumption | assumption].
        destruct (identifier_match_is_word _ _ _ E) as [Hw [t Ht]].
        destruct Hb as [Hb | [pre0 [z [Ep Hz]]]]; [discriminate |].
        assert (L : String.length (whole m') <= String.length pre0).
        { apply (run_stops_before is_word z Hz pre0 (whole m') t s' Hw).
          rewrite <- Ht, <- Ep. reflexivity. }
        assert (Lp : String.length (String c pre) = String.length pre0 + 1).
        { rewrite Ep, append_length. reflexivity. }
        cbn [String.length] in Lp. lia.
      * apply IH; [now left | assumption | assumption].
    + apply IH; [| assumption | assumption].
      destruct Hs as [Hs | Hs]; [discriminate |].
      cbn [String.length] in Hs. lia.
Qed.

(** An identifier that stands as a whole word is one of the used names. *)
Lemma identifier_is_used (name content : string) :
  identifier name -> stands_as_word name content ->
  In name (map whole (finditer identifier_re content)).
Proof.
  intros Hi [pre [post [-> [Hp Hx]]]].
  change name with (whole (mkMatch name [])). apply in_map.
  unfold finditer. apply scan_meets_word.
  - now left.
  - destruct pre as [|c pre]; [now left |]. right.
    destruct (string_snoc (String c pre)) as [pre0 [z E]]; [discriminate |].
    exists pre0, z. split; [assumption |].
    rewrite E, char_before_last in Hp. exact Hp.
  - now apply identifier_matches.
Qed.

(** X28.  An identifier that stands somewhere in the text as a whole word is
    reported neither as an unused function nor as an unused variable,
    whether anything calls or reads it: the place where it is declared
    counts as a use. *)
Theorem whole_word_identifiers_are_never_unused
    (content language name : string) :
  identifier name -> stands_as_word name content ->
  ~ In name (field "unused_functions" (analyze_javascript_file content language))
  /\ ~ In name
         (field "unused_variables" (analyze_javascript_file content language)).
Proof.
  intros Hi Hs. pose proof (identifier_is_used name content Hi Hs) as Hu.
  apply mem_In in Hu. unfold analyze_javascript_file. cbv zeta. read_fields.
  split; intros H; apply filter_In in H; destruct H as [_ H];
    rewrite Hu in H; discriminate H.
Qed.

Lemma whole_word_identifiers_are_never_unused_witness :
  ~ In "total"
      (field "unused_functions"
         (analyze_javascript_file MoreSamples.declared_constant "javascript"))
  /\ ~ In "total"
         (field "unused_variables"
            (analyze_javascript_file MoreSamples.declared_constant "javascript")).
Proof.
  apply (whole_word_identifiers_are_never_unused
           MoreSamples.declared_constant "javascript" "total").
  - exists "t"%char, "otal". repeat split.
  - exists "const ", " = 1;". repeat split.
Defined.

End UsedNameProperties.

(** ** The order of a search *)
Section SearchOrder.
Import Text Structure Repo Notions.

Lemma first_of_app {A : Type} (l l' : list A) :
  hd_error (l ++ l') = match hd_error l with Some a => Some a | None => hd_error l' end.
Proof. now destruct l. Qed.

Lemma first_named_in (filename : string) (l : list ContentFile) (c : ContentFile) :
  hd_error (filter (named_file filename) l) = Some c ->
  In c l /\ type c = "file" /\ name c = filename.
Proof.
  intros H. assert (Hc : In c (filter (named_file filename) l)).
  { destruct (filter (named_file filename) l); [discriminate |].
    injection H as ->. now left. }
  apply filter_In in Hc. destruct Hc as [Hc Hn]. unfold named_file in Hn.
  apply andb_true_iff in Hn. destruct Hn as [Ht Hn].
  apply String.eqb_eq in Ht. apply String.eqb_eq in Hn. now repeat split.
Qed.

Lemma search_turns_first (filename : string) (items : list RepoItem) :
  Forall (fun item =>
            (forall c, In c (flatten_turn item) -> type c = "file" ->
                       name c = filename -> path c <> EmptyString) ->
            search_turn filename item
            = option_map path
                (hd_error (filter (named_file filename) (flatten_turn item))))
         items ->
  (forall c, In c (flat_map flatten_turn items) -> type c = "file" ->
             name c = filename -> path c <> EmptyString) ->
  first_return (search_turn filename) items
  = option_map path
      (hd_error (filter (named_file filename) (flat_map flatten_turn items))).
Proof.
  induction items as [|x l IH]; intros Hall Hp; [reflexivity |].
  inversion Hall as [| ? ? Hx Hl]; subst.
  cbn [first_return flat_map]. rewrite filter_app, first_of_app.
  rewrite Hx by (intros c Hc; apply Hp; cbn [flat_map]; apply in_or_app; now left).
  destruct (hd_error (filter (named_file filename) (flatten_turn x)));
    [reflexivity |].
  cbn [option_map]. apply IH; [assumption |].
  intros c Hc. apply Hp. cbn [flat_map]. apply in_or_app. now right.
Qed.

Lemma search_turn_first (filename : string) (item : RepoItem) :
  (forall c, In c (flatten_turn item) -> type c = "file" ->
             name c = filename -> path c <> EmptyString) ->
  search_turn filename item
  = option_map path (hd_error (filter (named_file filename) (flatten_turn item))).
Proof.
  induction item as [d sub IH | d e] using repo_item_ind'; intros Hp;
    cbn [search_turn flatten_turn] in *.
  - destruct (String.eqb (type d) "file" && String.eqb (name d) filename) eqn:Em.
    + apply andb_true_iff in Em. destruct Em as [Et En].
      apply String.eqb_eq in Et. rewrite Et. cbn [String.eqb Ascii.eqb Bool.eqb].
      cbn [filter]. unfold named_file. rewrite Et, En. reflexivity.
    + destruct (String.eqb (type d) "dir") eqn:Ed.
      * rewrite (search_turns_first filename sub IH Hp).
        destruct (hd_error (filter (named_file filename)
                              (flat_map flatten_turn sub))) as [c |] eqn:E;
          [| reflexivity].
        cbn [option_map]. destruct (path c) as [|a q] eqn:Ec; [| reflexivity].
        exfalso. destruct (first_named_in _ _ _ E) as [Hc [Ht Hn]].
        now apply (Hp c).
      * cbn [filter]. unfold named_file. now rewrite Em.
  - destruct (String.eqb (type d) "file" && String.eqb (name d) filename) eqn:Em.
    + apply andb_true_iff in Em. destruct Em as [Et En].
      apply String.eqb_eq in Et. rewrite Et. cbn [String.eqb Ascii.eqb Bool.eqb].
      cbn [filter]. unfold named_file. rewrite Et, En. reflexivity.
    + destruct (String.eqb (type d) "dir") eqn:Ed; [reflexivity |].
      cbn [filter]. unfold named_file. now rewrite Em.
Qed.

(** X7.  When the files of the name asked for all have a path,
    [find_file_in_repo] returns the path of the first of them in the order
    in which [analyze_repo] gathers the entries, and nothing when there is
    none. *)
Theorem search_returns_first_listed (repo : Repository) (filename : string)
    (listing : list ContentFile) :
  repo_listing repo = Returns listing ->
  (forall c, In c listing -> type c = "file" -> name c = filename ->
             path c <> EmptyString) ->
  find_file_in_repo repo filename
  = option_map path (hd_error (filter (named_file filename) listing)).
Proof.
  unfold repo_listing, find_file_in_repo, search_recursive, flatten_contents.
  destruct (root_contents repo) as [items | e]; [| discriminate].
  intros H Hp. injection H as <-.
  apply search_turns_first; [| assumption].
  apply repo_items_all; intros; now apply search_turn_first.
Qed.

Lemma search_returns_first_listed_witness :
  find_file_in_repo RepoSamples.small_repo "main.py"
  = option_map path
      (hd_error (filter (named_file "main.py")
                   (flatten_contents RepoSamples.small_tree))).
Proof.
  apply (search_returns_first_listed RepoSamples.small_repo "main.py"
           (flatten_contents RepoSamples.small_tree)).
  - reflexivity.
  - intros c Hc _ _. vm_compute in Hc.
    destruct Hc as [<- | [<- | [<- | []]]]; discriminate.
Defined.

End SearchOrder.
